(** * S4_API: endpoint discovery, schema normalisation, row submission and
    verification, embedded from the TypeScript sources.

    The development follows the layout of the repository:
    - [Js]           the fragment of JavaScript value semantics the code relies on
                     (truthiness, [||], [?.], property reads and writes,
                     [Object.entries], strict equality, string helpers), and
                     the inputs on which that fragment is exact;
    - [Http]         requests, responses and the outcome of a [fetch];
    - [ApiClient]    [src/utils/apiClient.ts]: the schema normaliser and the
                     endpoint discoverer;
    - [DataMapping]  [src/components/DataMapping.tsx]: required-field validation;
    - [Submission]   [src/components/SubmissionResults.tsx]: the row pipeline as
                     a transition system over React state and closures;
    - [Verification] [src/components/DataVerification.tsx]: re-fetch and compare;
    - [Sheets]       [src/utils/xlsxParser.ts], [src/utils/spreadsheetParser.ts]:
                     the two parsers and the validator;
    - [FileUpload], [FileImport]       the two versions of the upload step;
    - [Credentials], [CredentialsForm] the two versions of the credentials form;
    - [AppShell]     [src/App.tsx]: the URL handed to the verification step;
    - [MappingSession], [MappingPreview] the selects and the preview of the
                     mapping step;
    - [EndpointSearch] the search box of [src/components/EndpointDiscovery.tsx].

    Definitions come first; the theorems about them follow. *)

From Stdlib Require Import ZArith List String Ascii Bool Lia Arith DecimalString.
Import ListNotations.
Open Scope string_scope.

Set Implicit Arguments.
Set Warnings "-register-all".

(* ===================================================================== *)
(** * JavaScript values                                                    *)
(* ===================================================================== *)

Module Js.

(** Values that flow through the code: what [JSON.parse] produces, plus
    [undefined] (the result of reading a missing property).  Numbers are
    the integer-valued ones; objects list their own properties in
    enumeration order.  The members objects inherit from the built-in
    prototypes are not values of this type: a read that can reach one is
    modelled where it occurs ([differsAt]) or excluded by [ownRead]. *)
Inductive JsVal : Type :=
| VUndef
| VNull
| VBool (b : bool)
| VNum (n : Z)
| VStr (s : string)
| VArr (elems : list JsVal)
| VObj (props : list (string * JsVal)).

(** ** Option as the exception monad: [None] is a thrown [TypeError]. *)
Definition bind {A B} (m : option A) (k : A -> option B) : option B :=
  match m with Some a => k a | None => None end.

Notation "x <- m ;; k" := (bind m (fun x => k))
  (at level 61, m at next level, right associativity).

Fixpoint mapM {A B} (f : A -> option B) (l : list A) : option (list B) :=
  match l with
  | [] => Some []
  | a :: t => b <- f a ;; bs <- mapM f t ;; Some (b :: bs)
  end.

(** ** Truthiness and the short-circuit operators *)

(** [ToBoolean]. *)
Definition truthy (v : JsVal) : bool :=
  match v with
  | VUndef | VNull => false
  | VBool b => b
  | VNum n => negb (n =? 0)%Z
  | VStr s => negb (s =? "")
  | VArr _ | VObj _ => true
  end.

(** [a || b] *)
Definition or (a b : JsVal) : JsVal := if truthy a then a else b.

(** [a ?? b] *)
Definition nullish (v : JsVal) : bool :=
  match v with VUndef | VNull => true | _ => false end.

Definition coalesce (a b : JsVal) : JsVal := if nullish a then b else a.

(** ** Decimal rendering and array indices *)

Definition string_of_nat (n : nat) : string :=
  NilEmpty.string_of_uint (Nat.to_uint n).

Definition string_of_Z (z : Z) : string :=
  NilEmpty.string_of_int (Z.to_int z).

(** A property key is an array index when it is the canonical decimal
    rendering of a natural number. *)
Definition index_of_key (k : string) : option nat :=
  match NilEmpty.uint_of_string k with
  | Some u =>
      let n := Nat.of_uint u in
      if string_of_nat n =? k then Some n else None
  | None => None
  end.

(** ** Property reads *)

Fixpoint lookup (props : list (string * JsVal)) (k : string) : option JsVal :=
  match props with
  | [] => None
  | (k', v) :: rest => if k' =? k then Some v else lookup rest k
  end.

Definition own (props : list (string * JsVal)) (k : string) : JsVal :=
  match lookup props k with Some v => v | None => VUndef end.

Definition has_key (props : list (string * JsVal)) (k : string) : bool :=
  match lookup props k with Some _ => true | None => false end.

Definition char_at (s : string) (i : nat) : JsVal :=
  match String.get i s with
  | Some c => VStr (String c "")
  | None => VUndef
  end.

(** [v[k]] / [v.k]: throws on [undefined] and [null].  Own properties
    only: this is the read of the engine for every key that is no member
    of a built-in prototype, as are all the keys the code spells out
    ([name], [schema], [type], [paths], [id], ...). *)
Definition get (v : JsVal) (k : string) : option JsVal :=
  match v with
  | VUndef | VNull => None
  | VBool _ | VNum _ => Some VUndef
  | VStr s =>
      Some (if k =? "length" then VNum (Z.of_nat (String.length s))
            else match index_of_key k with
                 | Some i => char_at s i
                 | None => VUndef
                 end)
  | VArr l =>
      Some (if k =? "length" then VNum (Z.of_nat (List.length l))
            else match index_of_key k with
                 | Some i => nth i l VUndef
                 | None => VUndef
                 end)
  | VObj ps => Some (own ps k)
  end.

(** [v?.[k]] / [v?.k] *)
Definition opt_get (v : JsVal) (k : string) : JsVal :=
  match get v k with Some x => x | None => VUndef end.

(** ** [Object.entries] and [Object.keys] *)

Fixpoint indexed {A} (i : nat) (l : list A) : list (string * A) :=
  match l with
  | [] => []
  | a :: t => (string_of_nat i, a) :: indexed (S i) t
  end.

Fixpoint chars (s : string) : list JsVal :=
  match s with
  | EmptyString => []
  | String c t => VStr (String c "") :: chars t
  end.

Definition entries (v : JsVal) : option (list (string * JsVal)) :=
  match v with
  | VUndef | VNull => None
  | VBool _ | VNum _ => Some []
  | VStr s => Some (indexed 0 (chars s))
  | VArr l => Some (indexed 0 l)
  | VObj ps => Some ps
  end.

Definition keys (v : JsVal) : option (list string) :=
  es <- entries v ;; Some (map fst es).

(** ** [ToString], as used by [+] with a string operand and by template
    literals.  The text is that of the engine on [printable] values (see
    the end of this module); [stringOf] adds the exception. *)

Fixpoint join (sep : string) (l : list string) : string :=
  match l with
  | [] => ""
  | [s] => s
  | s :: t => s ++ sep ++ join sep t
  end.

Fixpoint to_string (v : JsVal) : string :=
  match v with
  | VUndef => "undefined"
  | VNull => "null"
  | VBool true => "true"
  | VBool false => "false"
  | VNum n => string_of_Z n
  | VStr s => s
  | VArr l =>
      join ","
        (map (fun e => match e with
                       | VUndef | VNull => ""
                       | _ => to_string e
                       end) l)
  | VObj _ => "[object Object]"
  end.

(** ** Strict equality [===].  Two arrays or two objects are equal only
    when they are the same allocation; every use below compares a value
    with one read from a freshly parsed response body, so such a pair is
    never equal. *)
Definition strict_eq (a b : JsVal) : bool :=
  match a, b with
  | VUndef, VUndef => true
  | VNull, VNull => true
  | VBool x, VBool y => Bool.eqb x y
  | VNum x, VNum y => (x =? y)%Z
  | VStr x, VStr y => (x =? y)
  | _, _ => false
  end.

(** ** String helpers *)

Definition upper_char (c : ascii) : ascii :=
  let n := nat_of_ascii c in
  if ((97 <=? n) && (n <=? 122))%nat then ascii_of_nat (n - 32) else c.

Definition lower_char (c : ascii) : ascii :=
  let n := nat_of_ascii c in
  if ((65 <=? n) && (n <=? 90))%nat then ascii_of_nat (n + 32) else c.

(** Letter case is changed on ASCII letters only.  The code compares the
    result with ASCII method names, and no other character of a header or
    of a verb maps onto a letter of those names.  On free text the two
    functions are those of the engine for [asciiString]s. *)
Fixpoint toUpperCase (s : string) : string :=
  match s with
  | EmptyString => EmptyString
  | String c t => String (upper_char c) (toUpperCase t)
  end.

Fixpoint toLowerCase (s : string) : string :=
  match s with
  | EmptyString => EmptyString
  | String c t => String (lower_char c) (toLowerCase t)
  end.

(** White space removed by [String.prototype.trim] among 8-bit characters. *)
Definition is_space (c : ascii) : bool :=
  let n := nat_of_ascii c in
  (((9 <=? n) && (n <=? 13)) || (n =? 32) || (n =? 160))%nat.

Fixpoint trimStart (s : string) : string :=
  match s with
  | EmptyString => EmptyString
  | String c t => if is_space c then trimStart t else s
  end.

Fixpoint trimEnd (s : string) : string :=
  match s with
  | EmptyString => EmptyString
  | String c t =>
      match trimEnd t with
      | EmptyString => if is_space c then EmptyString else String c EmptyString
      | t' => String c t'
      end
  end.

Definition trim (s : string) : string := trimEnd (trimStart s).

(** [s.split(sep)] for a one-character separator: always at least one
    piece. *)
Fixpoint split (sep : ascii) (s : string) : list string :=
  match s with
  | EmptyString => [EmptyString]
  | String c t =>
      if Ascii.eqb c sep then EmptyString :: split sep t
      else match split sep t with
           | [] => [String c EmptyString]
           | piece :: rest => String c piece :: rest
           end
  end.

(** [s.includes(sub)] on strings. *)
Fixpoint str_includes (sub s : string) : bool :=
  if String.prefix sub s then true
  else match s with
       | EmptyString => false
       | String _ t => str_includes sub t
       end.

(** [arr.includes(x)] on string lists. *)
Definition includes (l : list string) (x : string) : bool :=
  existsb (String.eqb x) l.

(** ** Property writes *)

(** Array-index keys, the canonical decimal renderings of the integers below
    [2^32 - 1], are enumerated before all other keys, in ascending numeric
    order; the other keys follow in the order of their creation. *)
Definition arrayIndex (k : string) : option Z :=
  match NilEmpty.uint_of_string k with
  | Some u =>
      let n := Z.of_uint u in
      if (string_of_Z n =? k) && (n <? 4294967295)%Z then Some n else None
  | None => None
  end.

Definition hasOwn {A} (props : list (string * A)) (k : string) : bool :=
  existsb (fun p => fst p =? k) props.

Fixpoint replaceOwn {A} (props : list (string * A)) (k : string) (v : A)
  : list (string * A) :=
  match props with
  | [] => []
  | (k', v') :: rest =>
      if k' =? k then (k', v) :: rest else (k', v') :: replaceOwn rest k v
  end.

Fixpoint insertIndex {A} (n : Z) (props : list (string * A)) (k : string) (v : A)
  : list (string * A) :=
  match props with
  | [] => [(k, v)]
  | (k', v') :: rest =>
      match arrayIndex k' with
      | Some n' =>
          if (n' <? n)%Z then (k', v') :: insertIndex n rest k v
          else (k, v) :: props
      | None => (k, v) :: props
      end
  end.

(** [obj[k] = v] on an object created by a literal, as a change of its own
    properties.  An existing property keeps its place.  The key [__proto__]
    is taken by the setter inherited from [Object.prototype]: the
    assignment creates no own property (what it does to the prototype is
    not seen by the own-property reads of this model). *)
Definition assign {A} (props : list (string * A)) (k : string) (v : A)
  : list (string * A) :=
  if hasOwn props k then replaceOwn props k v
  else if k =? "__proto__" then props
  else match arrayIndex k with
       | Some n => insertIndex n props k v
       | None => (props ++ [(k, v)])%list
       end.

(** ** Where the model is exact

    Three things an engine does lie outside the value type: the members
    every object inherits from [Object.prototype], numbers beyond the
    integers a double holds exactly, and letters outside ASCII.  The
    predicates below name the inputs on which the functions above compute
    what the engine computes; a theorem that depends on one of them carries
    it as a hypothesis. *)

(** The members of [Object.prototype].  Reading one of these names from an
    object without an own property of that name yields the inherited
    member, not [undefined]. *)
Definition inheritedNames : list string :=
  [ "constructor"; "hasOwnProperty"; "isPrototypeOf"; "propertyIsEnumerable";
    "toLocaleString"; "toString"; "valueOf"; "__proto__";
    "__defineGetter__"; "__defineSetter__";
    "__lookupGetter__"; "__lookupSetter__" ].

Definition inherited (k : string) : bool := includes inheritedNames k.

(** [obj[k]] is settled by the own properties of [obj]: [k] is an own key,
    or no inherited member has that name. *)
Definition ownRead (props : list (string * JsVal)) (k : string) : bool :=
  has_key props k || negb (inherited k).

(** A key that an assignment appends as the last own property. *)
Definition plainKey (k : string) : bool :=
  negb (k =? "__proto__") &&
  match arrayIndex k with Some _ => false | None => true end.

(** [ToString] of an object consults its [toString] property; an own
    property of that name in a parsed document is never a function, and the
    conversion throws a [TypeError].  Arrays convert their elements. *)
Fixpoint stringifiable (v : JsVal) : bool :=
  match v with
  | VObj ps => negb (has_key ps "toString")
  | VArr l => forallb stringifiable l
  | _ => true
  end.

(** [ToString] with its exception. *)
Definition stringOf (v : JsVal) : option string :=
  if stringifiable v then Some (to_string v) else None.

(** The integers whose decimal digits are what [ToString] prints: beyond
    [2^53] an engine prints the shortest digits that round-trip, and from
    [10^21] on an exponent. *)
Definition safeInteger (n : Z) : bool := (Z.abs n <=? 9007199254740992)%Z.

Fixpoint safeNumbers (v : JsVal) : bool :=
  match v with
  | VNum n => safeInteger n
  | VArr l => forallb safeNumbers l
  | VObj ps => forallb (fun p => safeNumbers (snd p)) ps
  | _ => true
  end.

(** The values [to_string] renders as the engine does. *)
Definition printable (v : JsVal) : bool := safeNumbers v && stringifiable v.

(** Strings on which [toLowerCase] and [toUpperCase] are those of the
    engine. *)
Fixpoint asciiString (s : string) : bool :=
  match s with
  | EmptyString => true
  | String c t => (nat_of_ascii c <? 128)%nat && asciiString t
  end.

End Js.

Import Js.

(* ===================================================================== *)
(** * HTTP as seen through [fetch]                                         *)
(* ===================================================================== *)

Module Http.

(** The request line and body handed to [fetch].  [makeRequest] adds the
    same [Authorization] and [Content-Type] headers to every call; they do
    not influence control flow and are left out. *)
Record Request : Type := mkRequest {
  req_method : string;
  req_url : string;
  req_body : option JsVal
}.

(** What [response.json()] yields: a parsed value, or a rejection carrying
    the parser's message. *)
Inductive Body : Type :=
| Json (v : JsVal)
| NotJson (message : string).

Record Response : Type := mkResponse {
  status : Z;
  statusText : string;
  headers : list (string * string);
  body : Body
}.

(** [response.ok] *)
Definition ok (r : Response) : bool :=
  ((200 <=? status r) && (status r <=? 299))%Z.

(** [response.headers.get(name)]: names compare case-insensitively and
    repeated headers are combined; [None] is [null]. *)
Definition headers_get (name : string) (hs : list (string * string)) : option string :=
  match filter (fun h => toLowerCase (fst h) =? toLowerCase name) hs with
  | [] => None
  | found => Some (join ", " (map snd found))
  end.

(** The text both pipelines build for a status outside 2xx:
    [`HTTP ${response.status}: ${response.statusText}`]. *)
Definition httpError (r : Response) : string :=
  "HTTP " ++ string_of_Z (status r) ++ ": " ++ statusText r.

(** A [fetch] either resolves with a response or rejects with an [Error]. *)
Inductive FetchOutcome : Type :=
| Responded (r : Response)
| Rejected (message : string).

End Http.

Import Http.

(* ===================================================================== *)
(** * src/utils/apiClient.ts                                               *)
(* ===================================================================== *)

Module ApiClient.

(** The objects the normaliser builds.  TypeScript's annotations are erased
    at run time and the inputs are [any], so a field that is copied from
    the document holds whatever value the document had there. *)
Record ParsedParameter : Type := mkParameter {
  p_name : JsVal;
  p_type : JsVal;
  p_required : JsVal;
  p_description : JsVal;
  p_format : JsVal;
  p_enum : JsVal;
  p_maxLength : JsVal;
  p_minLength : JsVal
}.

Record ParsedSchema : Type := mkSchema {
  s_type : JsVal;
  properties : list (string * ParsedParameter);
  s_required : JsVal
}.

Record ParsedRequestBody : Type := mkRequestBody {
  contentType : string;
  schema : ParsedSchema
}.

Record ParsedEndpoint : Type := mkEndpoint {
  method : string;
  path : string;
  fullUrl : string;
  description : JsVal;
  parameters : list ParsedParameter;
  requestBody : option ParsedRequestBody
}.

(** ** Schema normaliser *)

(** The arrow function inside [parseParameters]. *)
Definition parseParameter (param : JsVal) : option ParsedParameter :=
  name <- get param "name" ;;
  sch <- get param "schema" ;;
  ty <- get param "type" ;;
  required <- get param "required" ;;
  descr <- get param "description" ;;
  format <- get param "format" ;;
  enum <- get param "enum" ;;
  maxLength <- get param "maxLength" ;;
  minLength <- get param "minLength" ;;
  Some {| p_name := name;
          p_type := or (or (opt_get sch "type") ty) (VStr "string");
          p_required := or required (VBool false);
          p_description := descr;
          p_format := or (opt_get sch "format") format;
          p_enum := or (opt_get sch "enum") enum;
          p_maxLength := or (opt_get sch "maxLength") maxLength;
          p_minLength := or (opt_get sch "minLength") minLength |}.

(** [parameters.map(...)]: only an array has [map]. *)
Definition parseParameters (parameters : JsVal) : option (list ParsedParameter) :=
  match parameters with
  | VArr l => mapM parseParameter l
  | _ => None
  end.

(** [schema.required?.includes(name)] *)
Definition requiredIncludes (required : JsVal) (name : string) : option JsVal :=
  match required with
  | VUndef | VNull => Some VUndef
  | VArr l => Some (VBool (existsb (strict_eq (VStr name)) l))
  | VStr s => Some (VBool (str_includes name s))
  | VBool _ | VNum _ | VObj _ => None
  end.

Definition parseProperty (required : JsVal) (entry : string * JsVal)
  : option (string * ParsedParameter) :=
  let (name, prop) := entry in
  ty <- get prop "type" ;;
  inc <- requiredIncludes required name ;;
  descr <- get prop "description" ;;
  format <- get prop "format" ;;
  enum <- get prop "enum" ;;
  maxLength <- get prop "maxLength" ;;
  minLength <- get prop "minLength" ;;
  Some (name, {| p_name := VStr name;
                 p_type := or ty (VStr "string");
                 p_required := or inc (VBool false);
                 p_description := descr;
                 p_format := format;
                 p_enum := enum;
                 p_maxLength := maxLength;
                 p_minLength := minLength |}).

Definition parseSchema (sch : JsVal) : option ParsedSchema :=
  props <- get sch "properties" ;;
  required <- get sch "required" ;;
  ty <- get sch "type" ;;
  properties <- (if truthy props
                 then es <- entries props ;;
                      parsed <- mapM (parseProperty required) es ;;
                      Some (fold_left (fun properties np =>
                                         assign properties (fst np) (snd np))
                                      parsed [])
                 else Some []) ;;
  Some {| s_type := or ty (VStr "object");
          properties := properties;
          s_required := or required (VArr []) |}.

(** [Object.keys(requestBody.content || {})[0] || 'application/json'] *)
Definition firstContentType (content : JsVal) : option string :=
  ks <- keys (or content (VObj [])) ;;
  Some match ks with
       | k :: _ => if k =? "" then "application/json" else k
       | [] => "application/json"
       end.

(** The outer [option] is an exception, the inner one [undefined]. *)
Definition parseRequestBody (rb : JsVal) : option (option ParsedRequestBody) :=
  content <- get rb "content" ;;
  ct <- firstContentType content ;;
  let sch := opt_get (opt_get content ct) "schema" in
  if truthy sch
  then s <- parseSchema sch ;; Some (Some {| contentType := ct; schema := s |})
  else Some None.

Definition supportedVerbs : list string := ["get"; "post"; "put"; "delete"].

Section Client.

(** [this.credentials.baseUrl] *)
Variable baseUrl : string.

(** The body of the inner [forEach] of [parseOpenApiSpec]: the endpoints
    pushed for one [method, methodObj] entry. *)
Definition parseOperation (basePath : JsVal) (path : string)
    (entry : string * JsVal) : option (list ParsedEndpoint) :=
  let (verb, methodObj) := entry in
  if includes supportedVerbs (toLowerCase verb) then
    ps <- get methodObj "parameters" ;;
    parameters <- parseParameters (or ps (VArr [])) ;;
    rb <- get methodObj "requestBody" ;;
    requestBody <- (if truthy rb then parseRequestBody rb else Some None) ;;
    base <- stringOf basePath ;;
    summary <- get methodObj "summary" ;;
    descr <- get methodObj "description" ;;
    Some [ {| method := toUpperCase verb;
              path := base ++ path;
              fullUrl := (baseUrl ++ base) ++ path;
              description :=
                or (or summary descr) (VStr (toUpperCase verb ++ " " ++ path));
              parameters := parameters;
              requestBody := requestBody |} ]
  else Some [].

Definition parsePath (basePath : JsVal) (entry : string * JsVal)
  : option (list ParsedEndpoint) :=
  let (path, pathObj) := entry in
  ops <- entries pathObj ;;
  eps <- mapM (parseOperation basePath path) ops ;;
  Some (List.concat eps).

Definition parseOpenApiSpec (spec : JsVal) : option (list ParsedEndpoint) :=
  bp <- get spec "basePath" ;;
  let basePath := or bp (VStr "") in
  paths <- get spec "paths" ;;
  if truthy paths then
    es <- entries paths ;;
    eps <- mapM (parsePath basePath) es ;;
    Some (List.concat eps)
  else Some [].

(** ** Endpoint discoverer *)

Definition swaggerUrls : list string :=
  [ baseUrl ++ "/swagger.json";
    baseUrl ++ "/api-docs";
    baseUrl ++ "/openapi.json";
    baseUrl ++ "/v2/api-docs";
    baseUrl ++ "/swagger/v1/swagger.json" ].

Definition commonPaths : list string :=
  [ "/api/v1"; "/odata/v4"; "/rest/v1"; "/services"; "/data" ].

Definition supportedMethods : list string := ["GET"; "POST"; "PUT"; "DELETE"].

(** [allowHeader.split(',').map(m => m.trim().toUpperCase())] *)
Definition allowedMethods (allowHeader : string) : list string :=
  map (fun m => toUpperCase (trim m)) (split "," allowHeader).

Definition manualEndpoint (path m : string) : ParsedEndpoint :=
  {| method := m;
     path := path;
     fullUrl := baseUrl ++ path;
     description := VStr (m ++ " endpoint at " ++ path);
     parameters := [];
     requestBody := None |}.

(** The endpoints pushed for one [OPTIONS] response. *)
Definition endpointsFromOptions (path : string) (r : Response) : list ParsedEndpoint :=
  if ok r then
    let allowHeader :=
      match headers_get "Allow" (headers r) with
      | Some h => h
      | None => ""
      end in
    map (manualEndpoint path)
        (filter (includes supportedMethods) (allowedMethods allowHeader))
  else [].

(** The network: a [fetch] consumes the state of the outside world and
    returns the outcome together with the next state. *)
Variable World : Type.
Variable fetch : World -> Request -> FetchOutcome * World.

(** What a discovery run leaves behind. *)
Record Run (A : Type) : Type := mkRun {
  result : A;
  sent : list Request;
  world : World
}.

Definition optionsRequest (path : string) : Request :=
  {| req_method := "OPTIONS"; req_url := baseUrl ++ path; req_body := None |}.

Definition getRequest (url : string) : Request :=
  {| req_method := "GET"; req_url := url; req_body := None |}.

(** The [for] loop of [discoverEndpointsManually] over the remaining paths. *)
Fixpoint probePaths (paths : list string) (w : World) : Run (list ParsedEndpoint) :=
  match paths with
  | [] => {| result := []; sent := []; world := w |}
  | p :: rest =>
      let (out, w1) := fetch w (optionsRequest p) in
      let here := match out with
                  | Responded r => endpointsFromOptions p r
                  | Rejected _ => []
                  end in
      let r := probePaths rest w1 in
      {| result := (here ++ result r)%list;
         sent := optionsRequest p :: sent r;
         world := world r |}
  end.

Definition discoverEndpointsManually (w : World) : Run (list ParsedEndpoint) :=
  probePaths commonPaths w.

(** What one documentation probe contributes: [Some eps] when the loop
    returns from inside the [try], [None] when it moves on (a rejected
    fetch, a status that is not ok, or an exception caught by the [catch]). *)
Definition documentOf (out : FetchOutcome) : option (list ParsedEndpoint) :=
  match out with
  | Responded r =>
      if ok r then
        match body r with
        | Json spec => parseOpenApiSpec spec
        | NotJson _ => None
        end
      else None
  | Rejected _ => None
  end.

(** The [for] loop of [discoverEndpoints] over the remaining URLs;
    [result = None] means the loop ran to its end. *)
Fixpoint probeDocs (urls : list string) (w : World) : Run (option (list ParsedEndpoint)) :=
  match urls with
  | [] => {| result := None; sent := []; world := w |}
  | url :: rest =>
      let (out, w1) := fetch w (getRequest url) in
      match documentOf out with
      | Some eps => {| result := Some eps; sent := [getRequest url]; world := w1 |}
      | None =>
          let r := probeDocs rest w1 in
          {| result := result r; sent := getRequest url :: sent r; world := world r |}
      end
  end.

Definition discoverEndpoints (w : World) : Run (list ParsedEndpoint) :=
  let docs := probeDocs swaggerUrls w in
  match result docs with
  | Some eps => {| result := eps; sent := sent docs; world := world docs |}
  | None =>
      let manual := discoverEndpointsManually (world docs) in
      {| result := result manual;
         sent := (sent docs ++ sent manual)%list;
         world := world manual |}
  end.

(** The replies the network gives when [reqs] are issued one after the
    other from state [w], and the state it is left in.  Used to say which
    probe got which answer. *)
Fixpoint replies (reqs : list Request) (w : World) : list FetchOutcome :=
  match reqs with
  | [] => []
  | q :: rest => let (out, w1) := fetch w q in out :: replies rest w1
  end.

Fixpoint worldAfter (reqs : list Request) (w : World) : World :=
  match reqs with
  | [] => w
  | q :: rest => worldAfter rest (snd (fetch w q))
  end.

End Client.

End ApiClient.

(* ===================================================================== *)
(** * src/types/index.ts                                                   *)
(* ===================================================================== *)

Module Types.

Inductive HttpMethod : Type := GET | POST | PUT | DELETE.

Definition methodName (m : HttpMethod) : string :=
  match m with GET => "GET" | POST => "POST" | PUT => "PUT" | DELETE => "DELETE" end.

Record ApiParameter : Type := mkApiParameter {
  name : string;
  type : string;
  required : bool;
  description : option string;
  format : option string;
  enum : option (list string);
  maxLength : option Z;
  minLength : option Z
}.

Record ApiSchema : Type := mkApiSchema {
  schema_type : string;
  properties : list (string * ApiParameter);
  schema_required : option (list string)
}.

Record ApiRequestBody : Type := mkApiRequestBody {
  contentType : string;
  schema : ApiSchema
}.

Record ApiEndpoint : Type := mkApiEndpoint {
  method : HttpMethod;
  path : string;
  fullUrl : string;
  endpoint_description : string;
  parameters : list ApiParameter;
  requestBody : option ApiRequestBody
}.

(** A spreadsheet row, [Record<string, any>]. *)
Definition Row : Type := list (string * JsVal).

Record SpreadsheetData : Type := mkSpreadsheetData {
  sheet_headers : list string;
  rows : list Row
}.

Record FieldMapping : Type := mkFieldMapping {
  spreadsheetColumn : string;
  apiField : string;
  transform : option string
}.

Inductive SubmissionStatus : Type := Success | Error | Pending.

Record SubmissionResult : Type := mkSubmissionResult {
  rowIndex : nat;
  status : SubmissionStatus;
  response : JsVal;
  error : option string;
  payload : JsVal
}.

Inductive VerificationStatus : Type := Verified | Mismatch | NotFound | VError.

Record VerificationResult : Type := mkVerificationResult {
  v_rowIndex : nat;
  submitted : JsVal;
  retrieved : JsVal;
  v_status : VerificationStatus;
  v_error : option string
}.

End Types.

Import Types.

(* ===================================================================== *)
(** * src/components/DataMapping.tsx                                       *)
(* ===================================================================== *)

Module DataMapping.

(** [{ name, ...field }]: the spread copies [field]'s own [name] over the
    property key. *)
Definition bodyField (entry : string * ApiParameter) : ApiParameter :=
  let (key, field) := entry in
  {| name := name field;
     type := type field;
     required := required field;
     description := description field;
     format := format field;
     enum := enum field;
     maxLength := maxLength field;
     minLength := minLength field |}.

Definition apiFields (selectedEndpoint : ApiEndpoint) : list ApiParameter :=
  (parameters selectedEndpoint ++
   match requestBody selectedEndpoint with
   | Some rb => map bodyField (properties (schema rb))
   | None => []
   end)%list.

(** [mappings.find(m => m.apiField === field.name)] *)
Definition findMapping (mappings : list FieldMapping) (fieldName : string)
  : option FieldMapping :=
  find (fun m => apiField m =? fieldName) mappings.

Definition quote : string := String "034"%char EmptyString.

Definition notMapped (fieldName : string) : string :=
  "Required field " ++ quote ++ fieldName ++ quote ++ " is not mapped".

(** [handleMappingChange]: the only way the mapping set is edited. *)
Definition handleMappingChange (apiFieldName column : string)
    (prev : list FieldMapping) : list FieldMapping :=
  match findMapping prev apiFieldName with
  | Some _ =>
      if column =? "" then filter (fun m => negb (apiField m =? apiFieldName)) prev
      else map (fun m => if apiField m =? apiFieldName
                         then {| spreadsheetColumn := column;
                                 apiField := apiField m;
                                 transform := transform m |}
                         else m) prev
  | None =>
      if negb (column =? "")
      then (prev ++ [ {| spreadsheetColumn := column;
                         apiField := apiFieldName;
                         transform := Some "" |} ])%list
      else prev
  end.

Section Component.

Variable selectedEndpoint : ApiEndpoint.
Variable mappings : list FieldMapping.

Definition validateMappings : list string :=
  let requiredFields := filter required (apiFields selectedEndpoint) in
  fold_left
    (fun errors field =>
       match findMapping mappings (name field) with
       | None => (errors ++ [notMapped (name field)])%list
       | Some _ => errors
       end)
    requiredFields [].

(** [handleComplete]: [Some ms] is a call [onMappingComplete(ms)]. *)
Definition handleComplete : option (list FieldMapping) :=
  let errors := validateMappings in
  if (List.length errors =? 0)%nat then Some mappings else None.

Definition isValid : bool :=
  ((List.length validateMappings =? 0)%nat && (0 <? List.length mappings)%nat)%bool.

(** A click on "Continue to Data Submission": the button carries
    [disabled={!isValid || disabled}] and [onClick={handleComplete}]. *)
Definition clickContinue (disabled : bool) : option (list FieldMapping) :=
  if (negb isValid || disabled)%bool then None else handleComplete.

End Component.

End DataMapping.

(* ===================================================================== *)
(** * src/components/SubmissionResults.tsx                                 *)
(* ===================================================================== *)

Module Submission.

(** [obj[k] = v] on an object's own properties. *)
Definition setProp (props : list (string * JsVal)) (k : string) (v : JsVal)
  : list (string * JsVal) :=
  assign props k v.

(** The component's [useState] cells. *)
Record UiState : Type := mkUi {
  results : list SubmissionResult;
  isRunning : bool;
  isPaused : bool;
  currentRow : nat
}.

Definition setResults (f : list SubmissionResult -> list SubmissionResult)
    (u : UiState) : UiState :=
  {| results := f (results u); isRunning := isRunning u;
     isPaused := isPaused u; currentRow := currentRow u |}.

Definition setIsRunning (b : bool) (u : UiState) : UiState :=
  {| results := results u; isRunning := b;
     isPaused := isPaused u; currentRow := currentRow u |}.

Definition setIsPaused (b : bool) (u : UiState) : UiState :=
  {| results := results u; isRunning := isRunning u;
     isPaused := b; currentRow := currentRow u |}.

Definition setCurrentRow (n : nat) (u : UiState) : UiState :=
  {| results := results u; isRunning := isRunning u;
     isPaused := isPaused u; currentRow := n |}.

(** Where a call of [startSubmission] is suspended. *)
Inductive Phase : Type :=
| Awaiting   (** inside [submitRow], waiting for the response *)
| Delaying   (** inside the 500 ms [setTimeout] *)
| Returned.  (** the [async] function has ended *)

(** A call of [startSubmission] in progress.  The function is re-created
    on every render, so the identifiers [isPaused], [currentRow] and
    [results] in its body are the constants of the render whose button was
    clicked: [closure] holds them.  [i] is the loop variable. *)
Record Call : Type := mkCall {
  closure : UiState;
  i : nat;
  phase : Phase
}.

(** What the component does to the outside.  How the parent reacts to
    [onSubmissionComplete] is the parent's business and not part of the
    component. *)
Inductive Effect : Type :=
| Submitted (row : nat) (req : Request)          (** [apiClient.submitData] *)
| Completed (reported : list SubmissionResult).  (** [onSubmissionComplete] *)

Record Machine : Type := mkMachine {
  ui : UiState;
  calls : list Call;
  trace : list Effect
}.

(** User clicks and the two ways a suspended call resumes. *)
Inductive Event : Type :=
| ClickStart                              (** "Start Submission" / "Resume" *)
| ClickPause
| ClickReset
| Settle (k : nat) (out : FetchOutcome)   (** call [k]'s request settles *)
| Elapse (k : nat).                       (** call [k]'s delay is over *)

Fixpoint replaceNth {A} (k : nat) (a : A) (l : list A) : list A :=
  match l, k with
  | [], _ => []
  | _ :: t, O => a :: t
  | x :: t, S k' => x :: replaceNth k' a t
  end.

Definition rowsSubmitted (tr : list Effect) : list nat :=
  flat_map (fun e => match e with Submitted r _ => [r] | Completed _ => [] end) tr.

Definition completions (tr : list Effect) : list (list SubmissionResult) :=
  flat_map (fun e => match e with Submitted _ _ => [] | Completed rs => [rs] end) tr.

Section Component.

Variable spreadsheetData : SpreadsheetData.
Variable selectedEndpoint : ApiEndpoint.
Variable mappings : list FieldMapping.

Definition rowCount : nat := List.length (rows spreadsheetData).

(** [spreadsheetData.rows.map((_, index) => ({ rowIndex: index, status: 'pending' }))] *)
Definition initialResults : list SubmissionResult :=
  map (fun index => {| rowIndex := index; status := Pending;
                       response := VUndef; error := None; payload := VUndef |})
      (seq 0 rowCount).

(** [None] is the [TypeError] of reading a column of a missing row. *)
Definition generatePayload (index : nat) : option JsVal :=
  match nth_error (rows spreadsheetData) index, mappings with
  | Some row, _ =>
      Some (VObj (fold_left
                    (fun payload m =>
                       setProp payload (apiField m) (own row (spreadsheetColumn m)))
                    mappings []))
  | None, [] => Some (VObj [])
  | None, _ :: _ => None
  end.

(** [apiClient.submitData(selectedEndpoint, payload)] *)
Definition submitRequest (data : JsVal) : Request :=
  {| req_method := methodName (method selectedEndpoint);
     req_url := fullUrl selectedEndpoint;
     req_body := match method selectedEndpoint with
                 | POST | PUT => Some data
                 | GET | DELETE => None
                 end |}.

(** [prev.map(r => r.rowIndex === rowIndex ? f r : r)] *)
Definition updateRow (index : nat) (f : SubmissionResult -> SubmissionResult)
    (prev : list SubmissionResult) : list SubmissionResult :=
  map (fun r => if (rowIndex r =? index)%nat then f r else r) prev.

(** First update of [submitRow]: [{ ...r, status: 'pending', payload }] *)
Definition markAttempt (p : JsVal) (r : SubmissionResult) : SubmissionResult :=
  {| rowIndex := rowIndex r; status := Pending; response := response r;
     error := error r; payload := p |}.

(** Second update of [submitRow], from the [try] or from the [catch]. *)
Definition recordOutcome (out : FetchOutcome) (r : SubmissionResult) : SubmissionResult :=
  match out with
  | Responded resp =>
      if ok resp then
        match body resp with
        | Json data =>
            {| rowIndex := rowIndex r; status := Success; response := data;
               error := None; payload := payload r |}
        | NotJson message =>
            {| rowIndex := rowIndex r; status := Error; response := response r;
               error := Some message; payload := payload r |}
        end
      else
        {| rowIndex := rowIndex r; status := Error; response := VNull;
           error := Some (httpError resp); payload := payload r |}
  | Rejected message =>
      {| rowIndex := rowIndex r; status := Error; response := response r;
         error := Some message; payload := payload r |}
  end.

(** The code after the [for] loop, reached by falling out of the loop or
    by [break]. *)
Definition afterLoop (c : Call) (u : UiState) (tr : list Effect)
  : UiState * list Effect * Call :=
  (setIsRunning false u,
   if (Z.of_nat rowCount - 1 <=? Z.of_nat (currentRow (closure c)))%Z
   then (tr ++ [Completed (results (closure c))])%list
   else tr,
   {| closure := closure c; i := i c; phase := Returned |}).

(** The loop from its test [i < rows.length] down to the first [await]. *)
Definition loopHead (c : Call) (u : UiState) (tr : list Effect)
  : UiState * list Effect * Call :=
  if (i c <? rowCount)%nat then
    if isPaused (closure c) then afterLoop c u tr
    else
      match generatePayload (i c) with
      | Some p =>
          (setResults (updateRow (i c) (markAttempt p)) (setCurrentRow (i c) u),
           (tr ++ [Submitted (i c) (submitRequest p)])%list,
           {| closure := closure c; i := i c; phase := Awaiting |})
      | None =>
          (setCurrentRow (i c) u, tr,
           {| closure := closure c; i := i c; phase := Returned |})
      end
  else afterLoop c u tr.

(** Which of the two buttons wired to [startSubmission] is rendered. *)
Definition startRendered (u : UiState) : bool :=
  (negb (isRunning u) &&
   ((currentRow u =? 0)%nat ||
    ((0 <? currentRow u)%nat && (currentRow u <? rowCount)%nat)))%bool.

Definition step (m : Machine) (e : Event) : option Machine :=
  match e with
  | ClickStart =>
      if startRendered (ui m) then
        let c := {| closure := ui m; i := currentRow (ui m); phase := Awaiting |} in
        let u := setIsPaused false (setIsRunning true (ui m)) in
        let '(u', tr, c') := loopHead c u (trace m) in
        Some {| ui := u'; calls := (calls m ++ [c'])%list; trace := tr |}
      else None
  | ClickPause =>
      if isRunning (ui m) then
        Some {| ui := setIsRunning false (setIsPaused true (ui m));
                calls := calls m; trace := trace m |}
      else None
  | ClickReset =>
      if isRunning (ui m) then None
      else
        Some {| ui := {| results := initialResults; isRunning := false;
                         isPaused := false; currentRow := 0 |};
                calls := calls m; trace := trace m |}
  | Settle k out =>
      match nth_error (calls m) k with
      | Some c =>
          match phase c with
          | Awaiting =>
              Some {| ui := setResults (updateRow (i c) (recordOutcome out)) (ui m);
                      calls := replaceNth k {| closure := closure c; i := i c;
                                               phase := Delaying |} (calls m);
                      trace := trace m |}
          | _ => None
          end
      | None => None
      end
  | Elapse k =>
      match nth_error (calls m) k with
      | Some c =>
          match phase c with
          | Delaying =>
              let '(u', tr, c') :=
                loopHead {| closure := closure c; i := S (i c); phase := Awaiting |}
                         (ui m) (trace m) in
              Some {| ui := u'; calls := replaceNth k c' (calls m); trace := tr |}
          | _ => None
          end
      | None => None
      end
  end.

Fixpoint run (m : Machine) (es : list Event) : option Machine :=
  match es with
  | [] => Some m
  | e :: rest =>
      match step m e with
      | Some m' => run m' rest
      | None => None
      end
  end.

(** The component once its initialising effect has run. *)
Definition mounted : Machine :=
  {| ui := {| results := initialResults; isRunning := false;
              isPaused := false; currentRow := 0 |};
     calls := [];
     trace := [] |}.

(** One click on "Start Submission" and then nothing but the responses
    and the timers of that call. *)
Definition uninterrupted (outs : list FetchOutcome) : list Event :=
  ClickStart :: flat_map (fun out => [Settle 0 out; Elapse 0]) outs.

(** A single call, started from the render [cl], that has submitted the
    rows [0..k] and is waiting for the response to row [k]. *)
Definition midRun (cl : UiState) (k : nat) (m : Machine) : Prop :=
  calls m = [ {| closure := cl; i := k; phase := Awaiting |} ] /\
  k < rowCount /\
  isRunning (ui m) = true /\
  isPaused (ui m) = false /\
  currentRow (ui m) = k /\
  rowsSubmitted (trace m) = seq 0 (S k) /\
  completions (trace m) = [] /\
  map rowIndex (results (ui m)) = seq 0 rowCount /\
  Forall (fun r => rowIndex r < k -> status r <> Pending) (results (ui m)).

(** What the call started from [cl] reports when it returns: the results
    of its own render, if the cursor of that render passes the test. *)
Definition reportOf (cl : UiState) : list (list SubmissionResult) :=
  if (Z.of_nat rowCount - 1 <=? Z.of_nat (currentRow cl))%Z
  then [results cl] else [].

(** The same call once it has returned after the last row. *)
Definition endOfRun (cl : UiState) (m : Machine) : Prop :=
  (exists k, calls m = [ {| closure := cl; i := k; phase := Returned |} ]) /\
  isRunning (ui m) = false /\
  currentRow (ui m) = rowCount - 1 /\
  rowsSubmitted (trace m) = seq 0 rowCount /\
  completions (trace m) = reportOf cl /\
  map rowIndex (results (ui m)) = seq 0 rowCount /\
  Forall (fun r => status r <> Pending) (results (ui m)).

End Component.

End Submission.

(* ===================================================================== *)
(** * src/components/DataVerification.tsx                                  *)
(* ===================================================================== *)

Module Verification.

(** [retrieved[key] !== value] for a value of the payload.  A key the
    retrieved object does not own reads the member of that name inherited
    from [Object.prototype], when there is one: a function or an object,
    which no value of a payload equals.  On a retrieved value that is not
    an object only its own properties are read. *)
Definition differsAt (retrievedData : JsVal) (key : string) (value : JsVal)
  : option bool :=
  match retrievedData with
  | VObj ps =>
      Some (if ownRead ps key then negb (strict_eq (own ps key) value) else true)
  | _ => r <- get retrievedData key ;; Some (negb (strict_eq r value))
  end.

(** The [for ... of Object.entries(submitted)] loop of [compareData];
    [None] is the [TypeError] of indexing [null] or [undefined]. *)
Fixpoint compareEntries (es : list (string * JsVal)) (retrievedData : JsVal)
  : option bool :=
  match es with
  | [] => Some true
  | (key, value) :: rest =>
      differs <- differsAt retrievedData key value ;;
      if differs then Some false
      else compareEntries rest retrievedData
  end.

Definition compareData (submittedData retrievedData : JsVal) : option bool :=
  es <- entries submittedData ;;
  compareEntries es retrievedData.

(** [submissionResults.filter(r => r.status === 'success')] *)
Definition successfulSubmissions (submissionResults : list SubmissionResult)
  : list SubmissionResult :=
  filter (fun r => match status r with Success => true | _ => false end)
         submissionResults.

(** The entry [initializeVerification] creates for one submission. *)
Definition notStarted (r : SubmissionResult) : VerificationResult :=
  {| v_rowIndex := rowIndex r; submitted := payload r;
     retrieved := VUndef; v_status := VError;
     v_error := Some "Verification not started" |}.

Definition initializeVerification (successful : list SubmissionResult)
  : list VerificationResult :=
  map notStarted successful.

(** [result.response?.id || result.response?.ID || result.payload?.id] *)
Definition identifierOf (r : SubmissionResult) : JsVal :=
  or (or (opt_get (response r) "id") (opt_get (response r) "ID"))
     (opt_get (payload r) "id").

(** [prev.map(r => r.rowIndex === rowIndex ? f r : r)] *)
Definition updateEntries (index : nat) (f : VerificationResult -> VerificationResult)
    (prev : list VerificationResult) : list VerificationResult :=
  map (fun r => if (v_rowIndex r =? index)%nat then f r else r) prev.

Definition setError (message : string) (r : VerificationResult) : VerificationResult :=
  {| v_rowIndex := v_rowIndex r; submitted := submitted r;
     retrieved := retrieved r; v_status := VError; v_error := Some message |}.

Definition setNotFound (r : VerificationResult) : VerificationResult :=
  {| v_rowIndex := v_rowIndex r; submitted := submitted r;
     retrieved := retrieved r; v_status := NotFound;
     v_error := Some "Record not found" |}.

Definition setCompared (isMatch : bool) (retrievedData : JsVal)
    (r : VerificationResult) : VerificationResult :=
  {| v_rowIndex := v_rowIndex r; submitted := submitted r;
     retrieved := retrievedData;
     v_status := if isMatch then Verified else Mismatch;
     v_error := None |}.

Section Component.

(** The message an engine puts in the [TypeError] it throws; its wording
    is not fixed by the language. *)
Variable typeErrorMessage : string.

Variable World : Type.
Variable fetch : World -> Request -> FetchOutcome * World.

(** The verification state while [startVerification] runs. *)
Record State : Type := mkState {
  verificationResults : list VerificationResult;
  sent : list Request;
  world : World
}.

(** [apiClient.verifyData(getEndpointUrl, identifier)] *)
Definition verifyRequest (getEndpointUrl : string) (identifier : JsVal) : Request :=
  {| req_method := "GET";
     req_url := getEndpointUrl ++ "/" ++ to_string identifier;
     req_body := None |}.

(** The update chosen once the verification request has settled. *)
Definition outcomeUpdate (result : SubmissionResult) (out : FetchOutcome)
  : VerificationResult -> VerificationResult :=
  match out with
  | Responded verifyResponse =>
      if ok verifyResponse then
        match body verifyResponse with
        | Json retrievedData =>
            match compareData (payload result) retrievedData with
            | Some isMatch => setCompared isMatch retrievedData
            | None => setError typeErrorMessage
            end
        | NotJson message => setError message
        end
      else if (Http.status verifyResponse =? 404)%Z then setNotFound
      else setError (httpError verifyResponse)
  | Rejected message => setError message
  end.

(** One iteration of the [for ... of successfulSubmissions] loop. *)
Definition verifyRow (getEndpointUrl : string) (st : State)
    (result : SubmissionResult) : State :=
  let identifier := identifierOf result in
  if negb (truthy identifier) then
    {| verificationResults :=
         updateEntries (rowIndex result)
                       (setError "No identifier found in response")
                       (verificationResults st);
       sent := sent st;
       world := world st |}
  else
    let req := verifyRequest getEndpointUrl identifier in
    let (out, w) := fetch (world st) req in
    {| verificationResults :=
         updateEntries (rowIndex result) (outcomeUpdate result out)
                       (verificationResults st);
       sent := (sent st ++ [req])%list;
       world := w |}.

(** [startVerification]; [getEndpointUrl] is the optional prop. *)
Definition startVerification (getEndpointUrl : option string)
    (successful : list SubmissionResult) (st : State) : State :=
  match getEndpointUrl with
  | Some url =>
      if url =? "" then
        {| verificationResults :=
             map (setError "No GET endpoint provided for verification")
                 (verificationResults st);
           sent := sent st; world := world st |}
      else fold_left (verifyRow url) successful st
  | None =>
      {| verificationResults :=
           map (setError "No GET endpoint provided for verification")
               (verificationResults st);
         sent := sent st; world := world st |}
  end.

(** The component after its initialising effect, before any request. *)
Definition initialised (submissionResults : list SubmissionResult) (w : World) : State :=
  {| verificationResults :=
       initializeVerification (successfulSubmissions submissionResults);
     sent := [];
     world := w |}.

(** The whole run for a list of submission results. *)
Definition verifyAll (getEndpointUrl : option string)
    (submissionResults : list SubmissionResult) (w : World) : State :=
  startVerification getEndpointUrl (successfulSubmissions submissionResults)
                    (initialised submissionResults w).

(** The entries of a result list for one row. *)
Definition entriesFor (index : nat) (vrs : list VerificationResult)
  : list VerificationResult :=
  filter (fun r => (v_rowIndex r =? index)%nat) vrs.

(** The update [verifyRow] applies to the entries of its row. *)
Definition rowUpdate (getEndpointUrl : string) (st : State)
    (result : SubmissionResult) : VerificationResult -> VerificationResult :=
  if negb (truthy (identifierOf result))
  then setError "No identifier found in response"
  else outcomeUpdate result
         (fst (fetch (world st)
                     (verifyRequest getEndpointUrl (identifierOf result)))).

End Component.

End Verification.

(* ===================================================================== *)
(** * The specification's own wording, for comparison with the code       *)
(* ===================================================================== *)

Module Spec.

Import ApiClient.

(** The constraints a parameter may carry either flat or under [schema]. *)
Inductive Constraint : Type := CType | CFormat | CEnum | CMaxLength | CMinLength.

Definition key (c : Constraint) : string :=
  match c with
  | CType => "type"
  | CFormat => "format"
  | CEnum => "enum"
  | CMaxLength => "maxLength"
  | CMinLength => "minLength"
  end.

Definition normalized (c : Constraint) (p : ParsedParameter) : JsVal :=
  match c with
  | CType => p_type p
  | CFormat => p_format p
  | CEnum => p_enum p
  | CMaxLength => p_maxLength p
  | CMinLength => p_minLength p
  end.

(** [param.schema?.<key>] and [param.<key>] *)
Definition nested (c : Constraint) (param : JsVal) : JsVal :=
  opt_get (opt_get param "schema") (key c).

Definition flat (c : Constraint) (param : JsVal) : JsVal :=
  opt_get param (key c).

(** The rule in the specification's words: [schema.type ?? type ?? 'string'],
    and likewise [schema.x ?? x] for the other constraints. *)
Definition preferNested (c : Constraint) (param : JsVal) : JsVal :=
  match c with
  | CType => coalesce (coalesce (nested c param) (flat c param)) (VStr "string")
  | _ => coalesce (nested c param) (flat c param)
  end.

(** A value is definite when it is either missing ([undefined], [null])
    or truthy; the indefinite ones are [0], [""] and [false]. *)
Definition definite (v : JsVal) : bool := (nullish v || truthy v)%bool.

(** A token of the [Allow] header matches a method when, surrounding white
    space aside, the two are equal up to letter case. *)
Definition sameIgnoringCase (a b : string) : bool :=
  toLowerCase a =? toLowerCase b.

Definition tokenMethod (token : string) : option string :=
  find (sameIgnoringCase (trim token)) supportedMethods.

Definition methodsOfAllow (allowHeader : string) : list string :=
  flat_map (fun token => match tokenMethod token with
                         | Some m => [m]
                         | None => []
                         end)
           (split "," allowHeader).

(** The [Allow] header of a reply that counts for heuristic discovery. *)
Definition allowOf (out : FetchOutcome) : option string :=
  match out with
  | Responded r =>
      if ok r then
        Some match headers_get "Allow" (headers r) with
             | Some h => h
             | None => ""
             end
      else None
  | Rejected _ => None
  end.

(** Every key of [submittedProps] reads, in [retrievedProps], a value
    strictly equal to the submitted one. *)
Definition sameAt (retrievedProps : list (string * JsVal)) (k : string) (v : JsVal)
  : bool :=
  if has_key retrievedProps k then strict_eq (own retrievedProps k) v
  else negb (inherited k) && strict_eq VUndef v.

Definition containedIn (submittedProps retrievedProps : list (string * JsVal)) : bool :=
  forallb (fun kv => sameAt retrievedProps (fst kv) (snd kv)) submittedProps.


(** A reply to a documentation probe that does not end the search: the
    request failed, or the status is outside 2xx, or the body is not JSON,
    or the normaliser throws on the document. *)
Definition passedOver (baseUrl : string) (out : FetchOutcome) : Prop :=
  match out with
  | Rejected _ => True
  | Responded r =>
      ok r = false \/
      (exists message, body r = NotJson message) \/
      (exists spec, body r = Json spec /\ parseOpenApiSpec baseUrl spec = None)
  end.

(** The names of the fields an endpoint requires: its required parameters,
    then the required properties of its body schema. *)
Definition requiredNames (e : ApiEndpoint) : list string :=
  (map name (filter required (Types.parameters e)) ++
   match Types.requestBody e with
   | Some rb =>
       map name (filter required (map snd (Types.properties (Types.schema rb))))
   | None => []
   end)%list.

Definition isMapped (mappings : list FieldMapping) (fieldName : string) : bool :=
  existsb (fun m => apiField m =? fieldName) mappings.

Definition unmappedRequired (e : ApiEndpoint) (mappings : list FieldMapping)
  : list string :=
  filter (fun n => negb (isMapped mappings n)) (requiredNames e).

End Spec.

(* ===================================================================== *)
(** * Concrete data used by the examples                                   *)
(* ===================================================================== *)

Module Examples.

Definition created (id : Z) : FetchOutcome :=
  Responded {| Http.status := 201; statusText := "Created"; headers := [];
               body := Json (VObj [("id", VNum id)]) |}.

Definition serverError : FetchOutcome :=
  Responded {| Http.status := 500; statusText := "Internal Server Error";
               headers := []; body := NotJson "Unexpected token" |}.

Definition users : ApiEndpoint :=
  {| method := POST; path := "/users"; fullUrl := "https://api.example/users";
     endpoint_description := "POST /users";
     parameters := []; requestBody := None |}.

Definition emailOnly : list FieldMapping :=
  [ {| spreadsheetColumn := "email"; apiField := "email"; transform := Some "" |} ].

(** A query parameter whose schema sets [minLength: 0]. *)
Definition zeroMinLength : JsVal :=
  VObj [ ("name", VStr "q"); ("in", VStr "query");
         ("schema", VObj [("type", VStr "string"); ("minLength", VNum 0)]) ].

(** The specification's example: flat [number], nested [string]. *)
Definition numberAndString : JsVal :=
  VObj [ ("name", VStr "n"); ("type", VStr "number");
         ("schema", VObj [("type", VStr "string")]) ].

Definition person (n e : string) : Row := [("name", VStr n); ("email", VStr e)].

Definition threeRows : SpreadsheetData :=
  {| sheet_headers := ["name"; "email"];
     rows := [ person "Ada" "ada@example.org";
               person "Bob" "bob@example.org";
               person "Cyd" "cyd@example.org" ] |}.

Definition oneRow : SpreadsheetData :=
  {| sheet_headers := ["name"; "email"];
     rows := [ person "Ada" "ada@example.org" ] |}.

(** A small OpenAPI document. *)
Definition petstore : JsVal :=
  VObj [ ("basePath", VStr "/v1");
         ("paths",
          VObj [ ("/pets",
                  VObj [ ("get", VObj [("summary", VStr "List pets")]);
                         ("patch", VObj [("summary", VStr "Patch pets")]) ]) ]) ].

(** A server on which only the third documentation URL answers. *)
Definition onlyThird (w : unit) (q : Request) : FetchOutcome * unit :=
  (if req_url q =? "https://api.example/openapi.json"
   then Responded {| Http.status := 200; statusText := "OK"; headers := [];
                     body := Json petstore |}
   else if req_url q =? "https://api.example/swagger.json"
   then Rejected "Failed to fetch"
   else Responded {| Http.status := 404; statusText := "Not Found";
                     headers := []; body := NotJson "Unexpected token <" |},
   w).

(** A server that answers every unknown path with its HTML front page
    and status 200, and serves the document at the second URL. *)
Definition frontPage (w : unit) (q : Request) : FetchOutcome * unit :=
  (if req_url q =? "https://api.example/api-docs"
   then Responded {| Http.status := 200; statusText := "OK"; headers := [];
                     body := Json petstore |}
   else Responded {| Http.status := 200; statusText := "OK"; headers := [];
                     body := NotJson "Unexpected token <" |},
   w).

(** A server without documentation that answers [OPTIONS] on one root. *)
Definition noDocs (w : unit) (q : Request) : FetchOutcome * unit :=
  (if (req_method q =? "OPTIONS") && (req_url q =? "https://api.example/api/v1")
   then Responded {| Http.status := 204; statusText := "No Content";
                     headers := [("allow", "GET, post ,PATCH")];
                     body := NotJson "Unexpected end of JSON input" |}
   else Responded {| Http.status := 404; statusText := "Not Found";
                     headers := []; body := NotJson "Unexpected token <" |},
   w).

(** A successful submission of row [index] with the given payload and
    response. *)
Definition submittedRow (index : nat) (data resp : JsVal) : SubmissionResult :=
  {| rowIndex := index; status := Success; response := resp;
     error := None; payload := data |}.

Definition ab12 : JsVal := VObj [("a", VNum 1); ("b", VNum 2)].

(** Four submissions: stored with an extra field, stored with another
    value, not stored, and one the server fails on. *)
Definition submissions : list SubmissionResult :=
  [ submittedRow 0 ab12 (VObj [("id", VNum 7)]);
    submittedRow 1 ab12 (VObj [("id", VNum 8)]);
    submittedRow 2 ab12 (VObj [("ID", VStr "k9")]);
    submittedRow 3 ab12 (VObj [("id", VNum 10)]) ].

Definition records (w : unit) (q : Request) : FetchOutcome * unit :=
  (if (req_url q =? "https://api.example/users/7")
      || (req_url q =? "https://api.example/users/X7")
   then Responded {| Http.status := 200; statusText := "OK"; headers := [];
                     body := Json (VObj [("a", VNum 1); ("b", VNum 2);
                                         ("c", VNum 99)]) |}
   else if req_url q =? "https://api.example/users/8"
   then Responded {| Http.status := 200; statusText := "OK"; headers := [];
                     body := Json (VObj [("a", VNum 1); ("b", VNum 3)]) |}
   else if req_url q =? "https://api.example/users/k9"
   then Responded {| Http.status := 404; statusText := "Not Found";
                     headers := []; body := NotJson "Unexpected token <" |}
   else Responded {| Http.status := 500; statusText := "Internal Server Error";
                     headers := []; body := NotJson "Unexpected token <" |},
   w).

Definition exampleUrl : string := "https://api.example/users".

(** A response whose [id] is 0, and one that also carries a usable [ID]. *)
Definition zeroId : SubmissionResult :=
  submittedRow 0 ab12 (VObj [("id", VNum 0); ("created", VBool true)]).

Definition zeroIdWithKey : SubmissionResult :=
  submittedRow 0 ab12 (VObj [("id", VNum 0); ("ID", VStr "X7")]).

End Examples.

(* ===================================================================== *)
(** * src/utils/xlsxParser.ts and src/utils/spreadsheetParser.ts           *)
(* ===================================================================== *)

Module Sheets.

Import Submission.

(** What the spreadsheet library hands back: the sheet as an array of
    rows, each an array of cells, or an exception. *)
Inductive Library : Type :=
| Cells (jsonData : list (list JsVal))
| Throws (message : string).

(** What reading the file gives: the reader's [onerror], or the library's
    answer on what was read. *)
Inductive FileRead : Type :=
| ReadError
| Read (lib : Library).

(** How the promise of a parser settles. *)
Inductive Parsed : Type :=
| Resolved (data : SpreadsheetData)
| RejectedWith (message : string).

(** [headers.forEach((header, colIndex) => { rowData[header] = row[colIndex] || '' })] *)
Fixpoint fillRow (headers : list string) (colIndex : nat) (row : list JsVal)
    (rowData : Row) : Row :=
  match headers with
  | [] => rowData
  | header :: rest =>
      fillRow rest (S colIndex) row
              (setProp rowData header (or (nth colIndex row VUndef) (VStr "")))
  end.

(** The arrow function that turns one array of cells into a row object. *)
Definition buildRow (headers : list string) (row : list JsVal) (index : nat) : Row :=
  setProp (fillRow headers 0 row []) "_rowIndex" (VNum (Z.of_nat index)).

(** [rowsData.map((row, index) => ...)] *)
Fixpoint buildRowsFrom (headers : list string) (index : nat)
    (rowsData : list (list JsVal)) : list Row :=
  match rowsData with
  | [] => []
  | row :: rest => buildRow headers row index :: buildRowsFrom headers (S index) rest
  end.

Definition buildRows (headers : list string) (rowsData : list (list JsVal)) : list Row :=
  buildRowsFrom headers 0 rowsData.

(** [jsonData[0].map(h => String(h).trim())] *)
Definition headersOf (first : list JsVal) : list string :=
  map (fun h => trim (to_string h)) first.

(** The header cells of a sheet are values [String(h)] prints digit for
    digit. *)
Definition printableHeaders (read : FileRead) : Prop :=
  match read with
  | Read (Cells (first :: _)) => Forall (fun h => printable h = true) first
  | _ => True
  end.

(** [parseXLSXFile] of xlsxParser.ts. *)
Definition parseXLSXFile (read : FileRead) : Parsed :=
  match read with
  | ReadError => RejectedWith "Failed to read file"
  | Read (Throws message) => RejectedWith ("Failed to parse XLSX file: " ++ message)
  | Read (Cells []) =>
      RejectedWith ("Failed to parse XLSX file: " ++ "Spreadsheet is empty")
  | Read (Cells (first :: rest)) =>
      Resolved {| sheet_headers := headersOf first;
                  rows := buildRows (headersOf first) rest |}
  end.

(** [file.name.split('.').pop()?.toLowerCase()] *)
Definition extensionOf (name : string) : string :=
  toLowerCase (last (split "." name) "").

Section Engine.

(** The message of the [TypeError] for [undefined.map]. *)
Variable typeErrorMessage : string.

(** [parseSpreadsheetFile] of spreadsheetParser.ts: both branches read
    [data[0].map(...)] and then call [handleData]. *)
Definition parseSpreadsheetFile (name : string) (read : FileRead) : Parsed :=
  match read with
  | ReadError => RejectedWith "Failed to read file"
  | Read lib =>
      if (extensionOf name =? "xlsx") || (extensionOf name =? "csv") then
        match lib with
        | Throws message => RejectedWith ("Failed to parse file: " ++ message)
        | Cells [] => RejectedWith ("Failed to parse file: " ++ typeErrorMessage)
        | Cells [first] =>
            RejectedWith ("Failed to parse file: " ++ "Spreadsheet is empty")
        | Cells (first :: rest) =>
            Resolved {| sheet_headers := headersOf first;
                        rows := buildRows (headersOf first) rest |}
        end
      else RejectedWith "Unsupported file format"
  end.

End Engine.

(** [arr.indexOf(x)], [None] for -1. *)
Fixpoint indexOf (x : string) (l : list string) : option nat :=
  match l with
  | [] => None
  | y :: rest =>
      if y =? x then Some 0
      else match indexOf x rest with
           | Some i => Some (S i)
           | None => None
           end
  end.

(** [data.headers.filter((header, index) => data.headers.indexOf(header) !== index)] *)
Definition duplicateHeaders (headers : list string) : list string :=
  map snd
      (filter (fun ih => match indexOf (snd ih) headers with
                         | Some i => negb (i =? fst ih)%nat
                         | None => true
                         end)
              (combine (seq 0 (List.length headers)) headers)).

Definition validateSpreadsheetData (data : SpreadsheetData) : list string :=
  List.app
    (if (List.length (sheet_headers data) =? 0)%nat
     then ["No headers found in spreadsheet"] else [])
    (List.app
       (if (List.length (rows data) =? 0)%nat
        then ["No data rows found in spreadsheet"] else [])
       (if (0 <? List.length (duplicateHeaders (sheet_headers data)))%nat
        then ["Duplicate headers found: " ++ join ", " (duplicateHeaders (sheet_headers data))]
        else [])).

End Sheets.

(* ===================================================================== *)
(** * src/components/FileUpload.tsx, the version for .xlsx files only      *)
(* ===================================================================== *)

Module FileUpload.

Import Sheets.

(** [s.endsWith(suffix)] *)
Definition endsWith (suffix s : string) : bool :=
  let n := String.length s in
  let k := String.length suffix in
  (k <=? n)%nat && (substring (n - k) k s =? suffix).

(** What [handleFile] ends with: the message given to [setError], or the
    data given to [onFileUploaded]. *)
Inductive Upload : Type :=
| ShowError (message : string)
| Uploaded (data : SpreadsheetData).

Definition handleFile (name : string) (read : FileRead) : Upload :=
  if negb (endsWith ".xlsx" (toLowerCase name)) then
    ShowError "Please upload an .xlsx file"
  else
    match parseXLSXFile read with
    | Resolved data =>
        let validationErrors := validateSpreadsheetData data in
        if (0 <? List.length validationErrors)%nat
        then ShowError (join ", " validationErrors)
        else Uploaded data
    | RejectedWith message => ShowError message
    end.

End FileUpload.

(* ===================================================================== *)
(** * src/components/ApiCredentials.tsx, the version that reads the answer
      of the connection test, and [ApiClient.testConnection]               *)
(* ===================================================================== *)

Module Credentials.

Record ApiCredentials : Type := mkCredentials {
  baseUrl : string;
  username : string;
  password : string
}.

(** How [validateCredentials] ends: [onCredentialsValidated] is called, or
    a message is given to [setError]. *)
Inductive Validation : Type :=
| Connected (credentials : ApiCredentials)
| Refused (message : string).

Section Platform.

(** Whether [new URL(s)] returns. *)
Variable validUrl : string -> bool.

(** [btoa]: the encoding, or the message of the exception it throws. *)
Variable btoa : string -> string + string.

Variable World : Type.
Variable fetch : World -> Request -> FetchOutcome * World.

Record Attempt (A : Type) : Type := mkAttempt {
  outcome : A;
  requests : list Request;
  after : World
}.

(** [testConnection]: [inr b] resolves with [b], [inl message] throws. *)
Definition testConnection (credentials : ApiCredentials) (w : World)
  : Attempt (string + bool) :=
  let req := {| req_method := "GET"; req_url := baseUrl credentials;
                req_body := None |} in
  let (out, w') := fetch w req in
  {| outcome :=
       match out with
       | Responded response =>
           if ok response then inr true
           else inl ("Connection failed: " ++ string_of_Z (Http.status response)
                     ++ " " ++ statusText response)
       | Rejected message => inl message
       end;
     requests := [req];
     after := w' |}.

Definition validateCredentials (credentials : ApiCredentials) (w : World)
  : Attempt Validation :=
  if (baseUrl credentials =? "") || (username credentials =? "")
     || (password credentials =? "")
  then {| outcome := Refused "All fields are required"; requests := []; after := w |}
  else if negb (validUrl (baseUrl credentials))
  then {| outcome := Refused "Please enter a valid URL"; requests := []; after := w |}
  else
    match btoa (username credentials ++ ":" ++ password credentials) with
    | inl message => {| outcome := Refused message; requests := []; after := w |}
    | inr _ =>
        let t := testConnection credentials w in
        {| outcome :=
             match outcome t with
             | inr true => Connected credentials
             | inr false =>
                 Refused "Failed to connect to the API. Please check your credentials and URL."
             | inl message => Refused message
             end;
           requests := requests t;
           after := after t |}
    end.

End Platform.

End Credentials.

(* ===================================================================== *)
(** * src/components/FileUpload.tsx, the version with preview and
      confirmation                                                         *)
(* ===================================================================== *)

Module FileImport.

Import Sheets FileUpload.

(** The [useState] cells the handlers write. *)
Record UploadState : Type := mkUploadState {
  uploadError : string;
  previewData : option SpreadsheetData
}.

(** A file picked or dropped (with what reading it gives), and the two
    buttons under the preview. *)
Inductive UploadEvent : Type :=
| ChooseFile (name : string) (read : FileRead)
| Confirm
| Cancel.

Section Engine.

Variable typeErrorMessage : string.

(** [handleFile], run to its end. *)
Definition handleFile (name : string) (read : FileRead) (st : UploadState)
  : UploadState :=
  let lower := toLowerCase name in
  if negb (endsWith ".xlsx" lower) && negb (endsWith ".csv" lower) then
    {| uploadError := "Please upload an .xlsx or .csv file";
       previewData := previewData st |}
  else
    match parseSpreadsheetFile typeErrorMessage name read with
    | Resolved data =>
        let validationErrors := validateSpreadsheetData data in
        if (0 <? List.length validationErrors)%nat
        then {| uploadError := join ", " validationErrors;
                previewData := previewData st |}
        else {| uploadError := ""; previewData := Some data |}
    | RejectedWith message =>
        {| uploadError := message; previewData := previewData st |}
    end.

(** One event; the list holds the calls of [onFileUploaded] it makes. *)
Definition uploadStep (st : UploadState) (ev : UploadEvent)
  : UploadState * list SpreadsheetData :=
  match ev with
  | ChooseFile name read => (handleFile name read st, [])
  | Confirm =>
      match previewData st with
      | Some data =>
          ({| uploadError := uploadError st; previewData := None |}, [data])
      | None => (st, [])
      end
  | Cancel => ({| uploadError := uploadError st; previewData := None |}, [])
  end.

Fixpoint uploadRun (st : UploadState) (evs : list UploadEvent)
  : UploadState * list SpreadsheetData :=
  match evs with
  | [] => (st, [])
  | ev :: rest =>
      let (st1, imported) := uploadStep st ev in
      let (st2, later) := uploadRun st1 rest in
      (st2, (imported ++ later)%list)
  end.

Definition freshUpload : UploadState :=
  {| uploadError := ""; previewData := None |}.

(** What a sheet must have gone through before it is handed on. *)
Definition accepted (evs : list UploadEvent) (data : SpreadsheetData) : Prop :=
  exists name read,
    In (ChooseFile name read) evs /\
    (endsWith ".xlsx" (toLowerCase name) = true \/
     endsWith ".csv" (toLowerCase name) = true) /\
    parseSpreadsheetFile typeErrorMessage name read = Resolved data /\
    validateSpreadsheetData data = [].

End Engine.

End FileImport.

(* ===================================================================== *)
(** * src/components/ApiCredentials.tsx, the version that only awaits the
      connection test                                                      *)
(* ===================================================================== *)

Module CredentialsForm.

Import Credentials.

Section Platform.

Variable validUrl : string -> bool.
Variable btoa : string -> string + string.
Variable World : Type.
Variable fetch : World -> Request -> FetchOutcome * World.

(** [validateCredentials] of this file: the value [testConnection]
    resolves with is not looked at. *)
Definition validateCredentials (credentials : ApiCredentials) (w : World)
  : Attempt World Validation :=
  if (baseUrl credentials =? "") || (username credentials =? "")
     || (password credentials =? "")
  then {| outcome := Refused "All fields are required"; requests := []; after := w |}
  else if negb (validUrl (baseUrl credentials))
  then {| outcome := Refused "Please enter a valid URL"; requests := []; after := w |}
  else
    match btoa (username credentials ++ ":" ++ password credentials) with
    | inl message => {| outcome := Refused message; requests := []; after := w |}
    | inr _ =>
        let t := testConnection fetch credentials w in
        {| outcome :=
             match outcome t with
             | inr _ => Connected credentials
             | inl message => Refused message
             end;
           requests := requests t;
           after := after t |}
    end.

End Platform.

End CredentialsForm.

(* ===================================================================== *)
(** * src/App.tsx                                                          *)
(* ===================================================================== *)

Module AppShell.

Definition verbsToStrip : list string := ["POST"; "PUT"; "DELETE"].

Fixpoint dropChars (n : nat) (s : string) : string :=
  match n, s with
  | O, _ => s
  | S n', String _ t => dropChars n' t
  | S _, EmptyString => EmptyString
  end.

(** The alternative of [(POST|PUT|DELETE)] that matches at the head of [s]
    when letter case is ignored; the alternatives are tried in order. *)
Definition verbAtHead (s : string) : option string :=
  find (fun v => String.prefix v (toUpperCase s)) verbsToStrip.

(** [fullUrl.replace(/\/(POST|PUT|DELETE)/i, '')]: the leftmost match is
    removed, nothing else. *)
Fixpoint stripVerb (s : string) : string :=
  match s with
  | EmptyString => EmptyString
  | String c t =>
      if Ascii.eqb c "/"%char then
        match verbAtHead t with
        | Some v => dropChars (String.length v) t
        | None => String c (stripVerb t)
        end
      else String c (stripVerb t)
  end.

(** The [getEndpointUrl] prop handed to the verification step. *)
Definition getEndpointUrl (selectedEndpoint : option ApiEndpoint) : option string :=
  match selectedEndpoint with
  | Some e => Some (stripVerb (fullUrl e))
  | None => None
  end.

End AppShell.

(* ===================================================================== *)
(** * The preview of src/components/DataMapping.tsx                        *)
(* ===================================================================== *)

Module MappingPreview.

Import Submission.

(** The [spreadsheetData] prop as the object it is at run time. *)
Definition sheetObject (data : SpreadsheetData) : JsVal :=
  VObj [ ("headers", VArr (map VStr (sheet_headers data)));
         ("rows", VArr (map VObj (rows data))) ].

(** [mappings.forEach(mapping => { payload[mapping.apiField] = row[mapping.spreadsheetColumn] })] *)
Fixpoint fillPayload (row : JsVal) (mappings : list FieldMapping) (payload : Row)
  : option Row :=
  match mappings with
  | [] => Some payload
  | mapping :: rest =>
      value <- get row (spreadsheetColumn mapping) ;;
      fillPayload row rest (setProp payload (apiField mapping) value)
  end.

(** [generatePreviewPayload]: the row is read from [spreadsheetData.roots];
    [None] is a [TypeError]. *)
Definition generatePreviewPayload (data : SpreadsheetData)
    (mappings : list FieldMapping) (rowIndex : nat) : option JsVal :=
  roots <- get (sheetObject data) "roots" ;;
  row <- get roots (string_of_nat rowIndex) ;;
  payload <- fillPayload row mappings [] ;;
  Some (VObj payload).

End MappingPreview.

(* ===================================================================== *)
(** * The counters the components display                                  *)
(* ===================================================================== *)

Module Tallies.

Definition countStatus (s : SubmissionStatus) (rs : list SubmissionResult) : nat :=
  List.length
    (filter (fun r => match status r, s with
                      | Success, Success | Error, Error | Pending, Pending => true
                      | _, _ => false
                      end) rs).

(** [results.filter(r => r.status === 'success').length] and its siblings
    in SubmissionResults.tsx. *)
Definition successCount (rs : list SubmissionResult) : nat := countStatus Success rs.
Definition errorCount (rs : list SubmissionResult) : nat := countStatus Error rs.
Definition pendingCount (rs : list SubmissionResult) : nat := countStatus Pending rs.




End Tallies.

(* ===================================================================== *)
(** * The selects of src/components/DataMapping.tsx                        *)
(* ===================================================================== *)

Module MappingSession.

Import DataMapping.

(** One [onChange] of the select rendered for the api field at position
    [fieldIndex]; [chosen] is the value of the option picked. *)
Record Change : Type := mkChange {
  fieldIndex : nat;
  chosen : string
}.

(** The options of every select: the placeholder with value [''] and one
    option per header of the sheet. *)
Definition offered (spreadsheetData : SpreadsheetData) (column : string) : bool :=
  (column =? "") || existsb (String.eqb column) (sheet_headers spreadsheetData).

Section Component.

Variable spreadsheetData : SpreadsheetData.
Variable selectedEndpoint : ApiEndpoint.
Variable disabled : bool.

(** [onChange={(e) => handleMappingChange(field.name, e.target.value)}] of
    the select inside [apiFields.map]; [None] when no such select or
    option is on the page, or the select is disabled. *)
Definition change (mappings : list FieldMapping) (c : Change)
  : option (list FieldMapping) :=
  if disabled then None
  else
    match nth_error (apiFields selectedEndpoint) (fieldIndex c) with
    | Some field =>
        if offered spreadsheetData (chosen c)
        then Some (handleMappingChange (name field) (chosen c) mappings)
        else None
    | None => None
    end.

Fixpoint changes (mappings : list FieldMapping) (cs : list Change)
  : option (list FieldMapping) :=
  match cs with
  | [] => Some mappings
  | c :: rest =>
      match change mappings c with
      | Some mappings' => changes mappings' rest
      | None => None
      end
  end.

(** The mapping set after the changes [cs], from [useState([])]. *)
Definition session (cs : list Change) : option (list FieldMapping) :=
  changes [] cs.

(** What the selects keep true of the mapping set: one mapping per api
    field at most, each for a field of the endpoint, each to a non-empty
    header of the sheet. *)
Definition wellFormed (ms : list FieldMapping) : Prop :=
  NoDup (map apiField ms) /\
  Forall (fun m => spreadsheetColumn m <> "" /\
                   In (spreadsheetColumn m) (sheet_headers spreadsheetData) /\
                   In (apiField m) (map name (apiFields selectedEndpoint))) ms.

End Component.

End MappingSession.

(* ===================================================================== *)
(** * Further example data                                                 *)
(* ===================================================================== *)

Module Samples.

(** An endpoint whose body has a required [email] and an optional [name]. *)
Definition signup : ApiEndpoint :=
  {| method := POST; path := "/signup"; fullUrl := "https://api.example/signup";
     endpoint_description := "Create an account";
     parameters := [];
     requestBody :=
       Some {| contentType := "application/json";
               schema :=
                 {| schema_type := "object";
                    properties :=
                      [ ("email", mkApiParameter "email" "string" true
                                    None None None None None);
                        ("name", mkApiParameter "name" "string" false
                                   None None None None None) ];
                    schema_required := Some ["email"] |} |} |}.

(** What the spreadsheet library returns for a sheet with two columns and
    two data rows; the second row has a zero and lacks its last cell. *)
Definition stock : list (list JsVal) :=
  [ [VStr " sku "; VStr "qty"; VStr "note"];
    [VStr "A-1"; VNum 7; VStr "new"];
    [VStr "B-2"; VNum 0] ].

(** A network that answers every request with the same response. *)
Definition always (r : Response) (w : unit) (q : Request) : FetchOutcome * unit :=
  (Responded r, w).

(** A network on which nothing can be reached. *)
Definition unreachable (w : unit) (q : Request) : FetchOutcome * unit :=
  (Rejected "Failed to fetch", w).

(** A server front page: status 200 and HTML. *)
Definition htmlPage : Response :=
  {| Http.status := 200; statusText := "OK"; headers := [];
     body := NotJson "Unexpected token <" |}.

(** A server that answers the first documentation URL with status 404 and
    a document in the body, the second with its front page, and the third
    with the document. *)
Definition thirdTime (w : unit) (q : Request) : FetchOutcome * unit :=
  (if req_url q =? "https://api.example/swagger.json"
   then Responded {| Http.status := 404; statusText := "Not Found"; headers := [];
                     body := Json Examples.petstore |}
   else if req_url q =? "https://api.example/openapi.json"
   then Responded {| Http.status := 200; statusText := "OK"; headers := [];
                     body := Json Examples.petstore |}
   else Responded htmlPage,
   w).

(** An endpoint that requires nothing. *)
Definition ping : ApiEndpoint :=
  {| method := POST; path := "/ping"; fullUrl := "https://api.example/ping";
     endpoint_description := "Ping";
     parameters := [ mkApiParameter "note" "string" false
                       None None None None None ];
     requestBody := None |}.

(** Status 200 and no body at all. *)
Definition emptyReply : Response :=
  {| Http.status := 200; statusText := "OK"; headers := [];
     body := NotJson "Unexpected end of JSON input" |}.

Definition okEmpty : Response :=
  {| Http.status := 200; statusText := "OK"; headers := []; body := Json (VObj []) |}.

End Samples.

(* ===================================================================== *)
(** * What a document lists, read off the document                         *)
(* ===================================================================== *)

Module Outline.

Import ApiClient.

(** The keys of a path item that name one of the four verbs, in any
    letter case, in the order of the item. *)
Definition verbsOf (pathObj : JsVal) : list string :=
  match keys pathObj with
  | Some ks => filter (fun k => includes supportedVerbs (toLowerCase k)) ks
  | None => []
  end.

(** The operations of a document: for each path in document order, one
    pair of upper-cased verb and prefixed path per verb of its item. *)
Definition operationsOf (basePath : JsVal) (paths : list (string * JsVal))
  : list (string * string) :=
  flat_map (fun entry =>
              map (fun verb => (toUpperCase verb, to_string basePath ++ fst entry))
                  (verbsOf (snd entry)))
           paths.

(** What the later steps read in an endpoint: one of the four methods, a
    URL under the base URL, and a description to show. *)
Definition usable (baseUrl : string) (e : ParsedEndpoint) : Prop :=
  In (method e) supportedMethods /\
  fullUrl e = baseUrl ++ path e /\
  truthy (description e) = true.

(** What discovery may send: a request without a body, by GET or by
    OPTIONS, to a URL under the base URL. *)
Definition probe (baseUrl : string) (q : Request) : Prop :=
  req_body q = None /\
  (req_method q = "GET" \/ req_method q = "OPTIONS") /\
  String.prefix baseUrl (req_url q) = true.

(** An endpoint as heuristic discovery builds it: one of the conventional
    paths, nothing known about its inputs. *)
Definition bare (e : ParsedEndpoint) : Prop :=
  In (path e) commonPaths /\ parameters e = [] /\ requestBody e = None.

End Outline.

(* ===================================================================== *)
(** * The result table of a run, row by row                                *)
(* ===================================================================== *)

Module Ledger.

Import Submission.

Section Component.

Variable spreadsheetData : SpreadsheetData.
Variable mappings : list FieldMapping.





End Component.

End Ledger.

(* ===================================================================== *)
(** * The search box of src/components/EndpointDiscovery.tsx               *)
(* ===================================================================== *)

Module EndpointSearch.

Import ApiClient.

(** [value.toLowerCase().includes(term)] on a value that need not be a
    string: only strings have [toLowerCase]; [None] is the [TypeError]. *)
Definition lowerIncludes (value : JsVal) (term : string) : option bool :=
  match value with
  | VStr s => Some (str_includes term (toLowerCase s))
  | _ => None
  end.

(** The predicate of [filteredEndpoints]; [||] evaluates its right operand
    only when the left one is false. *)
Definition matchesSearch (searchTerm : string) (endpoint : ParsedEndpoint)
  : option bool :=
  let term := toLowerCase searchTerm in
  if str_includes term (toLowerCase (path endpoint)) then Some true
  else
    byDescription <- lowerIncludes (description endpoint) term ;;
    if byDescription then Some true
    else Some (str_includes term (toLowerCase (method endpoint))).

(** [endpoints.filter(...)] with a predicate that may throw. *)
Fixpoint filteredEndpoints (endpoints : list ParsedEndpoint) (searchTerm : string)
  : option (list ParsedEndpoint) :=
  match endpoints with
  | [] => Some []
  | endpoint :: rest =>
      keep <- matchesSearch searchTerm endpoint ;;
      kept <- filteredEndpoints rest searchTerm ;;
      Some (if keep then endpoint :: kept else kept)
  end.

End EndpointSearch.

(* ===================================================================== *)
(** * Facts about the JavaScript fragment                                  *)
(* ===================================================================== *)

Module JsFacts.

(** [||] and [??] agree on a definite left operand. *)
Lemma or_coalesce (a b : JsVal) : Spec.definite a = true -> or a b = coalesce a b.
Proof.
  unfold Spec.definite, or, coalesce.
  destruct a as [| |[]|n|s|l|ps]; simpl; try reflexivity; try discriminate.
  - destruct (n =? 0)%Z; simpl; [discriminate | reflexivity].
  - destruct (s =? ""); simpl; [discriminate | reflexivity].
Qed.

Lemma lower_upper_char (c : ascii) : lower_char (upper_char c) = lower_char c.
Proof.
  destruct c as [[] [] [] [] [] [] [] []]; reflexivity.
Qed.

Lemma upper_lower_char (c : ascii) : upper_char (lower_char c) = upper_char c.
Proof.
  destruct c as [[] [] [] [] [] [] [] []]; reflexivity.
Qed.

Lemma toLowerCase_toUpperCase (s : string) :
  toLowerCase (toUpperCase s) = toLowerCase s.
Proof.
  induction s as [|c s IH]; simpl; [reflexivity|].
  now rewrite lower_upper_char, IH.
Qed.

Lemma toUpperCase_toLowerCase (s : string) :
  toUpperCase (toLowerCase s) = toUpperCase s.
Proof.
  induction s as [|c s IH]; simpl; [reflexivity|].
  now rewrite upper_lower_char, IH.
Qed.

End JsFacts.

(* ===================================================================== *)
(** * The schema normaliser                                                *)
(* ===================================================================== *)

Module NormalizerFacts.

Import ApiClient Spec JsFacts.

(** [parseParameter] never throws on an object, and each constraint is the
    [||]-chain over the nested and the flat value. *)
Lemma parseParameter_object (props : list (string * JsVal)) :
  exists p,
    parseParameter (VObj props) = Some p /\
    p_name p = own props "name" /\
    forall c,
      normalized c p =
      match c with
      | CType => or (or (nested c (VObj props)) (flat c (VObj props))) (VStr "string")
      | _ => or (nested c (VObj props)) (flat c (VObj props))
      end.
Proof.
  eexists; split; [reflexivity|]; split; [reflexivity|].
  intros []; reflexivity.
Qed.

(** The normaliser on a small document: the unsupported verb is skipped,
    a document without [paths] has no endpoints, and [null] makes the
    first property read throw. *)
Example petstore_endpoints :
  option_map (map (fun e => (method e, path e, description e)))
             (parseOpenApiSpec "https://api.example" Examples.petstore)
  = Some [ ("GET", "/v1/pets", VStr "List pets") ] /\
  parseOpenApiSpec "https://api.example" (VObj []) = Some [] /\
  parseOpenApiSpec "https://api.example" VNull = None.
Proof. repeat split; reflexivity. Qed.

(** C1, the claim as stated, fails: a nested [minLength: 0] is present in
    the schema, the specification's rule [schema.minLength ?? minLength]
    keeps it, and the code drops it. *)
Lemma C1_nested_zero_is_not_preferred :
  exists p,
    parseParameter Examples.zeroMinLength = Some p /\
    nested CMinLength Examples.zeroMinLength = VNum 0 /\
    preferNested CMinLength Examples.zeroMinLength = VNum 0 /\
    normalized CMinLength p = VUndef.
Proof.
  eexists; repeat split; reflexivity.
Qed.

(** C1, amended: for every parameter object and each of type, format,
    enum, maxLength and minLength, the normalised value is the nested
    [schema] value when that is truthy, otherwise the flat value, and for
    the type ['string'] when the flat one is falsy too
    ([schema.type || type || 'string']).  This coincides with the
    specification's [??] rule whenever neither value is present but falsy.
    A parameter with [type: "number"] and [schema: {type: "string"}]
    normalises to type ["string"]. *)
Theorem C1_nested_value_preferred_when_truthy :
  forall (props : list (string * JsVal)),
    let param := VObj props in
    exists p,
      parseParameter param = Some p /\
      (forall c,
          normalized c p =
          if truthy (nested c param) then nested c param
          else match c with
               | CType => if truthy (flat c param) then flat c param
                          else VStr "string"
               | _ => flat c param
               end) /\
      (forall c,
          definite (nested c param) = true ->
          definite (flat c param) = true ->
          normalized c p = preferNested c param) /\
      option_map p_type (parseParameter Examples.numberAndString)
        = Some (VStr "string").
Proof.
  intros props param.
  destruct (parseParameter_object props) as (p & Hp & _ & Hc).
  exists p; split; [exact Hp|]; split; [|split].
  - intros c; rewrite Hc; fold param; unfold or.
    destruct c; destruct (truthy (nested _ param)) eqn:E; rewrite ?E; reflexivity.
  - intros c Hn Hf; rewrite Hc; fold param.
    destruct c; simpl; rewrite (or_coalesce _ _ Hn); try reflexivity.
    apply or_coalesce. unfold coalesce.
    destruct (nullish (nested CType param)); assumption.
  - reflexivity.
Qed.

(** The amended rule at the specification's example. *)
Lemma C1_nested_value_preferred_witness :
  definite (nested CType Examples.numberAndString) = true /\
  definite (flat CType Examples.numberAndString) = true /\
  exists p,
    parseParameter Examples.numberAndString = Some p /\
    normalized CType p = preferNested CType Examples.numberAndString.
Proof.
  split; [reflexivity|]. split; [reflexivity|].
  destruct (C1_nested_value_preferred_when_truthy
              [ ("name", VStr "n"); ("type", VStr "number");
                ("schema", VObj [("type", VStr "string")]) ])
    as (p & Hp & _ & Hagree & _).
  exists p; split; [exact Hp|].
  apply Hagree; reflexivity.
Defined.

End NormalizerFacts.

(* ===================================================================== *)
(** * Required-field validation                                            *)
(* ===================================================================== *)

Module DataMappingFacts.

Import DataMapping Spec.

Lemma findMapping_isMapped (ms : list FieldMapping) (n : string) :
  (findMapping ms n = None -> isMapped ms n = false) /\
  (forall m, findMapping ms n = Some m -> isMapped ms n = true).
Proof.
  unfold findMapping, isMapped.
  induction ms as [|m ms [IHn IHs]]; simpl; split; try discriminate; auto.
  - destruct (apiField m =? n); [discriminate | auto].
  - intros m'. destruct (apiField m =? n); simpl; [reflexivity | apply IHs].
Qed.

Lemma bodyField_snd (entry : string * ApiParameter) : bodyField entry = snd entry.
Proof. destruct entry as [k []]; reflexivity. Qed.

Lemma required_names (e : ApiEndpoint) :
  map name (filter required (apiFields e)) = requiredNames e.
Proof.
  unfold apiFields, requiredNames.
  rewrite filter_app, map_app. f_equal.
  destruct (Types.requestBody e) as [rb|]; [|reflexivity].
  f_equal. f_equal. apply map_ext. intros a; apply bodyField_snd.
Qed.

(** The [forEach] that collects the messages, for any messages already
    collected. *)
Lemma collect_errors (ms : list FieldMapping) (fields : list ApiParameter)
    (errors : list string) :
  fold_left
    (fun errors field =>
       match findMapping ms (name field) with
       | None => (errors ++ [notMapped (name field)])%list
       | Some _ => errors
       end) fields errors
  = (errors ++
     map notMapped (filter (fun n => negb (isMapped ms n)) (map name fields)))%list.
Proof.
  revert errors; induction fields as [|f fields IH]; intros errors; simpl.
  - now rewrite app_nil_r.
  - rewrite IH. destruct (findMapping_isMapped ms (name f)) as [Hn Hs].
    destruct (findMapping ms (name f)) as [m|].
    + now rewrite (Hs m eq_refl).
    + rewrite (Hn eq_refl); simpl. now rewrite <- app_assoc.
Qed.

Lemma validateMappings_unmapped (e : ApiEndpoint) (ms : list FieldMapping) :
  validateMappings e ms = map notMapped (unmappedRequired e ms).
Proof.
  unfold validateMappings, unmappedRequired.
  rewrite collect_errors, required_names. reflexivity.
Qed.

Lemma unmapped_nil (e : ApiEndpoint) (ms : list FieldMapping) :
  unmappedRequired e ms = [] <->
  forall n, In n (requiredNames e) -> isMapped ms n = true.
Proof.
  unfold unmappedRequired. split.
  - intros H n Hin. destruct (isMapped ms n) eqn:E; [reflexivity|].
    assert (Hf : In n (filter (fun n => negb (isMapped ms n)) (requiredNames e))).
    { apply filter_In; split; [assumption | now rewrite E]. }
    rewrite H in Hf. destruct Hf.
  - intros H. induction (requiredNames e) as [|n l IH]; simpl; [reflexivity|].
    rewrite (H n (or_introl eq_refl)); simpl. apply IH.
    intros n' Hin; apply H; now right.
Qed.

Lemma handleComplete_cases (e : ApiEndpoint) (ms : list FieldMapping) :
  handleComplete e ms =
  match unmappedRequired e ms with [] => Some ms | _ :: _ => None end.
Proof.
  unfold handleComplete. rewrite validateMappings_unmapped.
  destruct (unmappedRequired e ms); reflexivity.
Qed.

(** The button adds a condition of its own: with no mapping at all it is
    disabled, whatever the endpoint requires. *)
Lemma clickContinue_needs_a_mapping (e : ApiEndpoint) (disabled : bool) :
  clickContinue e [] disabled = None.
Proof.
  unfold clickContinue, isValid; simpl.
  now rewrite andb_false_r.
Qed.

Lemma clickContinue_cases (e : ApiEndpoint) (ms : list FieldMapping)
    (disabled : bool) (out : list FieldMapping) :
  clickContinue e ms disabled = Some out <->
  out = ms /\ disabled = false /\ ms <> [] /\ unmappedRequired e ms = [].
Proof.
  unfold clickContinue, isValid. rewrite handleComplete_cases.
  rewrite validateMappings_unmapped, length_map.
  destruct (unmappedRequired e ms) as [|n l]; destruct ms as [|m ms];
    destruct disabled; simpl;
    (split; [ try discriminate
            | intros (H1 & H2 & H3 & H4); try discriminate; try (now elim H3) ]).
  - intros [= <-]. repeat split; discriminate.
  - now subst.
Qed.

(** C7: the fields checked are the required parameters and the required
    properties of the body schema.  [validateMappings] yields one message
    per unmapped required field, in the order of the fields, and the
    message is the text [Required field "NAME" is not mapped] with the
    field's name between the quotation marks.  While some required field
    is unmapped there is at least one message, [handleComplete] does not
    call the completion callback and the button does nothing.  When every
    required field is mapped [handleComplete] calls the callback with the
    mapping set; a click on the button reaches the callback exactly when,
    besides that, the mapping set is not empty and the parent has not
    disabled the component. *)
Theorem C7_completion_needs_required_fields :
  forall (e : ApiEndpoint) (ms : list FieldMapping),
    validateMappings e ms =
      map (fun fieldName =>
             "Required field " ++
             String "034"%char
               (fieldName ++ String "034"%char " is not mapped"))
          (unmappedRequired e ms) /\
    (unmappedRequired e ms = [] <->
       forall n, In n (requiredNames e) -> isMapped ms n = true) /\
    (unmappedRequired e ms <> [] ->
       validateMappings e ms <> [] /\
       handleComplete e ms = None /\
       forall disabled, clickContinue e ms disabled = None) /\
    (unmappedRequired e ms = [] -> handleComplete e ms = Some ms) /\
    (forall disabled out,
        clickContinue e ms disabled = Some out <->
        out = ms /\ disabled = false /\ ms <> [] /\ unmappedRequired e ms = []).
Proof.
  intros e ms.
  split; [apply validateMappings_unmapped|].
  split; [apply unmapped_nil|].
  split; [|split].
  - intros Hne. split; [|split].
    + rewrite validateMappings_unmapped.
      destruct (unmappedRequired e ms); [contradiction | discriminate].
    + rewrite handleComplete_cases.
      destruct (unmappedRequired e ms); [contradiction | reflexivity].
    + intros d. unfold clickContinue.
      destruct (negb (isValid e ms) || d)%bool; [reflexivity|].
      rewrite handleComplete_cases.
      destruct (unmappedRequired e ms); [contradiction | reflexivity].
  - intros H. rewrite handleComplete_cases, H. reflexivity.
  - intros d out. apply clickContinue_cases.
Qed.

(** C7 at the specification's scenario: [POST /users] requires [email] in
    its body and [name] is optional. *)
Lemma C7_required_fields_witness :
  let e := {| method := POST; path := "/users";
              fullUrl := "https://api.example/users";
              endpoint_description := "POST /users";
              parameters := [];
              requestBody :=
                Some {| contentType := "application/json";
                        schema :=
                          {| schema_type := "object";
                             properties :=
                               [ ("email", mkApiParameter "email" "string" true
                                             None None None None None);
                                 ("name", mkApiParameter "name" "string" false
                                            None None None None None) ];
                             schema_required := Some ["email"] |} |} |} in
  handleComplete e Examples.emailOnly = Some Examples.emailOnly /\
  clickContinue e Examples.emailOnly false = Some Examples.emailOnly /\
  handleComplete e [] = None /\
  validateMappings e [] =
    ["Required field " ++ String "034"%char ("email" ++ String "034"%char " is not mapped")].
Proof.
  intros e.
  destruct (C7_completion_needs_required_fields e Examples.emailOnly)
    as (_ & _ & _ & Hok & Hclick).
  destruct (C7_completion_needs_required_fields e [])
    as (Hv & _ & Hblocked & _ & _).
  split; [apply Hok; reflexivity|].
  split; [apply Hclick; repeat split; discriminate|].
  split; [apply Hblocked; discriminate|].
  rewrite Hv; reflexivity.
Defined.

(** C7 as stated fails on an endpoint that requires nothing: with no
    mapping at all every required field is mapped and validation yields no
    message, yet the button is disabled and the completion callback cannot
    be reached. *)
Lemma C7_nothing_required_nothing_mapped :
  requiredNames Samples.ping = [] /\
  validateMappings Samples.ping [] = [] /\
  clickContinue Samples.ping [] false = None.
Proof. repeat split. Qed.

End DataMappingFacts.

(* ===================================================================== *)
(** * Endpoint discovery                                                   *)
(* ===================================================================== *)

Module DiscoveryFacts.

Import ApiClient Spec JsFacts.

(** Letter case: a method name in capitals is what a token becomes under
    [toUpperCase] exactly when the two are equal up to case. *)
Lemma upper_eqb_iff (s m : string) :
  toUpperCase m = m ->
  (toUpperCase s =? m) = sameIgnoringCase s m.
Proof.
  intros Hm. unfold sameIgnoringCase.
  destruct (String.eqb_spec (toUpperCase s) m) as [E|E];
    destruct (String.eqb_spec (toLowerCase s) (toLowerCase m)) as [F|F];
    try reflexivity; exfalso.
  - apply F. rewrite <- E. symmetry; apply toLowerCase_toUpperCase.
  - apply E. rewrite <- toUpperCase_toLowerCase, F, toUpperCase_toLowerCase.
    exact Hm.
Qed.

Lemma includes_tokenMethod (s : string) :
  (if includes supportedMethods (toUpperCase s) then [toUpperCase s] else [])
  = match find (sameIgnoringCase s) supportedMethods with
    | Some m => [m]
    | None => []
    end.
Proof.
  unfold includes, supportedMethods; simpl.
  rewrite <- !(upper_eqb_iff s) by reflexivity.
  rewrite !(String.eqb_sym (toUpperCase s)).
  destruct (String.eqb_spec "GET" (toUpperCase s)) as [E|_];
    [now rewrite <- E|].
  destruct (String.eqb_spec "POST" (toUpperCase s)) as [E|_];
    [now rewrite <- E|].
  destruct (String.eqb_spec "PUT" (toUpperCase s)) as [E|_];
    [now rewrite <- E|].
  destruct (String.eqb_spec "DELETE" (toUpperCase s)) as [E|_];
    [now rewrite <- E|].
  reflexivity.
Qed.

Lemma filter_map_flat_map {A B} (keep : B -> bool) (g : A -> B) (l : list A) :
  filter keep (map g l) = flat_map (fun x => if keep (g x) then [g x] else []) l.
Proof.
  induction l as [|x l IH]; simpl; [reflexivity|].
  rewrite IH. destruct (keep (g x)); reflexivity.
Qed.

(** The code's filter over the trimmed, upper-cased tokens keeps exactly
    the methods the tokens match up to case, in order. *)
Lemma allowedMethods_filter (allowHeader : string) :
  filter (includes supportedMethods) (allowedMethods allowHeader)
  = methodsOfAllow allowHeader.
Proof.
  unfold allowedMethods, methodsOfAllow, tokenMethod.
  rewrite filter_map_flat_map. apply flat_map_ext.
  intros t. apply includes_tokenMethod.
Qed.

Section Client.

Variable baseUrl : string.
Variable World : Type.
Variable fetch : World -> Request -> FetchOutcome * World.

Abbreviation probeDocs := (probeDocs baseUrl fetch).
Abbreviation probePaths := (probePaths baseUrl fetch).
Abbreviation replies := (replies fetch).
Abbreviation worldAfter := (worldAfter fetch).
Abbreviation documentOf := (documentOf baseUrl).

(** What it takes for a probe to end the search. *)
Lemma documentOf_some (out : FetchOutcome) (eps : list ParsedEndpoint) :
  documentOf out = Some eps <->
  exists r spec,
    out = Responded r /\ ok r = true /\ body r = Json spec /\
    parseOpenApiSpec baseUrl spec = Some eps.
Proof.
  split.
  - destruct out as [r|msg]; simpl; [|discriminate].
    destruct (ok r) eqn:Hok; [|discriminate].
    destruct (body r) as [spec|msg] eqn:Hb; [|discriminate].
    intros H; exists r, spec; auto.
  - intros (r & spec & -> & Hok & Hb & Hp); simpl.
    now rewrite Hok, Hb.
Qed.

(** A rejected fetch and a status outside 2xx never end the search. *)
Lemma documentOf_failure (out : FetchOutcome) :
  match out with
  | Responded r => ok r = false
  | Rejected _ => True
  end -> documentOf out = None.
Proof.
  destruct out as [r|msg]; simpl; [intros ->|]; reflexivity.
Qed.

Lemma endpointsFromOptions_allow (path : string) (out : FetchOutcome) :
  match out with
  | Responded r => endpointsFromOptions baseUrl path r
  | Rejected _ => []
  end
  = match allowOf out with
    | Some allow => map (manualEndpoint baseUrl path) (methodsOfAllow allow)
    | None => []
    end.
Proof.
  destruct out as [r|msg]; simpl; [|reflexivity].
  unfold endpointsFromOptions. destruct (ok r); [|reflexivity].
  now rewrite allowedMethods_filter.
Qed.

(** The loop over the documentation URLs when no probe yields a document. *)
Lemma probeDocs_exhausted (urls : list string) (w : World) :
  Forall (fun out => documentOf out = None) (replies (map getRequest urls) w) ->
  probeDocs urls w =
  {| result := None; sent := map getRequest urls;
     world := worldAfter (map getRequest urls) w |}.
Proof.
  revert w; induction urls as [|url urls IH]; intros w H; simpl in *.
  - reflexivity.
  - destruct (fetch w (getRequest url)) as [out w1]; simpl in *.
    inversion H as [|? ? Hout Hrest]; subst.
    rewrite Hout, (IH w1 Hrest). reflexivity.
Qed.

(** The loop over the documentation URLs when probe [j] is the first to
    yield a document. *)
Lemma probeDocs_first (urls : list string) (w : World) (j : nat)
    (eps : list ParsedEndpoint) :
  nth_error (map documentOf (replies (map getRequest urls) w)) j = Some (Some eps) ->
  (forall i, i < j ->
     nth_error (map documentOf (replies (map getRequest urls) w)) i = Some None) ->
  result (probeDocs urls w) = Some eps /\
  sent (probeDocs urls w) = map getRequest (firstn (S j) urls).
Proof.
  revert w j; induction urls as [|url urls IH]; intros w j Hj Hbefore.
  - destruct j; discriminate.
  - simpl in *. destruct (fetch w (getRequest url)) as [out w1].
    destruct j as [|j]; simpl in *.
    + injection Hj as Hj. rewrite Hj. simpl. split; reflexivity.
    + assert (H0 : documentOf out = None).
      { specialize (Hbefore 0 ltac:(lia)). simpl in Hbefore. congruence. }
      rewrite H0.
      destruct (IH w1 j Hj) as [Hr Hs].
      { intros i Hi. apply (Hbefore (S i)). lia. }
      simpl. rewrite Hr, Hs. split; reflexivity.
Qed.

(** The loop over the conventional paths: every path is probed, and each
    reply contributes the endpoints of its [Allow] header. *)
Lemma probePaths_all (paths : list string) (w : World) :
  sent (probePaths paths w) = map (optionsRequest baseUrl) paths /\
  result (probePaths paths w) =
  flat_map (fun answer =>
              match allowOf (snd answer) with
              | Some allow =>
                  map (manualEndpoint baseUrl (fst answer)) (methodsOfAllow allow)
              | None => []
              end)
           (combine paths (replies (map (optionsRequest baseUrl) paths) w)).
Proof.
  revert w; induction paths as [|p paths IH]; intros w; simpl.
  - split; reflexivity.
  - destruct (fetch w (optionsRequest baseUrl p)) as [out w1]; simpl.
    destruct (IH w1) as [Hs Hr]. rewrite Hs, Hr.
    rewrite (endpointsFromOptions_allow p out). split; reflexivity.
Qed.

Lemma combine_fst {A B} (l : list A) (l' : list B) :
  List.length l = List.length l' -> map fst (combine l l') = l.
Proof.
  revert l'; induction l as [|a l IH]; intros [|b l'] H; simpl in *;
    try reflexivity; try discriminate.
  f_equal. apply IH. now injection H.
Qed.

Lemma replies_length (reqs : list Request) (w : World) :
  List.length (replies reqs w) = List.length reqs.
Proof.
  revert w; induction reqs as [|q reqs IH]; intros w; simpl; [reflexivity|].
  destruct (fetch w q) as [out w1]; simpl. now rewrite IH.
Qed.

Lemma passedOver_documentOf (out : FetchOutcome) :
  passedOver baseUrl out -> documentOf out = None.
Proof.
  destruct out as [r|message]; simpl; [|reflexivity].
  intros [Hok | [(message & Hb) | (spec & Hb & Hnone)]].
  - now rewrite Hok.
  - rewrite Hb. now destruct (ok r).
  - rewrite Hb, Hnone. now destruct (ok r).
Qed.

(** C4: the documentation URLs are probed with GET in the fixed order
    /swagger.json, /api-docs, /openapi.json, /v2/api-docs,
    /swagger/v1/swagger.json.  The search stops at the first reply that
    has a 2xx status, a body that parses as JSON and a document the
    normaliser accepts: when probe [j] is answered so, and every earlier
    probe failed, was answered outside 2xx, was answered with a body that
    is not JSON, or with a document the normaliser throws on, discovery
    returns the endpoints normalised from the document of probe [j] after
    exactly [j + 1] requests, all of them GET: no later URL is tried and no
    OPTIONS request is sent.  (The document holds no number beyond 2^53 in
    size, so that its [basePath] is printed digit for digit.) *)
Theorem C4_discovery_stops_at_first_document :
  forall (w : World) (j : nat) (reply : Response) (spec : JsVal)
         (eps : list ParsedEndpoint),
    let answers := replies (map getRequest (swaggerUrls baseUrl)) w in
    nth_error answers j = Some (Responded reply) ->
    ok reply = true ->
    body reply = Json spec ->
    safeNumbers spec = true ->
    parseOpenApiSpec baseUrl spec = Some eps ->
    (forall i out, i < j -> nth_error answers i = Some out ->
                   passedOver baseUrl out) ->
    let r := discoverEndpoints baseUrl fetch w in
    swaggerUrls baseUrl =
      [ baseUrl ++ "/swagger.json"; baseUrl ++ "/api-docs";
        baseUrl ++ "/openapi.json"; baseUrl ++ "/v2/api-docs";
        baseUrl ++ "/swagger/v1/swagger.json" ] /\
    result r = eps /\
    sent r = map getRequest (firstn (S j) (swaggerUrls baseUrl)) /\
    List.length (sent r) = S j /\
    Forall (fun q => req_method q = "GET") (sent r).
Proof.
  intros w j reply spec eps answers Hreply Hok Hbody _ Hparse Hearlier r.
  assert (Hj : nth_error (map documentOf answers) j = Some (Some eps)).
  { rewrite nth_error_map, Hreply. simpl. now rewrite Hok, Hbody, Hparse. }
  assert (Hbefore : forall i, i < j ->
                      nth_error (map documentOf answers) i = Some None).
  { intros i Hi. rewrite nth_error_map.
    destruct (nth_error answers i) as [out|] eqn:Ei.
    - simpl. f_equal. apply passedOver_documentOf. now apply (Hearlier i).
    - apply nth_error_None in Ei.
      assert (Hlen : j < List.length answers)
        by (apply nth_error_Some; congruence).
      lia. }
  destruct (probeDocs_first _ _ Hj Hbefore) as [Hr Hs].
  assert (Hlt : j < 5).
  { assert (Hn : nth_error (map documentOf answers) j <> None) by congruence.
    apply nth_error_Some in Hn.
    unfold answers in Hn. rewrite length_map, replies_length in Hn.
    exact Hn. }
  subst r. unfold discoverEndpoints. rewrite Hr. cbn [result sent world]. rewrite Hs.
  split; [reflexivity|]. split; [reflexivity|]. split; [reflexivity|].
  split.
  - rewrite length_map, length_firstn. simpl List.length. lia.
  - apply Forall_forall. intros q Hq. apply in_map_iff in Hq.
    destruct Hq as (u & <- & _). reflexivity.
Qed.

(** C5: when no documentation probe yields a document, discovery sends the
    five GET probes and then an OPTIONS request to each of /api/v1,
    /odata/v4, /rest/v1, /services and /data, whatever the earlier paths
    answered.  The result lists, path by path, one endpoint per token of the
    comma-split [Allow] header of a 2xx reply that equals GET, POST, PUT or
    DELETE up to letter case and surrounding white space; such an endpoint
    has no parameters, no request body and the description
    "{METHOD} endpoint at {path}".  Other tokens, other statuses and
    rejected requests contribute nothing. *)
Theorem C5_heuristic_probes_every_path :
  forall (w : World),
    Forall (fun out => documentOf out = None)
           (replies (map getRequest (swaggerUrls baseUrl)) w) ->
    let r := discoverEndpoints baseUrl fetch w in
    let w5 := worldAfter (map getRequest (swaggerUrls baseUrl)) w in
    let answers :=
      combine commonPaths (replies (map (optionsRequest baseUrl) commonPaths) w5) in
    commonPaths = ["/api/v1"; "/odata/v4"; "/rest/v1"; "/services"; "/data"] /\
    sent r = (map getRequest (swaggerUrls baseUrl) ++
              map (optionsRequest baseUrl) commonPaths)%list /\
    map fst answers = commonPaths /\
    result r =
      flat_map (fun answer =>
                  match allowOf (snd answer) with
                  | Some allow =>
                      map (manualEndpoint baseUrl (fst answer)) (methodsOfAllow allow)
                  | None => []
                  end) answers /\
    (forall p m,
        let e := manualEndpoint baseUrl p m in
        method e = m /\ path e = p /\ fullUrl e = baseUrl ++ p /\
        description e = VStr (m ++ " endpoint at " ++ p) /\
        parameters e = [] /\ requestBody e = None).
Proof.
  intros w Hfail r w5 answers.
  split; [reflexivity|].
  subst r. unfold discoverEndpoints, discoverEndpointsManually.
  rewrite (probeDocs_exhausted _ _ Hfail). cbn [result sent world].
  destruct (probePaths_all commonPaths w5) as [Hs Hr].
  fold w5. rewrite Hs, Hr. fold answers.
  split; [reflexivity|]. split.
  - unfold answers. apply combine_fst.
    now rewrite replies_length, length_map.
  - split; [reflexivity|]. intros p m.
    repeat split; reflexivity.
Qed.

End Client.

(** C4 on a server whose third documentation URL is the first to give a
    document with a 2xx status (the first answers 404 with a document in
    the body, the second 200 with a page of HTML): three GET requests, no
    OPTIONS request, the endpoints of the third reply. *)
Lemma C4_only_third_url_witness :
  let r := discoverEndpoints "https://api.example" Samples.thirdTime tt in
  List.length (sent r) = 3 /\
  Forall (fun q => req_method q = "GET") (sent r) /\
  map fullUrl (result r) = ["https://api.example/v1/pets"].
Proof.
  intros r.
  destruct (@C4_discovery_stops_at_first_document
              "https://api.example" unit Samples.thirdTime tt 2
              {| Http.status := 200; statusText := "OK"; headers := [];
                 body := Json Examples.petstore |}
              Examples.petstore
              (match parseOpenApiSpec "https://api.example" Examples.petstore with
               | Some eps => eps
               | None => []
               end))
    as (_ & Hres & _ & Hlen & Hget).
  - reflexivity.
  - reflexivity.
  - reflexivity.
  - reflexivity.
  - reflexivity.
  - intros [|[|i]] out Hi Hout; [| | lia]; injection Hout as <-.
    + left. reflexivity.
    + right. left. now exists "Unexpected token <".
  - fold r in Hres, Hlen, Hget. rewrite Hres.
    split; [exact Hlen|]. split; [exact Hget | reflexivity].
Defined.

(** C4 as stated fails on a server that answers every path with status
    200 and its HTML front page: the first probe is answered successfully,
    yet the search does not stop there; all five URLs are probed and the
    OPTIONS fallback runs. *)
Lemma C4_successful_reply_without_document :
  let r := discoverEndpoints "https://api.example"
                             (Samples.always Samples.htmlPage) tt in
  ok Samples.htmlPage = true /\
  map req_method (sent r) =
    [ "GET"; "GET"; "GET"; "GET"; "GET";
      "OPTIONS"; "OPTIONS"; "OPTIONS"; "OPTIONS"; "OPTIONS" ] /\
  result r = [].
Proof. repeat split. Qed.

(** A server on which the first probe is rejected, the second answered
    404 and the third with the document. *)
Example only_third_url_answers :
  let r := discoverEndpoints "https://api.example" Examples.onlyThird tt in
  map req_url (sent r) =
    [ "https://api.example/swagger.json"; "https://api.example/api-docs";
      "https://api.example/openapi.json" ] /\
  map fullUrl (result r) = ["https://api.example/v1/pets"].
Proof. split; reflexivity. Qed.

(** A 2xx reply whose body is not JSON does not end the search: the
    rejection of [response.json()] lands in the [catch] and the next URL
    is probed. *)
Lemma unparseable_reply_is_skipped :
  let r := discoverEndpoints "https://api.example" Examples.frontPage tt in
  map req_url (sent r) =
    [ "https://api.example/swagger.json"; "https://api.example/api-docs" ] /\
  map fullUrl (result r) = ["https://api.example/v1/pets"].
Proof. split; reflexivity. Qed.

(** C5 on a server without documentation whose /api/v1 allows
    "GET, post ,PATCH": ten requests, two endpoints. *)
Lemma C5_no_documentation_witness :
  let r := discoverEndpoints "https://api.example" Examples.noDocs tt in
  List.length (sent r) = 10 /\
  map (fun e => (method e, description e)) (result r) =
    [ ("GET", VStr "GET endpoint at /api/v1");
      ("POST", VStr "POST endpoint at /api/v1") ].
Proof.
  intros r.
  destruct (@C5_heuristic_probes_every_path
              "https://api.example" unit Examples.noDocs tt)
    as (_ & Hsent & _ & Hres & _).
  - repeat constructor.
  - fold r in Hsent, Hres. rewrite Hsent, Hres. split; reflexivity.
Defined.

End DiscoveryFacts.

(* ===================================================================== *)
(** * The submission pipeline                                              *)
(* ===================================================================== *)

Module SubmissionFacts.

Import Submission.

#[local] Arguments updateRow : simpl never.
#[local] Arguments initialResults : simpl never.
#[local] Arguments seq : simpl never.
#[local] Arguments rowsSubmitted : simpl never.
#[local] Arguments completions : simpl never.

Lemma run_app {sheet ep maps} (m : Machine) (es1 es2 : list Event) :
  run sheet ep maps m (es1 ++ es2) =
  match run sheet ep maps m es1 with
  | Some m1 => run sheet ep maps m1 es2
  | None => None
  end.
Proof.
  revert m; induction es1 as [|e es1 IH]; intros m; simpl; [reflexivity|].
  destruct (step sheet ep maps m e); [apply IH | reflexivity].
Qed.

Lemma rowsSubmitted_app (tr1 tr2 : list Effect) :
  rowsSubmitted (tr1 ++ tr2) = (rowsSubmitted tr1 ++ rowsSubmitted tr2)%list.
Proof. apply flat_map_app. Qed.

Lemma completions_app (tr1 tr2 : list Effect) :
  completions (tr1 ++ tr2) = (completions tr1 ++ completions tr2)%list.
Proof. apply flat_map_app. Qed.

Section Component.

Variable sheet : SpreadsheetData.
Variable ep : ApiEndpoint.
Variable maps : list FieldMapping.

Abbreviation N := (rowCount sheet).

(** ** The result table keeps its rows *)

Lemma rowIndex_markAttempt (p : JsVal) (r : SubmissionResult) :
  rowIndex (markAttempt p r) = rowIndex r.
Proof. reflexivity. Qed.

Lemma rowIndex_recordOutcome (out : FetchOutcome) (r : SubmissionResult) :
  rowIndex (recordOutcome out r) = rowIndex r.
Proof.
  destruct out as [resp|msg]; simpl; [|reflexivity].
  destruct (ok resp); [destruct (body resp)|]; reflexivity.
Qed.

Lemma status_recordOutcome (out : FetchOutcome) (r : SubmissionResult) :
  status (recordOutcome out r) = Success \/ status (recordOutcome out r) = Error.
Proof.
  destruct out as [resp|msg]; simpl; [|now right].
  destruct (ok resp); [destruct (body resp)|]; simpl; auto.
Qed.

Lemma indices_updateRow (k : nat) (f : SubmissionResult -> SubmissionResult)
    (l : list SubmissionResult) :
  (forall r, rowIndex (f r) = rowIndex r) ->
  map rowIndex (updateRow k f l) = map rowIndex l.
Proof.
  intros Hf. unfold updateRow. rewrite map_map. apply map_ext.
  intros r. destruct (rowIndex r =? k)%nat; [apply Hf | reflexivity].
Qed.

Lemma indices_initial : map rowIndex (initialResults sheet) = seq 0 N.
Proof.
  unfold initialResults. rewrite map_map. simpl. apply map_id.
Qed.

Lemma indices_loopHead (c : Call) (u : UiState) (tr : list Effect) :
  map rowIndex (results (fst (fst (loopHead sheet ep maps c u tr))))
  = map rowIndex (results u).
Proof.
  unfold loopHead, afterLoop.
  destruct (i c <? N)%nat; [|reflexivity].
  destruct (isPaused (closure c)); [reflexivity|].
  destruct (generatePayload sheet maps (i c)); simpl; [|reflexivity].
  apply indices_updateRow, rowIndex_markAttempt.
Qed.

(** Name the outcome of the [loopHead] in the goal, keeping what is known
    about its result table. *)
Ltac name_loopHead H :=
  match goal with
  | |- context [loopHead sheet ep maps ?c ?u ?tr] =>
      pose proof (indices_loopHead c u tr) as H;
      destruct (loopHead sheet ep maps c u tr) as [[? ?] ?]
  end.

Lemma step_indices (m m' : Machine) (e : Event) :
  step sheet ep maps m e = Some m' ->
  map rowIndex (results (ui m)) = seq 0 N ->
  map rowIndex (results (ui m')) = seq 0 N.
Proof.
  destruct e as [| | |k out|k]; simpl.
  - destruct (startRendered sheet (ui m)); [|discriminate].
    name_loopHead H.
    intros [= <-] Hi; simpl in *. now rewrite H.
  - destruct (isRunning (ui m)); [|discriminate].
    intros [= <-] Hi; exact Hi.
  - destruct (isRunning (ui m)); [discriminate|].
    intros [= <-] _; apply indices_initial.
  - destruct (nth_error (calls m) k) as [c|]; [|discriminate].
    destruct (phase c); try discriminate.
    intros [= <-] Hi; simpl.
    rewrite indices_updateRow; [exact Hi | apply rowIndex_recordOutcome].
  - destruct (nth_error (calls m) k) as [c|]; [|discriminate].
    destruct (phase c); try discriminate.
    name_loopHead H.
    intros [= <-] Hi; simpl in *. now rewrite H.
Qed.

(** Whatever is clicked and whenever responses and timers arrive, the
    result table has one entry per row, in row order. *)
Lemma run_indices (es : list Event) (m m' : Machine) :
  run sheet ep maps m es = Some m' ->
  map rowIndex (results (ui m)) = seq 0 N ->
  map rowIndex (results (ui m')) = seq 0 N.
Proof.
  revert m; induction es as [|e es IH]; intros m; simpl.
  - intros [= <-]; auto.
  - destruct (step sheet ep maps m e) as [m1|] eqn:E; [|discriminate].
    intros Hr Hi. apply (IH m1 Hr). exact (step_indices _ _ E Hi).
Qed.

(** ** An uninterrupted run *)

Lemma generatePayload_some (k : nat) :
  k < N -> exists p, generatePayload sheet maps k = Some p.
Proof.
  intros Hk. unfold generatePayload.
  destruct (nth_error (rows sheet) k) as [row|] eqn:E.
  - eexists; reflexivity.
  - apply nth_error_None in E. unfold rowCount in Hk. lia.
Qed.

Lemma indices_bound (l : list SubmissionResult) (n : nat) :
  map rowIndex l = seq 0 n -> Forall (fun r => rowIndex r < n) l.
Proof.
  intros H. apply Forall_forall. intros r Hr.
  apply (in_map rowIndex) in Hr. rewrite H in Hr. apply in_seq in Hr. lia.
Qed.

(** Settling row [k] leaves every row up to [k] with a final status. *)
Lemma settled_upto (k : nat) (out : FetchOutcome) (l : list SubmissionResult) :
  Forall (fun r => rowIndex r < k -> status r <> Pending) l ->
  Forall (fun r => rowIndex r < S k -> status r <> Pending)
         (updateRow k (recordOutcome out) l).
Proof.
  intros H. unfold updateRow. apply Forall_map.
  eapply Forall_impl; [|exact H]. intros r Hr.
  destruct (Nat.eqb_spec (rowIndex r) k) as [E|E].
  - intros _. destruct (status_recordOutcome out r) as [-> | ->]; discriminate.
  - intros Hlt. apply Hr. lia.
Qed.

(** Marking row [j] as attempted does not touch the rows before it. *)
Lemma attempt_keeps_earlier (j : nat) (p : JsVal) (l : list SubmissionResult) :
  Forall (fun r => rowIndex r < j -> status r <> Pending) l ->
  Forall (fun r => rowIndex r < j -> status r <> Pending)
         (updateRow j (markAttempt p) l).
Proof.
  intros H. unfold updateRow. apply Forall_map.
  eapply Forall_impl; [|exact H]. intros r Hr.
  destruct (Nat.eqb_spec (rowIndex r) j) as [E|E].
  - rewrite rowIndex_markAttempt. lia.
  - exact Hr.
Qed.

Lemma start_midRun :
  0 < N ->
  exists m,
    step sheet ep maps (mounted sheet) ClickStart = Some m /\
    midRun sheet (ui (mounted sheet)) 0 m.
Proof.
  intros HN. destruct (generatePayload_some HN) as [p Hp].
  unfold step, mounted, startRendered, loopHead; cbn [ui isRunning currentRow
    setIsPaused setIsRunning closure i isPaused negb andb orb Nat.eqb calls trace].
  destruct (Nat.ltb_spec 0 N) as [_|]; [|lia].
  rewrite Hp. eexists; split; [reflexivity|].
  unfold midRun; cbn.
  repeat split; try reflexivity; try assumption.
  - rewrite indices_updateRow by apply rowIndex_markAttempt.
    apply indices_initial.
  - apply Forall_forall. intros r _ H; lia.
Qed.

(** One response and one timer turn [midRun k] into [midRun (k + 1)], or
    into [endOfRun] after the last row. *)
Lemma round (cl : UiState) (k : nat) (m : Machine) (out : FetchOutcome) :
  isPaused cl = false ->
  midRun sheet cl k m ->
  exists m',
    run sheet ep maps m [Settle 0 out; Elapse 0] = Some m' /\
    if (S k <? N)%nat then midRun sheet cl (S k) m' else endOfRun sheet cl m'.
Proof.
  intros Hcl (Hc & Hk & Hrun & Hpa & Hcur & Hsub & Hcomp & Hidx & Hst).
  destruct m as [u cs tr]; cbn [ui calls trace] in *. subst cs.
  cbn [run step calls nth_error phase closure i ui trace replaceNth].
  unfold loopHead; cbn [closure i].
  destruct (Nat.ltb_spec (S k) N) as [Hlt|Hge].
  - rewrite Hcl. destruct (generatePayload_some Hlt) as [p Hp]. rewrite Hp.
    eexists; split; [reflexivity|].
    unfold midRun; cbn.
    rewrite rowsSubmitted_app, completions_app, Hsub, Hcomp; cbn.
    repeat split; try reflexivity; try assumption.
    + rewrite (seq_S (S k) 0). reflexivity.
    + rewrite !indices_updateRow;
        auto using rowIndex_markAttempt, rowIndex_recordOutcome.
    + apply attempt_keeps_earlier, settled_upto, Hst.
  - unfold afterLoop; cbn [closure i].
    eexists; split; [reflexivity|].
    assert (HN : N = S k) by lia.
    unfold endOfRun, reportOf; cbn.
    repeat split; try assumption.
    + eexists; reflexivity.
    + lia.
    + destruct (Z.of_nat N - 1 <=? Z.of_nat (currentRow cl))%Z;
        rewrite ?rowsSubmitted_app, Hsub, HN; [apply app_nil_r | reflexivity].
    + destruct (Z.of_nat N - 1 <=? Z.of_nat (currentRow cl))%Z;
        rewrite ?completions_app, Hcomp; reflexivity.
    + rewrite indices_updateRow by apply rowIndex_recordOutcome. exact Hidx.
    + pose proof (settled_upto out Hst) as H1.
      assert (Hb : Forall (fun r => rowIndex r < S k)
                          (updateRow k (recordOutcome out) (results u))).
      { rewrite <- HN. apply indices_bound.
        rewrite indices_updateRow by apply rowIndex_recordOutcome. exact Hidx. }
      rewrite Forall_forall in *. intros r Hr. apply (H1 r Hr), (Hb r Hr).
Qed.

Lemma rounds_reach (outs : list FetchOutcome) (cl : UiState) (k : nat) (m : Machine) :
  isPaused cl = false ->
  midRun sheet cl k m ->
  k + List.length outs < N ->
  exists m',
    run sheet ep maps m (flat_map (fun out => [Settle 0 out; Elapse 0]) outs) = Some m' /\
    midRun sheet cl (k + List.length outs) m'.
Proof.
  intros Hcl. revert k m.
  induction outs as [|out outs IH]; intros k m Hmid Hlen;
    cbn [flat_map List.length] in *.
  - exists m. rewrite Nat.add_0_r. split; [reflexivity | exact Hmid].
  - destruct (round out Hcl Hmid) as (m1 & Hrun & Hnext).
    rewrite run_app, Hrun.
    destruct (Nat.ltb_spec (S k) N) as [_|]; [|lia].
    destruct (IH (S k) m1 Hnext) as (m' & Hrun' & Hmid'); [lia|].
    exists m'. split; [exact Hrun'|].
    now replace (k + S (List.length outs)) with (S k + List.length outs) by lia.
Qed.

Lemma rounds_finish (outs : list FetchOutcome) (cl : UiState) (k : nat) (m : Machine) :
  isPaused cl = false ->
  midRun sheet cl k m ->
  k + List.length outs = N ->
  exists m',
    run sheet ep maps m (flat_map (fun out => [Settle 0 out; Elapse 0]) outs) = Some m' /\
    endOfRun sheet cl m'.
Proof.
  intros Hcl. revert k m.
  induction outs as [|out outs IH]; intros k m Hmid Hlen;
    cbn [flat_map List.length] in *.
  - destruct Hmid as (_ & Hk & _). lia.
  - destruct (round out Hcl Hmid) as (m1 & Hrun & Hnext).
    rewrite run_app, Hrun.
    destruct (Nat.ltb_spec (S k) N) as [Hlt|Hge].
    + apply (IH (S k) m1 Hnext). lia.
    + destruct outs as [|o outs]; [|cbn [List.length] in Hlen; lia].
      exists m1. split; [reflexivity | exact Hnext].
Qed.

(** One click on "Start Submission", then every response and every timer:
    the call returns after the last row. *)
Lemma uninterrupted_endOfRun (outs : list FetchOutcome) :
  List.length outs = N ->
  exists m,
    run sheet ep maps (mounted sheet) (uninterrupted outs) = Some m /\
    endOfRun sheet (ui (mounted sheet)) m.
Proof.
  intros Hlen. unfold uninterrupted.
  destruct (Nat.eq_dec N 0) as [H0|Hpos].
  - destruct outs; [|simpl in Hlen; lia].
    cbn [flat_map run]. unfold step, mounted, startRendered, loopHead, afterLoop.
    cbn [ui isRunning currentRow closure i negb andb orb Nat.eqb calls trace
         setIsPaused setIsRunning results isPaused app].
    destruct (Nat.ltb_spec 0 N) as [|_]; [lia|].
    eexists; split; [reflexivity|].
    unfold endOfRun, reportOf; cbn.
    split; [eexists; reflexivity|].
    split; [reflexivity|]. split; [lia|].
    split; [destruct (Z.of_nat N - 1 <=? 0)%Z; rewrite H0; reflexivity|].
    split; [destruct (Z.of_nat N - 1 <=? 0)%Z; reflexivity|].
    split; [apply indices_initial|].
    unfold initialResults. rewrite H0. constructor.
  - destruct start_midRun as (m0 & Hstep & Hmid); [lia|].
    cbn [run]. rewrite Hstep.
    apply (rounds_finish outs (cl := ui (mounted sheet)) (k := 0));
      [reflexivity | exact Hmid | exact Hlen].
Qed.

(** A call started while [isPaused] was false never sees a later pause:
    when the pause button is clicked after the response to row [k], the
    timer still leads to the submission of row [k + 1]. *)
Lemma pause_is_not_observed (cl : UiState) (k : nat) (m : Machine)
    (out : FetchOutcome) :
  isPaused cl = false ->
  midRun sheet cl k m ->
  S k < N ->
  exists m',
    run sheet ep maps m [Settle 0 out; ClickPause; Elapse 0] = Some m' /\
    isPaused (ui m') = true /\
    isRunning (ui m') = false /\
    currentRow (ui m') = S k /\
    rowsSubmitted (trace m') = seq 0 (S (S k)).
Proof.
  intros Hcl (Hc & Hk & Hrun & Hpa & Hcur & Hsub & Hcomp & Hidx & Hst) Hlt.
  destruct m as [u cs tr]; cbn [ui calls trace] in *. subst cs.
  cbn [run step calls nth_error phase closure i ui trace replaceNth
       setResults isRunning].
  rewrite Hrun.
  cbn [run step calls nth_error phase closure i ui trace replaceNth].
  unfold loopHead; cbn [closure i].
  destruct (Nat.ltb_spec (S k) N) as [_|]; [|lia].
  rewrite Hcl. destruct (generatePayload_some Hlt) as [p Hp]. rewrite Hp.
  eexists; split; [reflexivity|]. cbn.
  rewrite rowsSubmitted_app, Hsub. cbn.
  repeat split; try reflexivity. now rewrite (seq_S (S k) 0).
Qed.

(** The same from the start: whatever the sheet and the responses, a
    pause clicked after the response to row [k] does not keep row [k + 1]
    from being submitted, and the cursor then stands on that row. *)
Lemma pause_after_any_row (outs : list FetchOutcome) (out : FetchOutcome) :
  S (List.length outs) < N ->
  exists m,
    run sheet ep maps (mounted sheet)
        (uninterrupted outs ++ [Settle 0 out; ClickPause; Elapse 0]) = Some m /\
    isPaused (ui m) = true /\
    isRunning (ui m) = false /\
    currentRow (ui m) = S (List.length outs) /\
    rowsSubmitted (trace m) = seq 0 (S (S (List.length outs))).
Proof.
  intros Hlen.
  destruct start_midRun as (m0 & Hstep & Hmid0); [lia|].
  destruct (rounds_reach outs (cl := ui (mounted sheet)) (k := 0) eq_refl Hmid0)
    as (m1 & Hrun1 & Hmid1); [lia|].
  destruct (pause_is_not_observed out (cl := ui (mounted sheet)) eq_refl Hmid1)
    as (m2 & Hrun2 & Hfacts); [exact Hlen|].
  exists m2. split; [|exact Hfacts].
  unfold uninterrupted. rewrite run_app. cbn [run]. rewrite Hstep, Hrun1.
  exact Hrun2.
Qed.

(** C3, what the code does: after one click on "Start Submission" and all
    [N] responses, the call has returned, every row has its final status
    and the cursor stands on the last row, [N - 1].  The completion test
    reads the cursor of the render that was clicked, which is 0: with two
    rows or more [onSubmissionComplete] is not called at all, and with at
    most one row it is called once with the result table of that render,
    every entry still pending. *)
Theorem C3_completion_reads_stale_state :
  forall (outs : list FetchOutcome),
    List.length outs = N ->
    exists m,
      run sheet ep maps (mounted sheet) (uninterrupted outs) = Some m /\
      Forall (fun c => phase c = Returned) (calls m) /\
      isRunning (ui m) = false /\
      currentRow (ui m) = N - 1 /\
      rowsSubmitted (trace m) = seq 0 N /\
      Forall (fun r => status r = Success \/ status r = Error) (results (ui m)) /\
      completions (trace m) =
        if (N <=? 1)%nat then [initialResults sheet] else [].
Proof.
  intros outs Hlen.
  destruct (uninterrupted_endOfRun outs Hlen)
    as (m & Hrun & (k & Hc) & Hr & Hcur & Hsub & Hcomp & _ & Hst).
  exists m. split; [exact Hrun|].
  split; [rewrite Hc; repeat constructor|].
  repeat (split; [assumption|]).
  split.
  - eapply Forall_impl; [|exact Hst]. intros r Hfinal.
    destruct (status r) eqn:E; [now left | now right | now elim Hfinal].
  - rewrite Hcomp. unfold reportOf, mounted; cbn [ui currentRow results].
    destruct (Nat.leb_spec N 1); destruct (Z.leb_spec (Z.of_nat N - 1) (Z.of_nat 0));
      try reflexivity; lia.
Qed.

(** C6: at every point the result table has exactly one entry per row,
    with row indices [0 .. N - 1] in order, whatever is clicked and
    whenever responses and timers arrive; and after a full run that is
    never paused every entry is a success or an error. *)
Theorem C6_one_result_per_row :
  (forall (es : list Event) (m : Machine),
      run sheet ep maps (mounted sheet) es = Some m ->
      map rowIndex (results (ui m)) = seq 0 N /\
      List.length (results (ui m)) = N /\
      NoDup (map rowIndex (results (ui m)))) /\
  (forall (outs : list FetchOutcome),
      List.length outs = N ->
      exists m,
        run sheet ep maps (mounted sheet) (uninterrupted outs) = Some m /\
        Forall (fun r => status r = Success \/ status r = Error)
               (results (ui m))).
Proof.
  split.
  - intros es m Hrun.
    assert (Hi : map rowIndex (results (ui m)) = seq 0 N).
    { apply (run_indices es _ Hrun). apply indices_initial. }
    split; [exact Hi|]. split.
    + rewrite <- (length_map rowIndex), Hi. apply length_seq.
    + rewrite Hi. apply seq_NoDup.
  - intros outs Hlen.
    destruct (uninterrupted_endOfRun outs Hlen)
      as (m & Hrun & _ & _ & _ & _ & _ & _ & Hst).
    exists m. split; [exact Hrun|].
    eapply Forall_impl; [|exact Hst]. intros r Hfinal.
    destruct (status r) eqn:E; [now left | now right | now elim Hfinal].
Qed.

End Component.

Import Examples.

(** C2, what the code does on a sheet of three rows.
    (1) "Pause" is clicked once the response to row 0 is in: when the
        timer fires row 1 is submitted all the same, with [isPaused] true.
    (2) At the click the cursor is 0, the row just attempted, not 1.
    (3) Left alone, the paused call goes on to submit every row.
    (4) A first click on the start button after the pause returns at once
        (its render has [isPaused] true); a second click starts at the
        cursor and submits row 0 again.
    (5) Run to the end, every row has then been submitted twice. *)
Theorem C2_pause_is_ignored_and_rows_repeat :
  let after es :=
    option_map
      (fun m => (rowsSubmitted (trace m), isPaused (ui m), currentRow (ui m)))
      (run threeRows users emailOnly (mounted threeRows) es) in
  after [ClickStart; Settle 0 (created 1); ClickPause; Elapse 0]
    = Some ([0; 1], true, 1) /\
  after [ClickStart; Settle 0 (created 1); ClickPause]
    = Some ([0], true, 0) /\
  after [ClickStart; Settle 0 (created 1); ClickPause; Elapse 0;
         Settle 0 (created 2); Elapse 0; Settle 0 (created 3); Elapse 0]
    = Some ([0; 1; 2], true, 2) /\
  after [ClickStart; Settle 0 (created 1); ClickPause; ClickStart; ClickStart]
    = Some ([0; 0], false, 0) /\
  after [ClickStart; Settle 0 (created 1); ClickPause; ClickStart; ClickStart;
         Elapse 0; Settle 2 (created 4); Elapse 2;
         Settle 0 (created 2); Elapse 0; Settle 2 (created 5); Elapse 2;
         Settle 0 (created 3); Elapse 0; Settle 2 (created 6); Elapse 2]
    = Some ([0; 0; 1; 1; 2; 2], false, 2).
Proof.
  cbv zeta. repeat split; vm_compute; reflexivity.
Qed.

(** C3 on three rows answered 201, 500, 201: all rows are final, nothing
    is reported. *)
Lemma C3_three_rows_witness :
  exists m,
    run threeRows users emailOnly (mounted threeRows)
        (uninterrupted [created 1; serverError; created 3]) = Some m /\
    map status (results (ui m)) = [Success; Error; Success] /\
    completions (trace m) = [].
Proof.
  destruct (@C3_completion_reads_stale_state threeRows users emailOnly
              [created 1; serverError; created 3] eq_refl)
    as (m & Hrun & _ & _ & _ & _ & _ & Hcomp).
  exists m. split; [exact Hrun|]. split; [|exact Hcomp].
  vm_compute in Hrun. injection Hrun as <-. reflexivity.
Defined.

(** With a single row the callback fires, with the pending table. *)
Lemma single_row_reports_pending :
  option_map (fun m => (map status (results (ui m)),
                        map (map status) (completions (trace m))))
    (run oneRow users emailOnly (mounted oneRow) (uninterrupted [created 1]))
  = Some ([Success], [[Pending]]).
Proof. vm_compute. reflexivity. Qed.

(** After a full run the start button is rendered as "Resume" and a click
    submits the last row once more before the callback fires. *)
Lemma resume_after_the_end_resubmits :
  option_map (fun m => (rowsSubmitted (trace m),
                        map (map status) (completions (trace m))))
    (run threeRows users emailOnly (mounted threeRows)
         (uninterrupted [created 1; serverError; created 3]
          ++ [ClickStart; Settle 1 (created 4); Elapse 1]))
  = Some ([0; 1; 2; 2], [[Success; Error; Success]]).
Proof. vm_compute. reflexivity. Qed.

(** C6 on the same sheet: the table keeps its three rows through a pause
    and a reset, and a full run leaves no entry pending. *)
Lemma C6_three_rows_witness :
  (exists m,
      run threeRows users emailOnly (mounted threeRows)
          [ClickStart; Settle 0 (created 1); ClickPause; ClickReset] = Some m /\
      map rowIndex (results (ui m)) = [0; 1; 2]) /\
  (exists m,
      run threeRows users emailOnly (mounted threeRows)
          (uninterrupted [created 1; serverError; created 3]) = Some m /\
      Forall (fun r => status r = Success \/ status r = Error) (results (ui m))).
Proof.
  destruct (C6_one_result_per_row threeRows users emailOnly) as [Hinv Hfull].
  split.
  - assert (E : exists m,
               run threeRows users emailOnly (mounted threeRows)
                   [ClickStart; Settle 0 (created 1); ClickPause; ClickReset]
               = Some m)
      by (vm_compute; eexists; reflexivity).
    destruct E as [m E]. exists m. split; [exact E|].
    exact (proj1 (Hinv _ m E)).
  - apply Hfull. reflexivity.
Defined.

End SubmissionFacts.

(* ===================================================================== *)
(** * The verification pipeline                                            *)
(* ===================================================================== *)

Module VerificationFacts.

Import Verification Spec.

#[local] Arguments updateEntries : simpl never.

(** ** Comparison *)

Lemma differsAt_object (retrievedProps : list (string * JsVal)) (k : string)
    (v : JsVal) :
  differsAt (VObj retrievedProps) k v = Some (negb (sameAt retrievedProps k v)).
Proof.
  unfold differsAt, sameAt, ownRead, own, has_key.
  destruct (lookup retrievedProps k) as [r|]; cbn [orb]; [reflexivity|].
  destruct (inherited k); reflexivity.
Qed.

Lemma compareEntries_object (es retrievedProps : list (string * JsVal)) :
  compareEntries es (VObj retrievedProps) = Some (containedIn es retrievedProps).
Proof.
  induction es as [|[k v] es IH]; [reflexivity|].
  cbn [compareEntries]. rewrite differsAt_object. unfold containedIn in *.
  cbn [forallb fst snd bind].
  destruct (sameAt retrievedProps k v); simpl; [exact IH | reflexivity].
Qed.

Lemma compareData_objects (submittedProps retrievedProps : list (string * JsVal)) :
  compareData (VObj submittedProps) (VObj retrievedProps)
  = Some (containedIn submittedProps retrievedProps).
Proof. apply compareEntries_object. Qed.

Lemma strict_eq_undefined (v : JsVal) : strict_eq VUndef v = true <-> v = VUndef.
Proof. destruct v; simpl; split; intros H; try reflexivity; discriminate. Qed.

Lemma sameAt_cases (retrievedProps : list (string * JsVal)) (k : string) (v : JsVal) :
  sameAt retrievedProps k v = true <->
  (has_key retrievedProps k = true /\ strict_eq (own retrievedProps k) v = true) \/
  (has_key retrievedProps k = false /\ inherited k = false /\ v = VUndef).
Proof.
  unfold sameAt. destruct (has_key retrievedProps k).
  - split; [intros H; left; now split | intros [[_ H]|[H _]]; [exact H | discriminate]].
  - rewrite andb_true_iff, negb_true_iff, strict_eq_undefined.
    split; [intros [H1 H2]; right; now repeat split
           | intros [[H _]|(_ & H1 & H2)]; [discriminate | now split]].
Qed.

Lemma containedIn_spec (submittedProps retrievedProps : list (string * JsVal)) :
  containedIn submittedProps retrievedProps = true <->
  forall k v, In (k, v) submittedProps -> sameAt retrievedProps k v = true.
Proof.
  unfold containedIn. rewrite forallb_forall. split.
  - intros H k v Hin. exact (H (k, v) Hin).
  - intros H [k v] Hin. exact (H k v Hin).
Qed.

(** Only the submitted keys are read. *)
Lemma containedIn_ext (submittedProps r1 r2 : list (string * JsVal)) :
  (forall k v, In (k, v) submittedProps -> lookup r2 k = lookup r1 k) ->
  containedIn submittedProps r2 = containedIn submittedProps r1.
Proof.
  intros H. unfold containedIn.
  induction submittedProps as [|[k v] rest IH]; simpl; [reflexivity|].
  unfold sameAt at 1 3. unfold has_key, own. rewrite (H k v) by now left.
  rewrite IH; [reflexivity|]. intros k' v' Hin. apply (H k' v'). now right.
Qed.

(** ** Entries of one row *)

Lemma entriesFor_updateRow_same (k : nat)
    (f : VerificationResult -> VerificationResult) (l : list VerificationResult) :
  (forall r, v_rowIndex (f r) = v_rowIndex r) ->
  entriesFor k (updateEntries k f l) = map f (entriesFor k l).
Proof.
  intros Hf. unfold entriesFor, updateEntries.
  induction l as [|r l IH]; simpl; [reflexivity|].
  destruct (Nat.eqb_spec (v_rowIndex r) k) as [E|E].
  - rewrite Hf. destruct (Nat.eqb_spec (v_rowIndex r) k); [|contradiction].
    simpl. now rewrite IH.
  - destruct (Nat.eqb_spec (v_rowIndex r) k); [contradiction|]. exact IH.
Qed.

Lemma entriesFor_updateRow_other (index k : nat)
    (f : VerificationResult -> VerificationResult) (l : list VerificationResult) :
  (forall r, v_rowIndex (f r) = v_rowIndex r) ->
  index <> k ->
  entriesFor index (updateEntries k f l) = entriesFor index l.
Proof.
  intros Hf Hne. unfold entriesFor, updateEntries.
  induction l as [|r l IH]; simpl; [reflexivity|].
  destruct (Nat.eqb_spec (v_rowIndex r) k) as [E|E].
  - rewrite Hf. destruct (Nat.eqb_spec (v_rowIndex r) index); [lia | exact IH].
  - now rewrite IH.
Qed.

Lemma filter_single (index : nat) (pre post : list SubmissionResult)
    (result : SubmissionResult) :
  rowIndex result = index ->
  ~ In index (map rowIndex pre) ->
  ~ In index (map rowIndex post) ->
  filter (fun r => (rowIndex r =? index)%nat) (pre ++ result :: post) = [result].
Proof.
  intros Hr Hpre Hpost.
  assert (Hnone : forall l, ~ In index (map rowIndex l) ->
                            filter (fun r => (rowIndex r =? index)%nat) l = []).
  { induction l as [|r l IH]; simpl; [reflexivity|]. intros Hn.
    destruct (Nat.eqb_spec (rowIndex r) index) as [E|E].
    - exfalso; apply Hn; now left.
    - apply IH. intros Hin; apply Hn; now right. }
  rewrite filter_app, (Hnone pre Hpre). simpl.
  rewrite (Hnone post Hpost).
  destruct (Nat.eqb_spec (rowIndex result) index); [reflexivity | contradiction].
Qed.

Lemma entriesFor_initial (index : nat) (l : list SubmissionResult) :
  entriesFor index (initializeVerification l)
  = map notStarted (filter (fun r => (rowIndex r =? index)%nat) l).
Proof.
  unfold entriesFor, initializeVerification.
  induction l as [|r l IH]; simpl; [reflexivity|].
  destruct (rowIndex r =? index)%nat; simpl; now rewrite IH.
Qed.

(** Filtering keeps row indices distinct. *)
Lemma successful_NoDup (l : list SubmissionResult) :
  NoDup (map rowIndex l) -> NoDup (map rowIndex (successfulSubmissions l)).
Proof.
  unfold successfulSubmissions.
  induction l as [|r l IH]; simpl; intros H; [constructor|].
  inversion H as [|? ? Hnin Hnd]; subst.
  destruct (status r); simpl; auto.
  constructor; [|auto].
  intros Hin. apply Hnin. apply in_map_iff in Hin.
  destruct Hin as (x & Hx & Hf). apply filter_In in Hf.
  apply in_map_iff. exists x. tauto.
Qed.

Section Component.

Variable typeErrorMessage : string.
Variable World : Type.
Variable fetch : World -> Request -> FetchOutcome * World.

Abbreviation verifyRow := (verifyRow typeErrorMessage fetch).
Abbreviation rowUpdate := (rowUpdate typeErrorMessage fetch).
Abbreviation verifyAll := (verifyAll typeErrorMessage fetch).
Abbreviation State := (State World).

Lemma v_rowIndex_outcomeUpdate (result : SubmissionResult) (out : FetchOutcome)
    (r : VerificationResult) :
  v_rowIndex (outcomeUpdate typeErrorMessage result out r) = v_rowIndex r.
Proof.
  unfold outcomeUpdate. destruct out as [resp|msg]; [|reflexivity].
  destruct (ok resp).
  - destruct (body resp); [|reflexivity].
    destruct (compareData _ _); reflexivity.
  - destruct (Http.status resp =? 404)%Z; reflexivity.
Qed.

Lemma v_rowIndex_rowUpdate (url : string) (st : State) (result : SubmissionResult)
    (r : VerificationResult) :
  v_rowIndex (rowUpdate url st result r) = v_rowIndex r.
Proof.
  unfold Verification.rowUpdate.
  destruct (negb (truthy (identifierOf result)));
    [reflexivity | apply v_rowIndex_outcomeUpdate].
Qed.

Lemma verifyRow_results (url : string) (st : State) (result : SubmissionResult) :
  verificationResults (verifyRow url st result)
  = updateEntries (rowIndex result) (rowUpdate url st result) (verificationResults st).
Proof.
  unfold Verification.verifyRow, Verification.rowUpdate.
  destruct (negb (truthy (identifierOf result))); [reflexivity|].
  destruct (fetch (world st) _) as [out w]. reflexivity.
Qed.

(** A row without identifier sends nothing. *)
Lemma verifyRow_sent (url : string) (st : State) (result : SubmissionResult) :
  sent (verifyRow url st result)
  = if truthy (identifierOf result)
    then (sent st ++ [verifyRequest url (identifierOf result)])%list
    else sent st.
Proof.
  unfold Verification.verifyRow.
  destruct (truthy (identifierOf result)); simpl; [|reflexivity].
  destruct (fetch (world st) _) as [out w]. reflexivity.
Qed.

(** Later rows leave the entries of an earlier row alone. *)
Lemma later_rows_keep (url : string) (index : nat) (rest : list SubmissionResult)
    (st : State) :
  ~ In index (map rowIndex rest) ->
  entriesFor index (verificationResults (fold_left (verifyRow url) rest st))
  = entriesFor index (verificationResults st).
Proof.
  revert st; induction rest as [|r rest IH]; intros st Hn; simpl; [reflexivity|].
  rewrite IH by (intros Hin; apply Hn; now right).
  rewrite verifyRow_results.
  apply entriesFor_updateRow_other; [apply v_rowIndex_rowUpdate|].
  intros E; apply Hn; left; now symmetry.
Qed.

(** The entry a row ends with is the entry created for it, updated once
    by its own iteration. *)
Lemma final_entry (url : string) (submissionResults : list SubmissionResult)
    (w : World) (pre post : list SubmissionResult) (result : SubmissionResult) :
  url <> "" ->
  NoDup (map rowIndex submissionResults) ->
  successfulSubmissions submissionResults = (pre ++ result :: post)%list ->
  let before := fold_left (verifyRow url) pre (initialised submissionResults w) in
  entriesFor (rowIndex result)
             (verificationResults (verifyAll (Some url) submissionResults w))
  = [ rowUpdate url before result (notStarted result) ].
Proof.
  intros Hurl Hnd Hsplit before.
  apply successful_NoDup in Hnd. rewrite Hsplit in Hnd.
  assert (Hout : ~ In (rowIndex result) (map rowIndex (pre ++ post))).
  { rewrite map_app in Hnd. simpl in Hnd. apply NoDup_remove_2 in Hnd.
    now rewrite map_app. }
  rewrite map_app, in_app_iff in Hout.
  unfold Verification.verifyAll, startVerification.
  destruct (String.eqb_spec url "") as [E|_]; [contradiction|].
  rewrite Hsplit, fold_left_app. simpl fold_left. fold before.
  rewrite later_rows_keep by tauto.
  rewrite verifyRow_results.
  rewrite entriesFor_updateRow_same by apply v_rowIndex_rowUpdate.
  unfold before. rewrite later_rows_keep by tauto.
  unfold initialised; cbn [verificationResults].
  rewrite entriesFor_initial, Hsplit.
  rewrite (@filter_single (rowIndex result) pre post result eq_refl) by tauto.
  reflexivity.
Qed.

(** C8: when the verification request of a row is answered with a 2xx
    status and a JSON object, the row's entry carries that object and is
    [verified] exactly when every key of the submitted payload reads, in
    the retrieved object, a value strictly equal to the submitted one; it
    is [mismatch] otherwise.  A key the retrieved object lacks reads
    [undefined], or the member of that name which every object inherits
    ([toString], [constructor], ...), and that member equals no submitted
    value.  Only the submitted keys are read, so a retrieved object that
    differs on other fields gives the same verdict: {a:1, b:2} against
    {a:1, b:2, c:99} is verified, against {a:1, b:3} a mismatch, and so
    is {a:1, toString:undefined} against {a:1}.  A 2xx
    reply whose body is not JSON, or is [null] while the payload has a key,
    leaves the row [error], neither verified nor mismatch.  The identifiers
    of this row and of the rows verified before it are values whose text
    the request URL carries as the engine prints it. *)
Theorem C8_verified_iff_submitted_keys_match :
  forall (url : string) (submissionResults : list SubmissionResult) (w : World)
         (pre post : list SubmissionResult) (result : SubmissionResult)
         (resp : Response) (w' : World)
         (submittedProps : list (string * JsVal)),
    url <> "" ->
    NoDup (map rowIndex submissionResults) ->
    successfulSubmissions submissionResults = (pre ++ result :: post)%list ->
    Forall (fun r => printable (identifierOf r) = true) (pre ++ [result])%list ->
    let before := fold_left (verifyRow url) pre (initialised submissionResults w) in
    payload result = VObj submittedProps ->
    truthy (identifierOf result) = true ->
    fetch (world before) (verifyRequest url (identifierOf result))
      = (Responded resp, w') ->
    ok resp = true ->
    exists entry,
      entriesFor (rowIndex result)
                 (verificationResults (verifyAll (Some url) submissionResults w))
        = [entry] /\
      (forall retrievedProps,
          body resp = Json (VObj retrievedProps) ->
          retrieved entry = VObj retrievedProps /\
          v_status entry =
            (if containedIn submittedProps retrievedProps
             then Verified else Mismatch) /\
          (v_status entry = Verified <->
             forall k v, In (k, v) submittedProps ->
               (has_key retrievedProps k = true /\
                strict_eq (own retrievedProps k) v = true) \/
               (has_key retrievedProps k = false /\
                inherited k = false /\ v = VUndef)) /\
          (v_status entry <> Verified -> v_status entry = Mismatch) /\
          (forall other,
              (forall k v, In (k, v) submittedProps ->
                           lookup other k = lookup retrievedProps k) ->
              containedIn submittedProps other
              = containedIn submittedProps retrievedProps)) /\
      (forall message,
          body resp = NotJson message ->
          v_status entry = VError /\ v_error entry = Some message) /\
      (body resp = Json VNull -> submittedProps <> [] ->
       v_status entry = VError /\ v_error entry = Some typeErrorMessage) /\
      containedIn [("a", VNum 1); ("b", VNum 2)]
                  [("a", VNum 1); ("b", VNum 2); ("c", VNum 99)] = true /\
      containedIn [("a", VNum 1); ("b", VNum 2)]
                  [("a", VNum 1); ("b", VNum 3)] = false /\
      containedIn [("a", VNum 1); ("toString", VUndef)] [("a", VNum 1)] = false.
Proof.
  intros url submissionResults w pre post result resp w' submittedProps
         Hurl Hnd Hsplit _ before Hpayload Hid Hfetch Hok.
  eexists. split; [apply (@final_entry url submissionResults w pre post result Hurl Hnd Hsplit)|].
  fold before. unfold Verification.rowUpdate.
  rewrite Hid, Hfetch. cbn [negb fst].
  unfold outcomeUpdate. rewrite Hok, Hpayload.
  split; [|split; [|split; [|repeat split]]].
  - intros retrievedProps Hbody. rewrite Hbody, compareData_objects.
    cbn [setCompared retrieved v_status].
    split; [reflexivity|]. split; [reflexivity|].
    split; [|split].
    + transitivity (containedIn submittedProps retrievedProps = true).
      * destruct (containedIn submittedProps retrievedProps); split;
          intros; try reflexivity; discriminate.
      * rewrite containedIn_spec. split; intros H k v Hin;
          apply sameAt_cases; exact (H k v Hin).
    + destruct (containedIn submittedProps retrievedProps);
        [intros H; now elim H | reflexivity].
    + intros other. apply containedIn_ext.
  - intros message ->. split; reflexivity.
  - intros -> Hne. destruct submittedProps as [|[k v] rest]; [now elim Hne|].
    split; reflexivity.
Qed.

(** A 2xx reply that cannot be compared ends in the [catch] block: a body
    that is not JSON, or the body [null] when the payload has a key to
    look up. *)
Lemma unreadable_body_is_an_error (result : SubmissionResult) (resp : Response)
    (entry : VerificationResult) :
  ok resp = true ->
  (forall message, body resp = NotJson message ->
     outcomeUpdate typeErrorMessage result (Responded resp) entry
     = setError message entry) /\
  (forall k v rest, body resp = Json VNull ->
     payload result = VObj ((k, v) :: rest) ->
     outcomeUpdate typeErrorMessage result (Responded resp) entry
     = setError typeErrorMessage entry).
Proof.
  intros Hok. unfold outcomeUpdate. rewrite Hok. split.
  - intros message ->. reflexivity.
  - intros k v rest -> ->. reflexivity.
Qed.

(** C9: when the verification request of a row is answered 404, the
    row's entry is [not_found], not [error]; when it is answered with any
    other status outside 2xx, the entry is [error] with the message
    "HTTP {status}: {statusText}". *)
Theorem C9_not_found_is_not_an_error :
  forall (url : string) (submissionResults : list SubmissionResult) (w : World)
         (pre post : list SubmissionResult) (result : SubmissionResult)
         (resp : Response) (w' : World),
    url <> "" ->
    NoDup (map rowIndex submissionResults) ->
    successfulSubmissions submissionResults = (pre ++ result :: post)%list ->
    let before := fold_left (verifyRow url) pre (initialised submissionResults w) in
    truthy (identifierOf result) = true ->
    fetch (world before) (verifyRequest url (identifierOf result))
      = (Responded resp, w') ->
    exists entry,
      entriesFor (rowIndex result)
                 (verificationResults (verifyAll (Some url) submissionResults w))
        = [entry] /\
      (Http.status resp = 404%Z ->
         v_status entry = NotFound /\ v_status entry <> VError) /\
      (ok resp = false -> Http.status resp <> 404%Z ->
         v_status entry = VError /\
         v_error entry =
           Some ("HTTP " ++ string_of_Z (Http.status resp) ++ ": " ++ statusText resp)).
Proof.
  intros url submissionResults w pre post result resp w'
         Hurl Hnd Hsplit before Hid Hfetch.
  eexists. split; [apply (@final_entry url submissionResults w pre post result Hurl Hnd Hsplit)|].
  fold before. unfold Verification.rowUpdate.
  rewrite Hid, Hfetch. cbn [negb fst]. unfold outcomeUpdate.
  split.
  - intros H404. unfold ok. rewrite H404. cbn. split; [reflexivity | discriminate].
  - intros Hok Hne. rewrite Hok.
    destruct (Z.eqb_spec (Http.status resp) 404) as [E|_]; [contradiction|].
    split; reflexivity.
Qed.

(** C10, amended: when neither [response.id], nor [response.ID], nor
    [payload.id] is truthy -- as when the response carries [id] or [ID]
    bound to 0, "", false or null and nothing else supplies an identifier
    -- the row's entry is [error] with the message "No identifier found in
    response", and the row's iteration sends no request. *)
Theorem C10_falsy_identifier_counts_as_absent :
  forall (url : string) (submissionResults : list SubmissionResult) (w : World)
         (pre post : list SubmissionResult) (result : SubmissionResult),
    url <> "" ->
    NoDup (map rowIndex submissionResults) ->
    successfulSubmissions submissionResults = (pre ++ result :: post)%list ->
    let before := fold_left (verifyRow url) pre (initialised submissionResults w) in
    truthy (opt_get (response result) "id") = false ->
    truthy (opt_get (response result) "ID") = false ->
    truthy (opt_get (payload result) "id") = false ->
    exists entry,
      entriesFor (rowIndex result)
                 (verificationResults (verifyAll (Some url) submissionResults w))
        = [entry] /\
      v_status entry = VError /\
      v_error entry = Some "No identifier found in response" /\
      sent (verifyRow url before result) = sent before.
Proof.
  intros url submissionResults w pre post result
         Hurl Hnd Hsplit before Hid1 Hid2 Hid3.
  assert (Hid : truthy (identifierOf result) = false).
  { unfold identifierOf, or. now rewrite Hid1, Hid2, Hid3. }
  eexists. split; [apply (@final_entry url submissionResults w pre post result Hurl Hnd Hsplit)|].
  fold before. unfold Verification.rowUpdate. rewrite Hid. cbn [negb].
  split; [reflexivity|]. split; [reflexivity|].
  rewrite verifyRow_sent, Hid. reflexivity.
Qed.

End Component.

Import Examples.

Lemma submissions_NoDup : NoDup (map rowIndex submissions).
Proof.
  repeat constructor; simpl; intuition discriminate.
Qed.

(** C8 on the specification's pair: {a:1, b:2} stored as
    {a:1, b:2, c:99}. *)
Lemma C8_extra_field_witness :
  exists entry,
    entriesFor 0 (verificationResults
                    (verifyAll "TypeError" records (Some exampleUrl) submissions tt))
      = [entry] /\
    v_status entry = Verified.
Proof.
  destruct (@C8_verified_iff_submitted_keys_match
              "TypeError" unit records exampleUrl submissions tt
              [] (tl submissions) (hd zeroId submissions)
              {| Http.status := 200; statusText := "OK"; headers := [];
                 body := Json (VObj [("a", VNum 1); ("b", VNum 2); ("c", VNum 99)]) |}
              tt
              [("a", VNum 1); ("b", VNum 2)])
    as (entry & Hentry & Hobject & _);
    try reflexivity; try discriminate; try apply submissions_NoDup.
  - repeat constructor.
  - exists entry. split; [exact Hentry|].
    destruct (Hobject _ eq_refl) as (_ & Hstatus & _). exact Hstatus.
Defined.

(** C8 as stated fails on a 2xx reply without a JSON body: the rejection
    of [verifyResponse.json()] lands in the [catch], and the row ends as
    [error], neither [verified] nor [mismatch]. *)
Lemma C8_empty_2xx_reply_is_an_error :
  let run :=
    verifyAll "TypeError" (Samples.always Samples.emptyReply)
              (Some exampleUrl) submissions tt in
  ok Samples.emptyReply = true /\
  map v_status (entriesFor 0 (verificationResults run)) = [VError].
Proof. split; reflexivity. Qed.

(** C9 on the third and the fourth submission: 404 and 500. *)
Lemma C9_not_found_witness :
  (exists entry,
      entriesFor 2 (verificationResults
                      (verifyAll "TypeError" records (Some exampleUrl) submissions tt))
        = [entry] /\
      v_status entry = NotFound) /\
  (exists entry,
      entriesFor 3 (verificationResults
                      (verifyAll "TypeError" records (Some exampleUrl) submissions tt))
        = [entry] /\
      v_status entry = VError /\
      v_error entry = Some "HTTP 500: Internal Server Error").
Proof.
  split.
  - destruct (@C9_not_found_is_not_an_error
                "TypeError" unit records exampleUrl submissions tt
                (firstn 2 submissions) (skipn 3 submissions)
                (nth 2 submissions zeroId)
                {| Http.status := 404; statusText := "Not Found";
                   headers := []; body := NotJson "Unexpected token <" |} tt)
      as (entry & Hentry & H404 & _);
      try reflexivity; try discriminate; try apply submissions_NoDup.
    exists entry. split; [exact Hentry | exact (proj1 (H404 eq_refl))].
  - destruct (@C9_not_found_is_not_an_error
                "TypeError" unit records exampleUrl submissions tt
                (firstn 3 submissions) (skipn 4 submissions)
                (nth 3 submissions zeroId)
                {| Http.status := 500; statusText := "Internal Server Error";
                   headers := []; body := NotJson "Unexpected token <" |} tt)
      as (entry & Hentry & _ & Hother);
      try reflexivity; try discriminate; try apply submissions_NoDup.
    exists entry. split; [exact Hentry|].
    apply Hother; [reflexivity | discriminate].
Defined.

(** C10 as stated fails: the response carries [id] bound to 0, the payload
    has no [id], and yet the pipeline finds the identifier "X7" under [ID],
    sends the GET and marks the row verified. *)
Lemma C10_falsy_id_beside_a_usable_ID :
  has_key [("id", VNum 0); ("ID", VStr "X7")] "id" = true /\
  truthy (opt_get (response zeroIdWithKey) "id") = false /\
  truthy (opt_get (payload zeroIdWithKey) "id") = false /\
  identifierOf zeroIdWithKey = VStr "X7" /\
  sent (verifyAll "TypeError" records (Some exampleUrl) [zeroIdWithKey] tt)
    = [ {| req_method := "GET"; req_url := "https://api.example/users/X7";
           req_body := None |} ] /\
  map (fun e => (v_status e, v_error e))
      (verificationResults
         (verifyAll "TypeError" records (Some exampleUrl) [zeroIdWithKey] tt))
    = [ (Verified, None) ].
Proof.
  repeat split; reflexivity.
Qed.

(** C10, amended, on a response whose only identifier is [id: 0]. *)
Lemma C10_zero_id_witness :
  exists entry,
    entriesFor 0 (verificationResults
                    (verifyAll "TypeError" records (Some exampleUrl) [zeroId] tt))
      = [entry] /\
    v_status entry = VError /\
    v_error entry = Some "No identifier found in response" /\
    sent (verifyAll "TypeError" records (Some exampleUrl) [zeroId] tt) = [].
Proof.
  destruct (@C10_falsy_identifier_counts_as_absent
              "TypeError" unit records exampleUrl [zeroId] tt [] [] zeroId)
    as (entry & Hentry & Hstatus & Herror & _);
    try reflexivity; try discriminate.
  - repeat constructor. simpl. tauto.
  - exists entry. repeat split; assumption || reflexivity.
Defined.

End VerificationFacts.

(* ===================================================================== *)
(** * Facts about writing and reading properties                           *)
(* ===================================================================== *)

Module ObjectFacts.

Import Submission.

(** ** Assignment to a property *)

Lemma hasOwn_In {A} (ps : list (string * A)) (k : string) :
  hasOwn ps k = true <-> In k (map fst ps).
Proof.
  unfold hasOwn. rewrite existsb_exists, in_map_iff. split.
  - intros (p & Hin & E). apply String.eqb_eq in E. now exists p.
  - intros (p & E & Hin). exists p. split; [exact Hin | now apply String.eqb_eq].
Qed.

Lemma hasOwn_false {A} (ps : list (string * A)) (k : string) :
  hasOwn ps k = false <-> ~ In k (map fst ps).
Proof.
  rewrite <- hasOwn_In. destruct (hasOwn ps k); split; intros H;
    try reflexivity; try discriminate; try (now elim H).
Qed.

Lemma keys_replaceOwn {A} (ps : list (string * A)) (k : string) (v : A) :
  map fst (replaceOwn ps k v) = map fst ps.
Proof.
  induction ps as [|[k0 v0] ps IH]; simpl; [reflexivity|].
  destruct (k0 =? k); simpl; [reflexivity | now rewrite IH].
Qed.

Lemma insertIndex_split {A} (n : Z) (ps : list (string * A)) (k : string) (v : A) :
  exists pre post,
    ps = (pre ++ post)%list /\
    insertIndex n ps k v = (pre ++ (k, v) :: post)%list.
Proof.
  induction ps as [|[k0 v0] ps IH]; simpl.
  - now exists [], [].
  - destruct (arrayIndex k0) as [n0|]; [destruct (n0 <? n)%Z|].
    + destruct IH as (pre & post & -> & ->).
      now exists ((k0, v0) :: pre), post.
    + now exists [], ((k0, v0) :: ps).
    + now exists [], ((k0, v0) :: ps).
Qed.

(** The three things an assignment can do. *)
Lemma assign_cases {A} (ps : list (string * A)) (k : string) (v : A) :
  (In k (map fst ps) /\ assign ps k v = replaceOwn ps k v) \/
  (~ In k (map fst ps) /\ k = "__proto__" /\ assign ps k v = ps) \/
  (~ In k (map fst ps) /\ k <> "__proto__" /\
   exists pre post,
     ps = (pre ++ post)%list /\ assign ps k v = (pre ++ (k, v) :: post)%list).
Proof.
  unfold assign. destruct (hasOwn ps k) eqn:Eo.
  - left. split; [now apply hasOwn_In | reflexivity].
  - right. apply hasOwn_false in Eo.
    destruct (String.eqb_spec k "__proto__") as [E|E]; [left; tauto|].
    right. split; [exact Eo|]. split; [exact E|].
    destruct (arrayIndex k) as [n|].
    + apply insertIndex_split.
    + exists ps, []. now rewrite app_nil_r.
Qed.

Lemma assign_plain {A} (ps : list (string * A)) (k : string) (v : A) :
  plainKey k = true -> ~ In k (map fst ps) ->
  assign ps k v = (ps ++ [(k, v)])%list.
Proof.
  unfold plainKey, assign. intros Hp Hnot.
  apply hasOwn_false in Hnot. rewrite Hnot.
  apply andb_true_iff in Hp. destruct Hp as [Hp Hi].
  apply negb_true_iff in Hp. rewrite Hp.
  destruct (arrayIndex k); [discriminate | reflexivity].
Qed.

Lemma keys_assign {A} (ps : list (string * A)) (k : string) (v : A) (k' : string) :
  k <> "__proto__" ->
  In k' (map fst (assign ps k v)) <-> k' = k \/ In k' (map fst ps).
Proof.
  intros Hk.
  destruct (assign_cases ps k v)
    as [[Hin ->] | [(_ & E & _) | (Hnot & _ & pre & post & -> & ->)]].
  - rewrite keys_replaceOwn. split; [tauto | intros [->|H]; assumption].
  - contradiction.
  - rewrite !map_app. simpl. rewrite !in_app_iff. simpl. intuition congruence.
Qed.

Lemma keys_assign_iff {A} (ps : list (string * A)) (k : string) (v : A) (k' : string) :
  In k' (map fst (assign ps k v)) <->
  (k' = k /\ k <> "__proto__") \/ In k' (map fst ps).
Proof.
  destruct (assign_cases ps k v)
    as [[Hin ->] | [(_ & E & ->) | (Hnot & Hk & pre & post & -> & ->)]].
  - rewrite keys_replaceOwn. split; [tauto | intros [[-> _]|H]; assumption].
  - tauto.
  - rewrite !map_app. simpl. rewrite !in_app_iff. simpl. intuition congruence.
Qed.

Lemma keys_assign_incl {A} (ps : list (string * A)) (k : string) (v : A) (k' : string) :
  In k' (map fst (assign ps k v)) -> k' = k \/ In k' (map fst ps).
Proof.
  destruct (assign_cases ps k v)
    as [[Hin ->] | [(_ & _ & ->) | (Hnot & _ & pre & post & -> & ->)]].
  - rewrite keys_replaceOwn. tauto.
  - tauto.
  - rewrite !map_app. simpl. rewrite !in_app_iff. simpl. intuition congruence.
Qed.

Lemma NoDup_assign {A} (ps : list (string * A)) (k : string) (v : A) :
  NoDup (map fst ps) -> NoDup (map fst (assign ps k v)).
Proof.
  intros Hnd.
  destruct (assign_cases ps k v)
    as [[Hin ->] | [(_ & _ & ->) | (Hnot & _ & pre & post & -> & ->)]].
  - now rewrite keys_replaceOwn.
  - exact Hnd.
  - rewrite map_app in *. simpl. apply NoDup_Add with (a := k) (l := (map fst pre ++ map fst post)%list).
    + apply Add_app.
    + split; assumption.
Qed.

(** ** Reads after an assignment *)

Lemma lookup_In (ps : list (string * JsVal)) (k : string) :
  lookup ps k <> None <-> In k (map fst ps).
Proof.
  induction ps as [|[k0 v0] ps IH]; simpl; [tauto|].
  destruct (String.eqb_spec k0 k) as [E|E].
  - split; [intros _; now left | intros _; discriminate].
  - rewrite IH. split; [tauto | intros [H|H]; [contradiction | exact H]].
Qed.

Lemma has_key_In (ps : list (string * JsVal)) (k : string) :
  has_key ps k = true <-> In k (map fst ps).
Proof.
  rewrite <- lookup_In. unfold has_key.
  destruct (lookup ps k); split; intros H; try reflexivity; try discriminate.
  now elim H.
Qed.

Lemma lookup_replaceOwn_same (ps : list (string * JsVal)) (k : string) (v : JsVal) :
  In k (map fst ps) -> lookup (replaceOwn ps k v) k = Some v.
Proof.
  induction ps as [|[k0 v0] ps IH]; simpl; [tauto|].
  intros Hin. destruct (String.eqb_spec k0 k) as [E|E]; simpl.
  - subst k0. now rewrite String.eqb_refl.
  - destruct (String.eqb_spec k0 k); [contradiction|].
    apply IH. destruct Hin; [contradiction | assumption].
Qed.

Lemma lookup_replaceOwn_other (ps : list (string * JsVal)) (k k' : string) (v : JsVal) :
  k <> k' -> lookup (replaceOwn ps k v) k' = lookup ps k'.
Proof.
  intros Hne. induction ps as [|[k0 v0] ps IH]; simpl; [reflexivity|].
  destruct (String.eqb_spec k0 k) as [E|E]; simpl.
  - subst k0. destruct (String.eqb_spec k k'); [contradiction | reflexivity].
  - destruct (k0 =? k'); [reflexivity | exact IH].
Qed.

Lemma lookup_app (pre post : list (string * JsVal)) (k : string) :
  lookup (pre ++ post) k =
  match lookup pre k with Some v => Some v | None => lookup post k end.
Proof.
  induction pre as [|[k0 v0] pre IH]; simpl; [reflexivity|].
  destruct (k0 =? k); [reflexivity | exact IH].
Qed.

Lemma lookup_setProp_same (ps : list (string * JsVal)) (k : string) (v : JsVal) :
  k <> "__proto__" -> lookup (setProp ps k v) k = Some v.
Proof.
  intros Hk. unfold setProp.
  destruct (assign_cases ps k v)
    as [[Hin ->] | [(_ & E & _) | (Hnot & _ & pre & post & -> & ->)]].
  - now apply lookup_replaceOwn_same.
  - contradiction.
  - rewrite lookup_app.
    destruct (lookup pre k) eqn:El.
    + exfalso. apply Hnot. rewrite map_app, in_app_iff. left.
      apply lookup_In. congruence.
    + simpl. now rewrite String.eqb_refl.
Qed.

Lemma lookup_setProp_other (ps : list (string * JsVal)) (k k' : string) (v : JsVal) :
  k <> k' -> lookup (setProp ps k v) k' = lookup ps k'.
Proof.
  intros Hne. unfold setProp.
  destruct (assign_cases ps k v)
    as [[Hin ->] | [(_ & _ & ->) | (Hnot & _ & pre & post & -> & ->)]].
  - now apply lookup_replaceOwn_other.
  - reflexivity.
  - rewrite !lookup_app. simpl.
    destruct (String.eqb_spec k k'); [contradiction | reflexivity].
Qed.

Lemma own_setProp_same (ps : list (string * JsVal)) (k : string) (v : JsVal) :
  k <> "__proto__" -> own (setProp ps k v) k = v.
Proof. intros H. unfold own. now rewrite lookup_setProp_same. Qed.

Lemma own_setProp_other (ps : list (string * JsVal)) (k k' : string) (v : JsVal) :
  k <> k' -> own (setProp ps k v) k' = own ps k'.
Proof. intros H. unfold own. now rewrite lookup_setProp_other. Qed.

Lemma keys_setProp (ps : list (string * JsVal)) (k : string) (v : JsVal) (k' : string) :
  k <> "__proto__" ->
  In k' (map fst (setProp ps k v)) <-> k' = k \/ In k' (map fst ps).
Proof. apply keys_assign. Qed.

Lemma keys_setProp_iff (ps : list (string * JsVal)) (k : string) (v : JsVal)
    (k' : string) :
  In k' (map fst (setProp ps k v)) <->
  (k' = k /\ k <> "__proto__") \/ In k' (map fst ps).
Proof. apply keys_assign_iff. Qed.

(** Array indices are listed first, in numeric order, whenever they are
    assigned; [__proto__] is not listed at all. *)
Example index_keys_come_first :
  map fst (fold_left (fun payload k => setProp payload k (VStr k))
                     ["b"; "10"; "__proto__"; "2"] [])
  = ["2"; "10"; "b"].
Proof. reflexivity. Qed.

Lemma NoDup_setProp (ps : list (string * JsVal)) (k : string) (v : JsVal) :
  NoDup (map fst ps) -> NoDup (map fst (setProp ps k v)).
Proof. apply NoDup_assign. Qed.

End ObjectFacts.

(* ===================================================================== *)
(** * Facts about the spreadsheet parsers and the upload step              *)
(* ===================================================================== *)

Module SheetFacts.

Import Submission Sheets FileUpload ObjectFacts.

Lemma indexOf_first (x : string) (pre suf : list string) :
  indexOf x (pre ++ x :: suf)%list = Some (List.length pre) <-> ~ In x pre.
Proof.
  induction pre as [|y pre IH]; simpl.
  - rewrite String.eqb_refl. tauto.
  - destruct (y =? x) eqn:E.
    + apply String.eqb_eq in E. subst y. split; [discriminate | tauto].
    + assert (Hne : y <> x) by (intros ->; now rewrite String.eqb_refl in E).
      destruct (indexOf x (pre ++ x :: suf)%list) as [i|] eqn:Ei.
      * split.
        -- intros H. injection H as H. subst i.
           intros [Hy | Hin]; [contradiction | now apply IH].
        -- intros H. f_equal. f_equal.
           assert (Some i = Some (List.length pre)) as Hi by (apply IH; tauto).
           now injection Hi.
      * split; [discriminate |].
        intros H. assert (None = Some (List.length pre)) as Hi by (apply IH; tauto).
        discriminate.
Qed.

(** The filter of [validateSpreadsheetData] keeps a header exactly when it
    occurred earlier in the list. *)
Lemma duplicates_from (l pre suf : list string) :
  l = (pre ++ suf)%list ->
  filter (fun ih => match indexOf (snd ih) l with
                    | Some i => negb (i =? fst ih)%nat
                    | None => true
                    end)
         (combine (seq (List.length pre) (List.length suf)) suf) = []
  <-> NoDup suf /\ (forall x, In x suf -> ~ In x pre).
Proof.
  revert pre. induction suf as [|x suf IH]; intros pre Hl; simpl.
  - split; [intros _; split; [constructor | intros ? []] | reflexivity].
  - specialize (IH (pre ++ [x])%list).
    rewrite <- app_assoc in IH. simpl in IH. specialize (IH Hl).
    rewrite length_app in IH. simpl in IH.
    replace (List.length pre + 1) with (S (List.length pre)) in IH by lia.
    pose proof (indexOf_first x pre suf) as Hfirst. rewrite <- Hl in Hfirst.
    destruct (indexOf x l) as [i|] eqn:Ei.
    + destruct (i =? List.length pre)%nat eqn:Eq; simpl.
      * apply Nat.eqb_eq in Eq. subst i.
        assert (Hx : ~ In x pre) by (apply Hfirst; reflexivity).
        rewrite IH. split.
        -- intros [Hnd Hall]. split.
           ++ constructor; [|assumption].
              intros Hin. apply (Hall x Hin). apply in_or_app. right. now left.
           ++ intros y [<- | Hin]; [assumption |].
              intros Hp. apply (Hall y Hin). apply in_or_app. now left.
        -- intros [Hnd Hall]. inversion Hnd as [|? ? Hnotin Hnd']; subst. split.
           ++ assumption.
           ++ intros y Hin Hp. apply in_app_or in Hp. destruct Hp as [Hp | [<- | []]].
              ** apply (Hall y); [now right | assumption].
              ** contradiction.
      * split; [discriminate |].
        intros [_ Hall]. exfalso.
        apply Nat.eqb_neq in Eq. apply Eq.
        assert (Some i = Some (List.length pre)) as Hi
          by (apply Hfirst, Hall; now left).
        now injection Hi.
    + split; [discriminate |].
      intros [_ Hall]. exfalso.
      assert (None = Some (List.length pre)) as Hi by (apply Hfirst, Hall; now left).
      discriminate.
Qed.

Lemma duplicateHeaders_nil (headers : list string) :
  duplicateHeaders headers = [] <-> NoDup headers.
Proof.
  unfold duplicateHeaders.
  pose proof (@duplicates_from headers [] headers eq_refl) as H. simpl in H.
  split.
  - intros Hm. apply map_eq_nil in Hm. apply H in Hm. tauto.
  - intros Hnd. assert (Hf : NoDup headers /\ (forall x, In x headers -> ~ False))
      by (split; [assumption | tauto]).
    apply H in Hf. now rewrite Hf.
Qed.

(** A sheet passes [validateSpreadsheetData] exactly when it has a header,
    a data row, and no header twice. *)
Theorem validateSpreadsheetData_accepts (data : SpreadsheetData) :
  validateSpreadsheetData data = [] <->
  sheet_headers data <> [] /\ rows data <> [] /\ NoDup (sheet_headers data).
Proof.
  unfold validateSpreadsheetData.
  rewrite <- duplicateHeaders_nil.
  destruct (sheet_headers data) as [|h hs] eqn:Eh;
    destruct (rows data) as [|r rs] eqn:Er; simpl;
    try (split; [discriminate | intros (H1 & H2 & H3); congruence]).
  destruct (duplicateHeaders (h :: hs)) as [|d ds] eqn:Ed; simpl.
  - split; [intros _; repeat split; congruence | reflexivity].
  - split; [discriminate | intros (_ & _ & H); discriminate].
Qed.

Lemma fillRow_absent (headers : list string) (c : nat) (cells : list JsVal)
    (acc : Row) (header : string) :
  ~ In header headers ->
  own (fillRow headers c cells acc) header = own acc header.
Proof.
  revert c acc. induction headers as [|h rest IH]; intros c acc Hnotin; simpl.
  - reflexivity.
  - rewrite IH by (intros Hin; apply Hnotin; now right).
    apply own_setProp_other. intros ->. apply Hnotin. now left.
Qed.

Lemma fillRow_present (headers : list string) (c j : nat) (cells : list JsVal)
    (acc : Row) (header : string) :
  NoDup headers ->
  nth_error headers j = Some header ->
  header <> "__proto__" ->
  own (fillRow headers c cells acc) header = or (nth (c + j) cells VUndef) (VStr "").
Proof.
  revert c j acc. induction headers as [|h rest IH]; intros c j acc Hnd Hj Hp.
  - destruct j; discriminate.
  - inversion Hnd as [|? ? Hnotin Hnd']; subst.
    destruct j as [|j]; simpl in *.
    + injection Hj as ->. rewrite fillRow_absent by assumption.
      rewrite Nat.add_0_r. now apply own_setProp_same.
    + rewrite (IH (S c) j) by assumption. f_equal. f_equal. lia.
Qed.

Lemma fillRow_keys (headers : list string) (c : nat) (cells : list JsVal)
    (acc : Row) (k : string) :
  In k (map fst (fillRow headers c cells acc)) <->
  (In k headers /\ k <> "__proto__") \/ In k (map fst acc).
Proof.
  revert c acc. induction headers as [|h rest IH]; intros c acc; simpl.
  - tauto.
  - rewrite IH, keys_setProp_iff. intuition congruence.
Qed.

Lemma buildRowsFrom_nth (headers : list string) (rowsData : list (list JsVal))
    (index k : nat) :
  nth_error (buildRowsFrom headers index rowsData) k =
  option_map (fun cells => buildRow headers cells (index + k)) (nth_error rowsData k).
Proof.
  revert index k. induction rowsData as [|cells rest IH]; intros index k; simpl.
  - now destruct k.
  - destruct k as [|k]; simpl.
    + now rewrite Nat.add_0_r.
    + rewrite IH. now replace (S index + k) with (index + S k) by lia.
Qed.

Lemma buildRowsFrom_length (headers : list string) (rowsData : list (list JsVal))
    (index : nat) :
  List.length (buildRowsFrom headers index rowsData) = List.length rowsData.
Proof.
  revert index. induction rowsData as [|cells rest IH]; intros index; simpl;
    [reflexivity | now rewrite IH].
Qed.

(** Every row object carries every header as a key, whatever the cells;
    the one header that is no key is [__proto__]. *)
Lemma buildRow_has_headers (headers : list string) (cells : list JsVal)
    (index : nat) (header : string) :
  In header headers -> header <> "__proto__" ->
  In header (map fst (buildRow headers cells index)).
Proof.
  intros Hin Hp. unfold buildRow. rewrite keys_setProp_iff, fillRow_keys. tauto.
Qed.

Lemma buildRow_no_proto (headers : list string) (cells : list JsVal) (index : nat) :
  has_key (buildRow headers cells index) "__proto__" = false.
Proof.
  destruct (has_key (buildRow headers cells index) "__proto__") eqn:E;
    [|reflexivity].
  apply has_key_In in E. unfold buildRow in E.
  rewrite keys_setProp_iff, fillRow_keys in E. simpl in E.
  intuition discriminate.
Qed.

(** The row objects [parseXLSXFile] builds when the header cells are
    printable values and the headers are distinct: data row [k] of the
    sheet becomes the row at position [k], numbered [k] under [_rowIndex],
    and under each header other than [_rowIndex] and [__proto__] it holds
    the cell of that column, or the empty string when the cell is missing
    or falsy (0, false, null, '').  The cells of a column headed
    [_rowIndex] are overwritten by the row number, and those of a column
    headed [__proto__] are not stored: the row has no such key. *)
Theorem parseXLSXFile_cells (first : list JsVal) (rest : list (list JsVal))
    (data : SpreadsheetData) (k j : nat) (cells : list JsVal) (header : string) :
  parseXLSXFile (Read (Cells (first :: rest))) = Resolved data ->
  Forall (fun h => printable h = true) first ->
  NoDup (sheet_headers data) ->
  nth_error rest k = Some cells ->
  nth_error (sheet_headers data) j = Some header ->
  List.length (rows data) = List.length rest /\
  exists r, nth_error (rows data) k = Some r /\
            own r "_rowIndex" = VNum (Z.of_nat k) /\
            has_key r "__proto__" = false /\
            (header <> "_rowIndex" -> header <> "__proto__" ->
             own r header = or (nth j cells VUndef) (VStr "")).
Proof.
  intros Hparse _ Hnd Hk Hj. simpl in Hparse. injection Hparse as <-.
  simpl in *. unfold buildRows. split; [apply buildRowsFrom_length |].
  exists (buildRow (headersOf first) cells k). repeat split.
  - rewrite buildRowsFrom_nth, Hk. reflexivity.
  - apply own_setProp_same. discriminate.
  - apply buildRow_no_proto.
  - intros Hne Hp. unfold buildRow. rewrite own_setProp_other by congruence.
    now rewrite (@fillRow_present _ 0 j cells [] header Hnd Hj Hp).
Qed.

Lemma parseXLSXFile_cells_witness :
  exists r, nth_error (rows {| sheet_headers := ["id"; "qty"];
                               rows := buildRows ["id"; "qty"] [[VNum 7; VNum 0]] |}) 0
            = Some r /\
            own r "_rowIndex" = VNum 0 /\ own r "qty" = VStr "".
Proof.
  destruct (proj2 (@parseXLSXFile_cells [VStr " id "; VStr "qty"] [[VNum 7; VNum 0]]
                     _ 0 1 [VNum 7; VNum 0] "qty" eq_refl
                     ltac:(repeat constructor)
                     ltac:(simpl; repeat constructor; simpl; intuition discriminate)
                     eq_refl eq_refl))
    as (r & Hr & Hindex & _ & Hcell).
  exists r. split; [exact Hr|]. split; [exact Hindex|].
  apply Hcell; discriminate.
Defined.

(** The two parsers on an .xlsx file: [parseSpreadsheetFile] resolves
    exactly when [parseXLSXFile] resolves with at least one data row, and
    then with the same data.  A sheet that has only a header row is
    accepted by the first and rejected by the second. *)
Theorem parsers_agree_on_xlsx (typeErrorMessage name : string) (read : FileRead)
    (data : SpreadsheetData) :
  extensionOf name = "xlsx" ->
  (parseSpreadsheetFile typeErrorMessage name read = Resolved data <->
   parseXLSXFile read = Resolved data /\ rows data <> []).
Proof.
  intros Hext. unfold parseSpreadsheetFile. rewrite Hext. simpl.
  destruct read as [|[[|first [|cells rest]]|message]]; simpl;
    try (split; [discriminate | intros [H _]; discriminate]).
  - split; [discriminate |].
    intros [H Hrows]. injection H as <-. now elim Hrows.
  - split.
    + intros H. injection H as <-. split; [reflexivity | discriminate].
    + intros [H _]. exact H.
Qed.

Lemma parsers_agree_on_xlsx_witness :
  parseSpreadsheetFile "undefined has no properties" "Orders.XLSX"
                       (Read (Cells [[VStr "id"]])) =
    Resolved {| sheet_headers := ["id"]; rows := [] |} <->
  parseXLSXFile (Read (Cells [[VStr "id"]])) =
    Resolved {| sheet_headers := ["id"]; rows := [] |} /\
  rows {| sheet_headers := ["id"]; rows := [] |} <> [].
Proof.
  apply (@parsers_agree_on_xlsx "undefined has no properties" "Orders.XLSX").
  reflexivity.
Defined.

(** The upload step hands a sheet on exactly when the file name ends in
    .xlsx (in any letter case), the parser resolved with that sheet, and
    the validator found nothing wrong with it. *)
Theorem handleFile_uploads (name : string) (read : FileRead) (data : SpreadsheetData) :
  handleFile name read = Uploaded data <->
  endsWith ".xlsx" (toLowerCase name) = true /\
  parseXLSXFile read = Resolved data /\
  validateSpreadsheetData data = [].
Proof.
  unfold handleFile.
  destruct (endsWith ".xlsx" (toLowerCase name)); simpl;
    [| split; [discriminate | intros [H _]; discriminate]].
  destruct (parseXLSXFile read) as [d|message];
    [| split; [discriminate | intros (_ & H & _); discriminate]].
  destruct (validateSpreadsheetData d) as [|e es] eqn:Ev; simpl.
  - split.
    + intros H. injection H as <-. repeat split; assumption.
    + intros (_ & H & _). injection H as <-. reflexivity.
  - split; [discriminate |].
    intros (_ & H & Hv). injection H as <-. congruence.
Qed.

End SheetFacts.

(* ===================================================================== *)
(** * Facts about the credentials step                                     *)
(* ===================================================================== *)

Module CredentialsFacts.

Import Credentials.

Section Platform.

Variable validUrl : string -> bool.
Variable btoa : string -> string + string.
Variable World : Type.
Variable fetch : World -> Request -> FetchOutcome * World.

Lemma nonempty_eqb (s : string) : (s =? "") = false <-> s <> "".
Proof.
  split.
  - intros H ->. discriminate.
  - intros H. destruct s; [now elim H | reflexivity].
Qed.

(** The connection test has two ways to end, never a third: it resolves
    with [true] or it throws; the branch of the form that handles a
    [false] answer cannot run. *)
Theorem testConnection_never_false (credentials : ApiCredentials) (w : World) :
  outcome (testConnection fetch credentials w) <> inr false.
Proof.
  unfold testConnection.
  destruct (fetch w _) as [[r|message] w']; simpl; [|discriminate].
  destruct (ok r); discriminate.
Qed.

(** The form reports the credentials as validated exactly when the three
    fields are filled in, the base URL parses, the user name and password
    can be encoded, and the one GET sent to the base URL is answered with
    a 2xx status.  The credentials handed on are the ones typed in. *)
Theorem validateCredentials_connected (credentials validated : ApiCredentials)
    (w : World) :
  outcome (validateCredentials validUrl btoa fetch credentials w) = Connected validated
  <->
  validated = credentials /\
  baseUrl credentials <> "" /\ username credentials <> "" /\
  password credentials <> "" /\
  validUrl (baseUrl credentials) = true /\
  (exists encoded,
      btoa (username credentials ++ ":" ++ password credentials) = inr encoded) /\
  (exists response,
      fst (fetch w {| req_method := "GET"; req_url := baseUrl credentials;
                      req_body := None |}) = Responded response /\
      ok response = true).
Proof.
  unfold validateCredentials, testConnection.
  rewrite <- !nonempty_eqb.
  destruct (baseUrl credentials =? ""); simpl;
    [split; [discriminate | intros (_ & H & _); discriminate] |].
  destruct (username credentials =? ""); simpl;
    [split; [discriminate | intros (_ & _ & H & _); discriminate] |].
  destruct (password credentials =? ""); simpl;
    [split; [discriminate | intros (_ & _ & _ & H & _); discriminate] |].
  destruct (validUrl (baseUrl credentials)); simpl;
    [| split; [discriminate | intros (_ & _ & _ & _ & H & _); discriminate]].
  destruct (btoa _) as [message|encoded]; simpl;
    [split; [discriminate | intros (_ & _ & _ & _ & _ & [e He] & _); discriminate] |].
  destruct (fetch w _) as [[r|message] w']; simpl.
  - destruct (ok r) eqn:Eok; simpl.
    + split.
      * intros H. injection H as <-. repeat split; eauto.
      * intros (-> & _). reflexivity.
    + split; [discriminate |].
      intros (_ & _ & _ & _ & _ & _ & [r' [Hr Hok]]). injection Hr as <-. congruence.
  - split; [discriminate |].
    intros (_ & _ & _ & _ & _ & _ & [r' [Hr Hok]]). discriminate.
Qed.

End Platform.

End CredentialsFacts.

(* ===================================================================== *)
(** * Facts about the URL the application hands to the verification step   *)
(* ===================================================================== *)

Module AppFacts.

Import AppShell.

Lemma toUpperCase_app (a b : string) :
  toUpperCase (a ++ b) = toUpperCase a ++ toUpperCase b.
Proof. induction a as [|c a IH]; simpl; [reflexivity | now rewrite IH]. Qed.

Lemma toUpperCase_length (s : string) :
  String.length (toUpperCase s) = String.length s.
Proof. induction s as [|c s IH]; simpl; [reflexivity | now rewrite IH]. Qed.

Lemma append_assoc (a b c : string) : (a ++ b) ++ c = a ++ (b ++ c).
Proof. induction a as [|x a IH]; simpl; [reflexivity | now rewrite IH]. Qed.

Lemma dropChars_app (v post : string) :
  dropChars (String.length v) (v ++ post) = post.
Proof. induction v as [|c v IH]; simpl; [now destruct post | exact IH]. Qed.

Lemma dropChars_length (n : nat) (s : string) :
  String.length (dropChars n s) <= String.length s.
Proof.
  revert s. induction n as [|n IH]; intros s; simpl; [lia |].
  destruct s as [|c s]; simpl; [lia |]. specialize (IH s). lia.
Qed.

Lemma prefix_app (w x : string) : String.prefix w (w ++ x) = true.
Proof.
  induction w as [|c w IH]; simpl; [now destruct x |].
  destruct (ascii_dec c c); [exact IH | congruence].
Qed.

(** A verb has no slash in it, so a match cannot run across one. *)
Lemma prefix_before_slash (w a b : string) :
  (forall k, String.get k w <> Some "/"%char) ->
  String.prefix w (a ++ String "/" b) = true -> String.prefix w a = true.
Proof.
  revert a. induction w as [|c w IH]; intros a Hw H.
  - now destruct a.
  - destruct a as [|d a]; simpl in *.
    + destruct (ascii_dec c "/") as [->|Hne]; [| discriminate].
      now elim (Hw 0).
    + destruct (ascii_dec c d); [| discriminate].
      apply IH; [| assumption]. intros k. apply (Hw (S k)).
Qed.

Lemma verbs_have_no_slash (w : string) (k : nat) :
  In w verbsToStrip -> String.get k w <> Some "/"%char.
Proof.
  intros [<- | [<- | [<- | []]]];
    do 7 (destruct k as [|k]; [discriminate |]); discriminate.
Qed.

Lemma verbAtHead_before_slash (t rest : string) :
  verbAtHead t = None -> verbAtHead (t ++ String "/" rest) = None.
Proof.
  unfold verbAtHead. intros Hnone.
  match goal with |- ?found = None => destruct found as [w|] eqn:Ef end;
    [| reflexivity].
  apply find_some in Ef. destruct Ef as [Hin Hp].
  rewrite toUpperCase_app in Hp. simpl in Hp.
  apply prefix_before_slash in Hp; [| intros k; now apply verbs_have_no_slash].
  now rewrite (find_none _ _ Hnone w Hin) in Hp.
Qed.

Lemma verbAtHead_found (v post : string) :
  In (toUpperCase v) verbsToStrip ->
  verbAtHead (v ++ post) = Some (toUpperCase v).
Proof.
  unfold verbAtHead. rewrite toUpperCase_app.
  intros [H | [H | [H | []]]]; rewrite <- H; simpl;
    now destruct (toUpperCase post).
Qed.

Lemma verbAtHead_split (t w : string) :
  verbAtHead t = Some w ->
  In w verbsToStrip /\
  exists v post, t = v ++ post /\ toUpperCase v = w /\
                 dropChars (String.length w) t = post.
Proof.
  unfold verbAtHead. intros Hf. apply find_some in Hf. destruct Hf as [Hin Hp].
  split; [assumption |]. clear Hin. revert t Hp.
  induction w as [|c w IH]; intros t Hp.
  - exists "", t. now destruct t.
  - destruct t as [|d t]; simpl in Hp; [discriminate |].
    destruct (ascii_dec c (upper_char d)) as [->|]; [| discriminate].
    destruct (IH t Hp) as (v & post & -> & <- & Hd).
    exists (String d v), post. simpl. repeat split. exact Hd.
Qed.

Lemma stripVerb_unchanged_tail (c : ascii) (t : string) :
  stripVerb (String c t) = String c t ->
  stripVerb t = t /\ (c = "/"%char -> verbAtHead t = None).
Proof.
  simpl. destruct (Ascii.eqb c "/") eqn:Ec.
  - destruct (verbAtHead t) as [w|] eqn:Ev.
    + intros H. exfalso.
      pose proof (dropChars_length (String.length w) t) as Hlen.
      rewrite H in Hlen. simpl in Hlen. lia.
    + intros H. injection H as H. split; [assumption | reflexivity].
  - intros H. injection H as H. split; [assumption |].
    intros ->. discriminate.
Qed.

(** The replacement cuts the first slash that is followed by POST, PUT or
    DELETE in any letter case, together with that word, wherever it
    stands: the word need not be a whole path segment. *)
Theorem stripVerb_cuts_first_match (pre v post : string) :
  In (toUpperCase v) verbsToStrip ->
  stripVerb pre = pre ->
  stripVerb (pre ++ String "/" (v ++ post)) = pre ++ post.
Proof.
  intros Hv. induction pre as [|c pre IH]; intros Hpre.
  - simpl. rewrite (@verbAtHead_found v post Hv).
    rewrite toUpperCase_length. apply dropChars_app.
  - apply stripVerb_unchanged_tail in Hpre. destruct Hpre as [Htail Hhead].
    simpl. destruct (Ascii.eqb c "/") eqn:Ec.
    + apply Ascii.eqb_eq in Ec.
      rewrite (@verbAtHead_before_slash pre _ (Hhead Ec)). now rewrite IH.
    + now rewrite IH.
Qed.

Lemma stripVerb_cuts_first_match_witness :
  stripVerb ("https://erp.example/api" ++ String "/" ("post" ++ "ings")) =
  "https://erp.example/api" ++ "ings".
Proof.
  apply (@stripVerb_cuts_first_match "https://erp.example/api" "post" "ings").
  - left. reflexivity.
  - reflexivity.
Defined.

(** Nothing else is touched: the result is the URL itself, or the URL
    with one such slash-and-word removed. *)
Theorem stripVerb_cases (url : string) :
  stripVerb url = url \/
  exists pre v post,
    url = pre ++ String "/" (v ++ post) /\
    In (toUpperCase v) verbsToStrip /\
    stripVerb pre = pre /\
    stripVerb url = pre ++ post.
Proof.
  induction url as [|c t IH]; [now left |].
  simpl. destruct (Ascii.eqb c "/") eqn:Ec.
  - apply Ascii.eqb_eq in Ec. subst c.
    destruct (verbAtHead t) as [w|] eqn:Ev.
    + right. apply verbAtHead_split in Ev.
      destruct Ev as (Hin & v & post & -> & <- & Hd).
      exists "", v, post. repeat split; assumption.
    + destruct IH as [IH | (pre & v & post & -> & Hin & Hpre & Hs)].
      * left. now rewrite IH.
      * right. exists (String "/" pre), v, post. repeat split; try assumption.
        -- simpl. destruct (verbAtHead pre) eqn:Ep; [| now rewrite Hpre].
           exfalso. apply verbAtHead_split in Ep.
           destruct Ep as (Hin' & v' & post' & Heq & Hup & _).
           assert (Hp : String.prefix (toUpperCase v')
                          (toUpperCase (pre ++ String "/" (v ++ post))) = true).
           { rewrite Heq, append_assoc, toUpperCase_app. apply prefix_app. }
           unfold verbAtHead in Ev.
           rewrite Hup in Hp. now rewrite (find_none _ _ Ev _ Hin') in Hp.
        -- simpl. now rewrite Hs.
  - destruct IH as [IH | (pre & v & post & -> & Hin & Hpre & Hs)].
    + left. now rewrite IH.
    + right. exists (String c pre), v, post. repeat split; try assumption.
      * simpl. now rewrite Ec, Hpre.
      * simpl. now rewrite Hs.
Qed.

End AppFacts.

(* ===================================================================== *)
(** * Facts about editing the mapping set                                  *)
(* ===================================================================== *)

Module MappingFacts.

Import DataMapping MappingSession MappingPreview.

Lemma findMapping_none (ms : list FieldMapping) (f : string) :
  findMapping ms f = None <-> ~ In f (map apiField ms).
Proof.
  unfold findMapping. induction ms as [|m ms IH]; simpl; [tauto |].
  destruct (apiField m =? f) eqn:E.
  - apply String.eqb_eq in E. split; [discriminate | tauto].
  - assert (apiField m <> f) by (intros Heq; rewrite Heq, String.eqb_refl in E; discriminate).
    rewrite IH. tauto.
Qed.

Lemma findMapping_app_new (ms : list FieldMapping) (m : FieldMapping) (g : string) :
  findMapping (ms ++ [m]) g =
  match findMapping ms g with
  | Some found => Some found
  | None => if apiField m =? g then Some m else None
  end.
Proof.
  unfold findMapping. induction ms as [|x ms IH]; simpl; [reflexivity |].
  destruct (apiField x =? g); [reflexivity | exact IH].
Qed.

Lemma findMapping_filter (ms : list FieldMapping) (f g : string) :
  findMapping (filter (fun m => negb (apiField m =? f)) ms) g =
  if g =? f then None else findMapping ms g.
Proof.
  unfold findMapping. induction ms as [|m ms IH]; simpl.
  - now destruct (g =? f).
  - destruct (apiField m =? f) eqn:Em; simpl.
    + apply String.eqb_eq in Em. rewrite IH.
      destruct (g =? f) eqn:Eg; [reflexivity |].
      now rewrite Em, (String.eqb_sym f g), Eg.
    + destruct (apiField m =? g) eqn:Emg; simpl; [| exact IH].
      apply String.eqb_eq in Emg. subst g. now rewrite Em.
Qed.

Lemma findMapping_update (ms : list FieldMapping) (f column g : string) :
  option_map spreadsheetColumn
    (findMapping (map (fun m => if apiField m =? f
                                then {| spreadsheetColumn := column;
                                        apiField := apiField m;
                                        transform := transform m |}
                                else m) ms) g) =
  match findMapping ms g with
  | Some m => Some (if g =? f then column else spreadsheetColumn m)
  | None => None
  end.
Proof.
  unfold findMapping. induction ms as [|m ms IH]; simpl; [reflexivity |].
  destruct (apiField m =? f) eqn:Em; simpl.
  - destruct (apiField m =? g) eqn:Emg; simpl; [| exact IH].
    apply String.eqb_eq in Emg. subst g. now rewrite Em.
  - destruct (apiField m =? g) eqn:Emg; simpl; [| exact IH].
    apply String.eqb_eq in Emg. subst g. now rewrite Em.
Qed.

(** Reading the mapping set after one change: the field that was changed
    maps to the chosen column, or to nothing when the placeholder was
    chosen; every other field maps as before. *)
Theorem handleMappingChange_lookup (f column g : string) (prev : list FieldMapping) :
  option_map spreadsheetColumn (findMapping (handleMappingChange f column prev) g) =
  if g =? f then (if column =? "" then None else Some column)
  else option_map spreadsheetColumn (findMapping prev g).
Proof.
  unfold handleMappingChange.
  destruct (findMapping prev f) as [existing|] eqn:Ef.
  - destruct (column =? "") eqn:Ec.
    + rewrite findMapping_filter. now destruct (g =? f).
    + rewrite findMapping_update.
      destruct (g =? f) eqn:Eg.
      * apply String.eqb_eq in Eg. subst g. now rewrite Ef.
      * now destruct (findMapping prev g).
  - destruct (column =? "") eqn:Ec; simpl.
    + destruct (g =? f) eqn:Eg; [| reflexivity].
      apply String.eqb_eq in Eg. subst g. now rewrite Ef.
    + rewrite findMapping_app_new. simpl.
      destruct (g =? f) eqn:Eg.
      * apply String.eqb_eq in Eg. subst g. now rewrite Ef, String.eqb_refl.
      * rewrite (String.eqb_sym f g), Eg. now destruct (findMapping prev g).
Qed.

Section Component.

Variable spreadsheetData : SpreadsheetData.
Variable selectedEndpoint : ApiEndpoint.
Variable disabled : bool.

Lemma offered_header (column : string) :
  offered spreadsheetData column = true -> (column =? "") = false ->
  column <> "" /\ In column (sheet_headers spreadsheetData).
Proof.
  unfold offered. intros Ho Hc. rewrite Hc in Ho. simpl in Ho. split.
  - intros ->. discriminate.
  - apply existsb_exists in Ho. destruct Ho as (h & Hin & Heq).
    apply String.eqb_eq in Heq. now subst h.
Qed.

Lemma NoDup_filter_apiField (p : FieldMapping -> bool) (ms : list FieldMapping) :
  NoDup (map apiField ms) -> NoDup (map apiField (filter p ms)).
Proof.
  induction ms as [|m ms IH]; simpl; intros Hnd; [constructor |].
  inversion Hnd as [|? ? Hnotin Hnd']; subst.
  destruct (p m); simpl; [| now apply IH].
  constructor; [| now apply IH].
  intros Hin. apply Hnotin. apply in_map_iff in Hin.
  destruct Hin as (x & Hx & Hf). apply filter_In in Hf.
  apply in_map_iff. exists x. tauto.
Qed.

Lemma change_wellFormed (ms ms' : list FieldMapping) (c : Change) :
  wellFormed spreadsheetData selectedEndpoint ms ->
  change spreadsheetData selectedEndpoint disabled ms c = Some ms' ->
  wellFormed spreadsheetData selectedEndpoint ms'.
Proof.
  unfold change, wellFormed. intros [Hnd Hall].
  destruct disabled; [discriminate |].
  destruct (nth_error _ (fieldIndex c)) as [field|] eqn:Ef; [| discriminate].
  destruct (offered spreadsheetData (chosen c)) eqn:Eo; [| discriminate].
  intros H. injection H as <-.
  apply nth_error_In, (in_map name) in Ef.
  unfold handleMappingChange.
  destruct (findMapping ms (name field)) as [existing|] eqn:Efind;
    destruct (chosen c =? "") eqn:Ec; simpl.
  - split; [now apply NoDup_filter_apiField |].
    apply Forall_forall. intros m Hm. apply filter_In in Hm.
    rewrite Forall_forall in Hall. now apply Hall.
  - destruct (offered_header _ Eo Ec) as [Hne Hin]. split.
    + rewrite map_map.
      erewrite map_ext; [exact Hnd |].
      intros m. now destruct (apiField m =? name field).
    + apply Forall_forall. intros m Hm. apply in_map_iff in Hm.
      destruct Hm as (x & <- & Hx). rewrite Forall_forall in Hall.
      specialize (Hall x Hx).
      destruct (apiField x =? name field); simpl; tauto.
  - now split.
  - destruct (offered_header _ Eo Ec) as [Hne Hin]. split.
    + rewrite map_app. simpl. apply NoDup_app; [assumption | |].
      * constructor; [intros [] | constructor].
      * intros a Ha [<- | []]. now apply (findMapping_none ms (name field)).
    + apply Forall_app. split; [assumption |].
      constructor; [| constructor]. simpl. tauto.
Qed.

Lemma changes_wellFormed (cs : list Change) (ms ms' : list FieldMapping) :
  wellFormed spreadsheetData selectedEndpoint ms ->
  changes spreadsheetData selectedEndpoint disabled ms cs = Some ms' ->
  wellFormed spreadsheetData selectedEndpoint ms'.
Proof.
  revert ms. induction cs as [|c cs IH]; simpl; intros ms Hwf H.
  - now injection H as <-.
  - destruct (change _ _ _ ms c) as [ms1|] eqn:Ec; [| discriminate].
    apply (IH ms1); [| assumption]. eapply change_wellFormed; eassumption.
Qed.

(** Whatever the user picks in the selects, the mapping set holds at most
    one mapping per api field, every mapping names a field of the
    endpoint, and its column is a non-empty header of the sheet. *)
Theorem session_wellFormed (cs : list Change) (ms : list FieldMapping) :
  session spreadsheetData selectedEndpoint disabled cs = Some ms ->
  wellFormed spreadsheetData selectedEndpoint ms.
Proof.
  apply changes_wellFormed. split; constructor.
Qed.

(** An endpoint without parameters and without a request body, which is
    what heuristic discovery returns, shows no select: the mapping set
    stays empty and the button to the submission step never fires. *)
Theorem no_fields_no_submission (cs : list Change) (ms : list FieldMapping)
    (buttonDisabled : bool) :
  parameters selectedEndpoint = [] ->
  requestBody selectedEndpoint = None ->
  session spreadsheetData selectedEndpoint disabled cs = Some ms ->
  ms = [] /\ clickContinue selectedEndpoint ms buttonDisabled = None.
Proof.
  intros Hp Hb Hs.
  assert (Hwf : wellFormed spreadsheetData selectedEndpoint ms)
    by (apply (changes_wellFormed cs (ms := [])); [split; constructor | exact Hs]).
  destruct Hwf as [_ Hall].
  assert (Hnone : apiFields selectedEndpoint = [])
    by (unfold apiFields; now rewrite Hp, Hb).
  rewrite Hnone in Hall.
  destruct ms as [|m ms].
  - split; [reflexivity |]. unfold clickContinue, isValid. simpl.
    now rewrite andb_false_r.
  - inversion Hall as [|? ? (_ & _ & []) _].
Qed.

End Component.

Lemma session_wellFormed_witness :
  wellFormed Examples.threeRows Samples.signup
    [ {| spreadsheetColumn := "name"; apiField := "email"; transform := Some "" |} ].
Proof.
  apply (@session_wellFormed Examples.threeRows Samples.signup false
           [ {| fieldIndex := 0; chosen := "email" |};
             {| fieldIndex := 1; chosen := "name" |};
             {| fieldIndex := 0; chosen := "name" |};
             {| fieldIndex := 1; chosen := "" |} ]).
  reflexivity.
Defined.

Lemma no_fields_no_submission_witness :
  @nil FieldMapping = [] /\ clickContinue Examples.users [] false = None.
Proof.
  apply (@no_fields_no_submission Examples.threeRows Examples.users false [] [] false);
    reflexivity.
Defined.

(** The preview of the payload reads the rows from a property the sheet
    does not have, so computing it throws for every sheet, mapping set and
    row. *)
Theorem generatePreviewPayload_throws (data : SpreadsheetData)
    (mappings : list FieldMapping) (rowIndex : nat) :
  generatePreviewPayload data mappings rowIndex = None.
Proof. reflexivity. Qed.

End MappingFacts.

(* ===================================================================== *)
(** * Facts about the normaliser and the discoverer on any input           *)
(* ===================================================================== *)

Module ClientFacts.

Import ApiClient Outline JsFacts.

Lemma mapM_Forall2 {A B} (f : A -> option B) (l : list A) (rs : list B) :
  mapM f l = Some rs -> Forall2 (fun a b => f a = Some b) l rs.
Proof.
  revert rs. induction l as [|a l IH]; simpl; intros rs H.
  - injection H as <-. constructor.
  - destruct (f a) as [b|] eqn:Ea; simpl in H; [| discriminate].
    destruct (mapM f l) as [bs|]; simpl in H; [| discriminate].
    injection H as <-. constructor; [assumption | now apply IH].
Qed.

Lemma mapM_none {A B} (f : A -> option B) (l : list A) :
  mapM f l = None <-> exists a, In a l /\ f a = None.
Proof.
  induction l as [|a l IH]; simpl.
  - split; [discriminate | intros (a & [] & _)].
  - destruct (f a) as [b|] eqn:Ea; simpl.
    + destruct (mapM f l) as [bs|]; simpl.
      * split; [discriminate |].
        intros (x & [<- | Hin] & Hx); [congruence |].
        assert (@None (list B) = None) as Hn by reflexivity.
        destruct IH as [_ IH]. discriminate IH. now exists x.
      * split; [| reflexivity]. intros _.
        destruct IH as [IH _]. destruct (IH eq_refl) as (x & Hin & Hx).
        exists x. split; [now right | assumption].
    + split; [| reflexivity]. intros _. exists a. split; [now left | assumption].
Qed.

Lemma Forall2_length_eq {A B} (R : A -> B -> Prop) (l : list A) (l' : list B) :
  Forall2 R l l' -> List.length l = List.length l'.
Proof. induction 1; simpl; congruence. Qed.

Lemma truthy_or (a b : JsVal) : truthy (or a b) = truthy a || truthy b.
Proof. unfold or. now destruct (truthy a) eqn:E. Qed.

(** ** Parameters *)

Lemma parseParameter_none (param : JsVal) :
  parseParameter param = None <-> nullish param = true.
Proof.
  destruct param as [| |b|n|s|l|ps]; simpl; split;
    try discriminate; try reflexivity.
Qed.

Lemma parseParameter_defaults (param : JsVal) (p : ParsedParameter) :
  parseParameter param = Some p ->
  truthy (p_type p) = true /\
  (p_required p = VBool false \/ truthy (p_required p) = true).
Proof.
  unfold parseParameter.
  destruct (get param "name") as [name|]; simpl; [| discriminate].
  destruct (get param "schema") as [sch|]; simpl; [| discriminate].
  destruct (get param "type") as [ty|]; simpl; [| discriminate].
  destruct (get param "required") as [required|]; simpl; [| discriminate].
  destruct (get param "description") as [descr|]; simpl; [| discriminate].
  destruct (get param "format") as [format|]; simpl; [| discriminate].
  destruct (get param "enum") as [enum|]; simpl; [| discriminate].
  destruct (get param "maxLength") as [maxLength|]; simpl; [| discriminate].
  destruct (get param "minLength") as [minLength|]; simpl; [| discriminate].
  intros H. injection H as <-. simpl. split.
  - rewrite truthy_or. apply orb_true_r.
  - unfold or. destruct (truthy required) eqn:E; [right; exact E | now left].
Qed.

(** [parseParameters] throws exactly when it is given something that is
    not an array, or an array with a [null] or missing element. *)
Theorem parseParameters_throws (parameters : JsVal) :
  parseParameters parameters = None <->
  match parameters with
  | VArr l => existsb nullish l = true
  | _ => True
  end.
Proof.
  destruct parameters as [| |b|n|s|l|ps]; simpl; try tauto.
  rewrite mapM_none, existsb_exists. split.
  - intros (a & Hin & Ha). exists a. split; [assumption | now apply parseParameter_none].
  - intros (a & Hin & Ha). exists a. split; [assumption | now apply parseParameter_none].
Qed.

Lemma get_opt_get (v : JsVal) (k : string) (x : JsVal) :
  get v k = Some x -> opt_get v k = x.
Proof. unfold opt_get. now intros ->. Qed.

Lemma parseParameter_fields (param : JsVal) (p : ParsedParameter) :
  parseParameter param = Some p ->
  p_name p = opt_get param "name" /\
  p_description p = opt_get param "description" /\
  p_type p =
    (if truthy (opt_get (opt_get param "schema") "type")
     then opt_get (opt_get param "schema") "type"
     else if truthy (opt_get param "type") then opt_get param "type"
     else VStr "string") /\
  p_required p =
    (if truthy (opt_get param "required") then opt_get param "required"
     else VBool false).
Proof.
  unfold parseParameter.
  destruct (get param "name") as [name|] eqn:E1; simpl; [| discriminate].
  destruct (get param "schema") as [sch|] eqn:E2; simpl; [| discriminate].
  destruct (get param "type") as [ty|] eqn:E3; simpl; [| discriminate].
  destruct (get param "required") as [required|] eqn:E4; simpl; [| discriminate].
  destruct (get param "description") as [descr|] eqn:E5; simpl; [| discriminate].
  destruct (get param "format") as [format|]; simpl; [| discriminate].
  destruct (get param "enum") as [enum|]; simpl; [| discriminate].
  destruct (get param "maxLength") as [maxLength|]; simpl; [| discriminate].
  destruct (get param "minLength") as [minLength|]; simpl; [| discriminate].
  intros H. injection H as <-. simpl.
  rewrite (get_opt_get _ _ E1), (get_opt_get _ _ E2), (get_opt_get _ _ E3),
          (get_opt_get _ _ E4), (get_opt_get _ _ E5).
  split; [reflexivity|]. split; [reflexivity|]. split; [|reflexivity].
  unfold or. destruct (truthy (opt_get sch "type")) eqn:Ea; [now rewrite Ea|].
  destruct (truthy ty) eqn:Et; try rewrite Et; reflexivity.
Qed.

(** When it returns, the argument is an array and there is one parameter
    per element, in the array's order.  Each parameter has the name and the
    description of its element; its type is the element's [schema.type]
    when that is truthy, else the element's [type] when that is truthy,
    else ['string']; its [required] is the element's when that is truthy,
    else [false]. *)
Theorem parseParameters_shape (parameters : JsVal) (ps : list ParsedParameter) :
  parseParameters parameters = Some ps ->
  exists l, parameters = VArr l /\
            Forall2 (fun param p =>
                       p_name p = opt_get param "name" /\
                       p_description p = opt_get param "description" /\
                       p_type p =
                         (if truthy (opt_get (opt_get param "schema") "type")
                          then opt_get (opt_get param "schema") "type"
                          else if truthy (opt_get param "type")
                               then opt_get param "type"
                               else VStr "string") /\
                       p_required p =
                         (if truthy (opt_get param "required")
                          then opt_get param "required"
                          else VBool false))
                    l ps.
Proof.
  destruct parameters as [| |b|n|s|l|props]; simpl; try discriminate.
  intros H. apply mapM_Forall2 in H. exists l. split; [reflexivity |].
  induction H as [|a p l ps Hap _ IH]; constructor; [| assumption].
  now apply parseParameter_fields.
Qed.

Lemma parseParameters_shape_witness :
  exists ps l,
    VArr [VObj [("name", VStr "limit"); ("required", VNum 0)];
          VObj [("name", VStr "q"); ("type", VStr "integer");
                ("required", VBool true)]] = VArr l /\
    Forall2 (fun param p =>
               p_name p = opt_get param "name" /\
               p_description p = opt_get param "description" /\
               p_type p =
                 (if truthy (opt_get (opt_get param "schema") "type")
                  then opt_get (opt_get param "schema") "type"
                  else if truthy (opt_get param "type")
                       then opt_get param "type"
                       else VStr "string") /\
               p_required p =
                 (if truthy (opt_get param "required")
                  then opt_get param "required"
                  else VBool false))
            l ps.
Proof.
  eexists.
  exact (@parseParameters_shape
           (VArr [VObj [("name", VStr "limit"); ("required", VNum 0)];
                  VObj [("name", VStr "q"); ("type", VStr "integer");
                        ("required", VBool true)]]) _ eq_refl).
Defined.

(** ** Schemas and request bodies *)

Lemma parseProperty_flags (requiredList : option (list JsVal))
    (name n : string) (prop : JsVal) (p : ParsedParameter) :
  parseProperty (match requiredList with Some l => VArr l | None => VUndef end)
                (name, prop) = Some (n, p) ->
  n = name /\
  p_name p = VStr name /\
  p_required p =
    VBool (match requiredList with
           | Some l => existsb (strict_eq (VStr name)) l
           | None => false
           end) /\
  truthy (p_type p) = true.
Proof.
  simpl. intros H.
  destruct (get prop "type") as [ty|]; simpl in H; [| discriminate].
  assert (Hinc : exists b,
             requiredIncludes
               match requiredList with Some l => VArr l | None => VUndef end name
             = Some b /\
             or b (VBool false) =
             VBool match requiredList with
                   | Some l => existsb (strict_eq (VStr name)) l
                   | None => false
                   end).
  { destruct requiredList as [l|]; simpl; eexists; split; try reflexivity.
    unfold or. simpl. now destruct (existsb _ l). }
  destruct Hinc as (b & Hb & Hor). rewrite Hb in H. simpl in H.
  destruct (get prop "description") as [descr|]; simpl in H; [| discriminate].
  destruct (get prop "format") as [format|]; simpl in H; [| discriminate].
  destruct (get prop "enum") as [enum|]; simpl in H; [| discriminate].
  destruct (get prop "maxLength") as [maxLength|]; simpl in H; [| discriminate].
  destruct (get prop "minLength") as [minLength|]; simpl in H; [| discriminate].
  injection H as <- <-. simpl. repeat split; try assumption.
  rewrite truthy_or. apply orb_true_r.
Qed.

(** The assignments [properties[name] = ...] of one schema. *)
Lemma collected_keys (parsed acc : list (string * ParsedParameter)) (k : string) :
  In k (map fst (fold_left (fun properties np => assign properties (fst np) (snd np))
                           parsed acc)) <->
  (In k (map fst parsed) /\ k <> "__proto__") \/ In k (map fst acc).
Proof.
  revert acc. induction parsed as [|[n p] parsed IH]; intros acc; simpl.
  - tauto.
  - rewrite IH, ObjectFacts.keys_assign_iff. simpl. intuition congruence.
Qed.

Lemma Forall_assign {A} (Q : string * A -> Prop) (ps : list (string * A))
    (k : string) (v : A) :
  Forall Q ps -> Q (k, v) -> Forall Q (assign ps k v).
Proof.
  intros Hps Hkv.
  destruct (ObjectFacts.assign_cases ps k v)
    as [[Hin ->] | [(_ & _ & ->) | (Hnot & _ & pre & post & -> & ->)]].
  - clear Hin. induction Hps as [|[k0 v0] ps H0 Hps IH]; simpl; [constructor|].
    destruct (String.eqb_spec k0 k) as [->|_]; constructor; assumption.
  - exact Hps.
  - apply Forall_app in Hps. destruct Hps as [Hpre Hpost].
    apply Forall_app. split; [exact Hpre | now constructor].
Qed.

Lemma collected_all (Q : string * ParsedParameter -> Prop)
    (parsed acc : list (string * ParsedParameter)) :
  Forall Q parsed -> Forall Q acc ->
  Forall Q (fold_left (fun properties np => assign properties (fst np) (snd np))
                      parsed acc).
Proof.
  revert acc. induction parsed as [|[n p] parsed IH]; intros acc Hp Ha; simpl.
  - exact Ha.
  - inversion Hp; subst. apply IH; [assumption|]. now apply Forall_assign.
Qed.

Lemma collected_in_order (parsed acc : list (string * ParsedParameter)) :
  NoDup (map fst acc ++ map fst parsed) ->
  Forall (fun np => plainKey (fst np) = true) parsed ->
  fold_left (fun properties np => assign properties (fst np) (snd np)) parsed acc
  = (acc ++ parsed)%list.
Proof.
  revert acc. induction parsed as [|[n p] parsed IH]; intros acc Hnd Hplain; simpl.
  - now rewrite app_nil_r.
  - inversion Hplain as [|? ? Hn Hrest]; subst. simpl in Hn.
    rewrite ObjectFacts.assign_plain; [| exact Hn |].
    + rewrite IH; [now rewrite <- app_assoc | | exact Hrest].
      rewrite map_app. simpl. now rewrite <- app_assoc.
    + apply NoDup_remove_2 in Hnd. intros Hin. apply Hnd.
      apply in_app_iff. now left.
Qed.

(** The properties of a parsed schema are those of the document, each
    named after its key, except that a property named [__proto__] is lost
    in the assignment; a property is required exactly when its name is an
    element of the schema's [required] array, and never when the schema has
    no such array; its type is never empty.  When the names are distinct
    and none is an array index, the properties keep the document's order. *)
Theorem parseSchema_required (sch : JsVal) (props : list (string * JsVal))
    (requiredList : option (list JsVal)) (s : ParsedSchema) :
  get sch "properties" = Some (VObj props) ->
  get sch "required" =
    Some (match requiredList with Some l => VArr l | None => VUndef end) ->
  parseSchema sch = Some s ->
  (forall name, In name (map fst (properties s)) <->
                In name (map fst props) /\ name <> "__proto__") /\
  Forall (fun np =>
            p_name (snd np) = VStr (fst np) /\
            p_required (snd np) =
              VBool (match requiredList with
                     | Some l => existsb (strict_eq (VStr (fst np))) l
                     | None => false
                     end) /\
            truthy (p_type (snd np)) = true)
         (properties s) /\
  (NoDup (map fst props) ->
   Forall (fun np => plainKey (fst np) = true) props ->
   map fst (properties s) = map fst props).
Proof.
  intros Hp Hr. unfold parseSchema. rewrite Hp, Hr. simpl.
  destruct (get sch "type") as [ty|]; simpl; [| discriminate].
  destruct (mapM _ props) as [parsed|] eqn:Em; simpl; [| discriminate].
  intros H. injection H as <-. simpl.
  apply mapM_Forall2 in Em. clear Hp Hr.
  assert (Hparsed :
            map fst parsed = map fst props /\
            Forall (fun np =>
                      p_name (snd np) = VStr (fst np) /\
                      p_required (snd np) =
                        VBool (match requiredList with
                               | Some l => existsb (strict_eq (VStr (fst np))) l
                               | None => false
                               end) /\
                      truthy (p_type (snd np)) = true) parsed).
  { induction Em as [|[name prop] [n p] props parsed Hone _ IH]; simpl.
    - split; constructor.
    - destruct IH as [IHk IHf].
      destruct (@parseProperty_flags requiredList name n prop p Hone)
        as (Hn & Hname & Hreq & Hty).
      simpl in *. subst n. split; [now f_equal |].
      constructor; [| assumption]. simpl. tauto. }
  destruct Hparsed as [Hkeys Hflags]. split; [|split].
  - intros name. rewrite collected_keys, Hkeys. simpl. tauto.
  - apply collected_all; [exact Hflags | constructor].
  - intros Hnd Hplain. rewrite collected_in_order.
    + exact Hkeys.
    + simpl. now rewrite Hkeys.
    + clear - Hplain Hkeys. revert props Hplain Hkeys.
      induction parsed as [|[n p] parsed IH]; intros [|[n' p'] props] Hplain Hkeys;
        try discriminate; constructor.
      * simpl in *. injection Hkeys as -> _. now inversion Hplain.
      * simpl in Hkeys. injection Hkeys as _ Hkeys.
        apply (IH props); [now inversion Hplain | exact Hkeys].
Qed.

Lemma parseSchema_required_witness :
  exists s,
    parseSchema
      (VObj [ ("properties", VObj [ ("email", VObj [("type", VStr "string")]);
                                    ("__proto__", VObj []);
                                    ("name", VObj []) ]);
              ("required", VArr [VStr "email"]) ]) = Some s /\
    map (fun np => (fst np, p_required (snd np))) (properties s) =
      [("email", VBool true); ("name", VBool false)] /\
    (forall name, In name (map fst (properties s)) <->
                  In name ["email"; "__proto__"; "name"] /\ name <> "__proto__").
Proof.
  eexists. split; [reflexivity|]. split; [reflexivity|].
  exact (proj1 (@parseSchema_required
                  (VObj [ ("properties",
                           VObj [ ("email", VObj [("type", VStr "string")]);
                                  ("__proto__", VObj []);
                                  ("name", VObj []) ]);
                          ("required", VArr [VStr "email"]) ])
                  [ ("email", VObj [("type", VStr "string")]);
                    ("__proto__", VObj []); ("name", VObj []) ]
                  (Some [VStr "email"]) _ eq_refl eq_refl eq_refl)).
Defined.

(** One media type of a request body is looked at, and no other: the
    first one listed or, when the first key is the empty string,
    application/json.  The result is the one the body would give if it
    listed that media type alone. *)
Theorem parseRequestBody_first_media_type (rb : JsVal) (ct : string)
    (media : JsVal) (rest : list (string * JsVal)) :
  get rb "content" = Some (VObj ((ct, media) :: rest)) ->
  (ct <> "" ->
   parseRequestBody rb
   = parseRequestBody (VObj [("content", VObj [(ct, media)])])) /\
  (ct = "" ->
   parseRequestBody rb
   = parseRequestBody
       (VObj [("content",
               VObj [("application/json", own rest "application/json")])])).
Proof.
  intros Hc. unfold parseRequestBody. rewrite Hc. simpl. split.
  - intros Hne.
    assert (Hct : (ct =? "") = false)
      by (destruct ct; [now elim Hne | reflexivity]).
    unfold firstContentType, opt_get. simpl.
    rewrite Hct. simpl.
    assert (Hown : forall l, own ((ct, media) :: l) ct = media)
      by (intros l; unfold own; simpl; now rewrite String.eqb_refl).
    now rewrite !Hown.
  - intros ->. reflexivity.
Qed.

Lemma parseRequestBody_first_media_type_witness :
  parseRequestBody
    (VObj [("content",
            VObj [ ("text/plain", VObj []);
                   ("application/json",
                    VObj [("schema", VObj [("type", VStr "object")])]) ])]) =
  parseRequestBody (VObj [("content", VObj [("text/plain", VObj [])])]).
Proof.
  apply (@parseRequestBody_first_media_type _ "text/plain" (VObj [])
           [("application/json", VObj [("schema", VObj [("type", VStr "object")])])]).
  - reflexivity.
  - discriminate.
Defined.

(** ** Documents *)

Lemma supported_verb_method (verb : string) :
  includes supportedVerbs (toLowerCase verb) = true ->
  In (toUpperCase verb) supportedMethods.
Proof.
  unfold includes, supportedVerbs. simpl. rewrite !orb_true_iff.
  rewrite <- (toUpperCase_toLowerCase verb).
  intros [H | [H | [H | [H | H]]]]; try discriminate;
    apply String.eqb_eq in H; rewrite H; simpl; tauto.
Qed.

Section Client.

Variable baseUrl : string.

Lemma parseOperation_one (basePath : JsVal) (p verb : string) (methodObj : JsVal)
    (eps : list ParsedEndpoint) :
  parseOperation baseUrl basePath p (verb, methodObj) = Some eps ->
  Forall (usable baseUrl) eps /\
  map (fun e => (method e, path e)) eps =
  if includes supportedVerbs (toLowerCase verb)
  then [(toUpperCase verb, to_string basePath ++ p)] else [].
Proof.
  unfold parseOperation.
  destruct (includes supportedVerbs (toLowerCase verb)) eqn:Ev.
  - destruct (get methodObj "parameters") as [ps|]; simpl; [| discriminate].
    destruct (parseParameters _) as [parameters|]; simpl; [| discriminate].
    destruct (get methodObj "requestBody") as [rb|]; simpl; [| discriminate].
    destruct (if truthy rb then parseRequestBody rb else Some None)
      as [requestBody|]; simpl; [| discriminate].
    unfold stringOf. destruct (stringifiable basePath); simpl; [| discriminate].
    destruct (get methodObj "summary") as [summary|]; simpl; [| discriminate].
    destruct (get methodObj "description") as [descr|]; simpl; [| discriminate].
    intros H. injection H as <-. split; [| reflexivity].
    constructor; [| constructor]. unfold usable. simpl. repeat split.
    + now apply supported_verb_method.
    + apply AppFacts.append_assoc.
    + rewrite truthy_or. apply orb_true_iff. right. simpl.
      now destruct (toUpperCase verb).
  - intros H. injection H as <-. split; constructor.
Qed.

Lemma parseOperations_all (basePath : JsVal) (p : string)
    (ops : list (string * JsVal)) (eps : list (list ParsedEndpoint)) :
  mapM (parseOperation baseUrl basePath p) ops = Some eps ->
  Forall (usable baseUrl) (List.concat eps) /\
  map (fun e => (method e, path e)) (List.concat eps) =
  map (fun verb => (toUpperCase verb, to_string basePath ++ p))
      (filter (fun k => includes supportedVerbs (toLowerCase k)) (map fst ops)).
Proof.
  intros H. apply mapM_Forall2 in H.
  induction H as [|[verb methodObj] here ops eps Hone _ [IHu IHo]];
    cbn [List.concat map fst filter].
  - split; constructor.
  - apply parseOperation_one in Hone. destruct Hone as [Hu Ho]. split.
    + apply Forall_app. now split.
    + rewrite map_app, Ho, IHo.
      now destruct (includes supportedVerbs (toLowerCase verb)).
Qed.

Lemma parsePath_one (basePath : JsVal) (entry : string * JsVal)
    (eps : list ParsedEndpoint) :
  parsePath baseUrl basePath entry = Some eps ->
  Forall (usable baseUrl) eps /\
  map (fun e => (method e, path e)) eps =
  map (fun verb => (toUpperCase verb, to_string basePath ++ fst entry))
      (verbsOf (snd entry)).
Proof.
  destruct entry as [p pathObj]. unfold parsePath, verbsOf, keys. simpl.
  destruct (entries pathObj) as [ops|]; simpl; [| discriminate].
  destruct (mapM _ ops) as [found|] eqn:Em; simpl; [| discriminate].
  intros H. injection H as <-. apply parseOperations_all in Em. exact Em.
Qed.

Lemma parsePaths_all (basePath : JsVal) (paths : list (string * JsVal))
    (eps : list (list ParsedEndpoint)) :
  mapM (parsePath baseUrl basePath) paths = Some eps ->
  Forall (usable baseUrl) (List.concat eps) /\
  map (fun e => (method e, path e)) (List.concat eps) = operationsOf basePath paths.
Proof.
  intros H. apply mapM_Forall2 in H.
  induction H as [|entry here paths eps Hone _ [IHu IHo]]; simpl.
  - split; constructor.
  - apply parsePath_one in Hone. destruct Hone as [Hu Ho]. split.
    + apply Forall_app. now split.
    + now rewrite map_app, Ho, IHo.
Qed.

Lemma parseOpenApiSpec_usable (spec : JsVal) (eps : list ParsedEndpoint) :
  parseOpenApiSpec baseUrl spec = Some eps -> Forall (usable baseUrl) eps.
Proof.
  unfold parseOpenApiSpec.
  destruct (get spec "basePath") as [bp|]; simpl; [| discriminate].
  destruct (get spec "paths") as [paths|]; simpl; [| discriminate].
  destruct (truthy paths).
  - destruct (entries paths) as [es|]; simpl; [| discriminate].
    destruct (mapM _ es) as [found|] eqn:Em; simpl; [| discriminate].
    intros H. injection H as <-. apply parsePaths_all in Em. tauto.
  - intros H. injection H as <-. constructor.
Qed.

(** The normaliser returns one endpoint per path and supported verb of
    the document, in the document's order; the method is the verb in upper
    case and the path is prefixed with [basePath] (with nothing when the
    document has none).  Keys of a path item that are not one of the four
    verbs give no endpoint.  The prefix is the text of [basePath] as an
    engine prints it when [basePath] holds no number beyond 2^53 in
    size. *)
Theorem parseOpenApiSpec_operations (spec bp : JsVal)
    (paths : list (string * JsVal)) (eps : list ParsedEndpoint) :
  get spec "basePath" = Some bp ->
  safeNumbers bp = true ->
  get spec "paths" = Some (VObj paths) ->
  parseOpenApiSpec baseUrl spec = Some eps ->
  map (fun e => (method e, path e)) eps = operationsOf (or bp (VStr "")) paths.
Proof.
  intros Hb _ Hp. unfold parseOpenApiSpec. rewrite Hb, Hp. simpl.
  destruct (mapM _ paths) as [found|] eqn:Em; simpl; [| discriminate].
  intros H. injection H as <-. apply parsePaths_all in Em. tauto.
Qed.

(** One broken entry spoils the document: if some path item is [null], or
    some operation under one of the four verbs is [null], the normaliser
    throws and no endpoint of the document is returned. *)
Theorem parseOpenApiSpec_null_entry (spec : JsVal) (paths : list (string * JsVal))
    (p : string) (pathObj : JsVal) :
  get spec "paths" = Some (VObj paths) ->
  In (p, pathObj) paths ->
  nullish pathObj = true \/
  (exists verb methodObj,
      In (verb, methodObj)
         (match entries pathObj with Some ops => ops | None => [] end) /\
      includes supportedVerbs (toLowerCase verb) = true /\
      nullish methodObj = true) ->
  parseOpenApiSpec baseUrl spec = None.
Proof.
  intros Hp Hin Hbad. unfold parseOpenApiSpec.
  destruct (get spec "basePath") as [bp|]; simpl; [| reflexivity].
  rewrite Hp. simpl.
  assert (Hnone : mapM (parsePath baseUrl (or bp (VStr ""))) paths = None).
  { apply mapM_none. exists (p, pathObj). split; [assumption |].
    unfold parsePath.
    destruct Hbad as [Hnull | (verb & methodObj & Hop & Hverb & Hnull)].
    - now destruct pathObj.
    - destruct (entries pathObj) as [ops|]; simpl; [| reflexivity].
      assert (Hops : mapM (parseOperation baseUrl (or bp (VStr "")) p) ops = None).
      { apply mapM_none. exists (verb, methodObj). split; [assumption |].
        unfold parseOperation. rewrite Hverb. now destruct methodObj. }
      now rewrite Hops. }
  now rewrite Hnone.
Qed.

End Client.

Lemma parseOpenApiSpec_operations_witness :
  exists eps,
    parseOpenApiSpec "https://api.example" Examples.petstore = Some eps /\
    map (fun e => (method e, path e)) eps = [("GET", "/v1/pets")].
Proof.
  eexists. split; [reflexivity |].
  apply (@parseOpenApiSpec_operations "https://api.example" Examples.petstore
           (VStr "/v1")
           [ ("/pets", VObj [ ("get", VObj [("summary", VStr "List pets")]);
                              ("patch", VObj [("summary", VStr "Patch pets")]) ]) ]);
    reflexivity.
Defined.

Lemma parseOpenApiSpec_null_entry_witness :
  parseOpenApiSpec "https://api.example"
    (VObj [("paths", VObj [ ("/pets", VObj [("get", VObj [])]);
                            ("/owners", VObj [("post", VNull)]) ])]) = None.
Proof.
  apply (@parseOpenApiSpec_null_entry "https://api.example" _
           [ ("/pets", VObj [("get", VObj [])]);
             ("/owners", VObj [("post", VNull)]) ]
           "/owners" (VObj [("post", VNull)])).
  - reflexivity.
  - right. now left.
  - right. exists "post", VNull. repeat split. now left.
Defined.

(** ** Discovery over any network *)

Section Network.

Variable baseUrl : string.
Variable World : Type.
Variable fetch : World -> Request -> FetchOutcome * World.

Abbreviation probeDocs := (probeDocs baseUrl fetch).
Abbreviation probePaths := (probePaths baseUrl fetch).
Abbreviation discoverEndpoints := (discoverEndpoints baseUrl fetch).
Abbreviation discoverEndpointsManually := (discoverEndpointsManually baseUrl fetch).

Lemma probe_get (path : string) : probe baseUrl (getRequest (baseUrl ++ path)).
Proof.
  unfold probe. simpl.
  split; [reflexivity | split; [now left | apply AppFacts.prefix_app]].
Qed.

Lemma probe_options (path : string) : probe baseUrl (optionsRequest baseUrl path).
Proof.
  unfold probe. simpl.
  split; [reflexivity | split; [now right | apply AppFacts.prefix_app]].
Qed.

Lemma in_firstn {A} (k : nat) (l : list A) (x : A) : In x (firstn k l) -> In x l.
Proof.
  revert l. induction k as [|k IH]; intros [|a l]; simpl; try tauto.
  intros [H | H]; [now left | right; now apply IH].
Qed.

Lemma probeDocs_sent (urls : list string) (w : World) :
  exists k, k <= List.length urls /\
            (urls <> [] -> 1 <= k) /\
            sent (probeDocs urls w) = map getRequest (firstn k urls) /\
            (result (probeDocs urls w) = None -> k = List.length urls).
Proof.
  revert w. induction urls as [|url urls IH]; intros w; simpl.
  - exists 0. repeat split; try reflexivity; try lia; congruence.
  - destruct (fetch w (getRequest url)) as [out w1].
    destruct (documentOf baseUrl out) as [eps|]; simpl.
    + exists 1. repeat split; try reflexivity; try lia. discriminate.
    + destruct (IH w1) as (k & Hk & _ & Hs & Hn).
      exists (S k). repeat split; try lia.
      * simpl. now rewrite Hs.
      * intros Hr. now rewrite (Hn Hr).
Qed.

Lemma probeDocs_usable (urls : list string) (w : World) (eps : list ParsedEndpoint) :
  result (probeDocs urls w) = Some eps -> Forall (usable baseUrl) eps.
Proof.
  revert w. induction urls as [|url urls IH]; intros w; simpl; [discriminate |].
  destruct (fetch w (getRequest url)) as [out w1].
  destruct (documentOf baseUrl out) as [found|] eqn:Ed; simpl.
  - intros H. injection H as <-.
    destruct out as [r|message]; simpl in Ed; [| discriminate].
    destruct (ok r); [| discriminate].
    destruct (body r) as [spec|message]; [| discriminate].
    now apply (parseOpenApiSpec_usable _ _ Ed).
  - apply IH.
Qed.

Lemma endpointsFromOptions_bare (paths : list string) (p : string) (r : Response) :
  In p paths ->
  Forall (fun e => usable baseUrl e /\ In (path e) paths /\
                   parameters e = [] /\ requestBody e = None)
         (endpointsFromOptions baseUrl p r).
Proof.
  intros Hin. unfold endpointsFromOptions. destruct (ok r); [| constructor].
  apply Forall_forall. intros e He. apply in_map_iff in He.
  destruct He as (m & <- & Hm). apply filter_In in Hm. destruct Hm as [_ Hm].
  unfold usable, manualEndpoint. simpl. repeat split; try assumption.
  - unfold includes in Hm. apply existsb_exists in Hm.
    destruct Hm as (x & Hx & Heq). apply String.eqb_eq in Heq. now subst x.
  - now destruct m.
Qed.

Lemma probePaths_bare (all paths : list string) (w : World) :
  incl paths all ->
  Forall (fun e => usable baseUrl e /\ In (path e) all /\
                   parameters e = [] /\ requestBody e = None)
         (result (probePaths paths w)).
Proof.
  revert w. induction paths as [|p paths IH]; intros w Hincl; simpl; [constructor |].
  destruct (fetch w (optionsRequest baseUrl p)) as [out w1]. simpl.
  apply Forall_app. split.
  - destruct out as [r|message]; [| constructor].
    apply endpointsFromOptions_bare. apply Hincl. now left.
  - apply IH. intros x Hx. apply Hincl. now right.
Qed.

Lemma probePaths_sent (paths : list string) (w : World) :
  sent (probePaths paths w) = map (optionsRequest baseUrl) paths.
Proof.
  revert w. induction paths as [|p paths IH]; intros w; simpl; [reflexivity |].
  destruct (fetch w (optionsRequest baseUrl p)) as [out w1]. simpl. now rewrite IH.
Qed.

(** Discovery only reads: whatever the servers answer, it sends between
    one and ten requests, each a GET or an OPTIONS without a body to a URL
    under the base URL. *)
Theorem discovery_only_probes (w : World) :
  1 <= List.length (sent (discoverEndpoints w)) <= 10 /\
  Forall (probe baseUrl) (sent (discoverEndpoints w)).
Proof.
  unfold ApiClient.discoverEndpoints.
  destruct (probeDocs_sent (swaggerUrls baseUrl) w) as (k & Hk & Hpos & Hs & Hn).
  assert (Hdocs : Forall (probe baseUrl) (sent (probeDocs (swaggerUrls baseUrl) w))).
  { rewrite Hs. apply Forall_forall. intros q Hq. apply in_map_iff in Hq.
    destruct Hq as (url & <- & Hurl). apply in_firstn in Hurl.
    unfold swaggerUrls in Hurl. simpl in Hurl.
    destruct Hurl as [<- | [<- | [<- | [<- | [<- | []]]]]]; apply probe_get. }
  assert (Hlen : List.length (sent (probeDocs (swaggerUrls baseUrl) w)) = k).
  { rewrite Hs, length_map, length_firstn. simpl in *. lia. }
  specialize (Hpos ltac:(discriminate)). simpl in Hk.
  destruct (result (probeDocs (swaggerUrls baseUrl) w)) as [eps|] eqn:Er;
    cbn [sent result world].
  - split; [lia | assumption].
  - unfold ApiClient.discoverEndpointsManually. rewrite probePaths_sent. split.
    + rewrite length_app, Hlen, length_map. simpl. lia.
    + apply Forall_app. split; [assumption |].
      apply Forall_forall. intros q Hq. apply in_map_iff in Hq.
      destruct Hq as (p & <- & _). apply probe_options.
Qed.

(** Every endpoint discovery returns, from a document or from probing,
    has one of the four methods, the base URL followed by its path as its
    URL, and a description that is not empty.  An endpoint found by
    probing is one of the five conventional paths and comes without
    parameters and without a request body. *)
Theorem discovered_endpoints_shape (w : World) :
  Forall (usable baseUrl) (result (discoverEndpoints w)) /\
  Forall bare (result (discoverEndpointsManually w)).
Proof.
  split.
  - unfold ApiClient.discoverEndpoints.
    destruct (result (probeDocs (swaggerUrls baseUrl) w)) as [eps|] eqn:Er;
      cbn [sent result world].
    + now apply (probeDocs_usable _ _ Er).
    + eapply Forall_impl;
        [| apply (@probePaths_bare commonPaths commonPaths); apply incl_refl].
      intros e H. apply H.
  - eapply Forall_impl;
      [| apply (@probePaths_bare commonPaths commonPaths); apply incl_refl].
    intros e H. cbv beta in H. unfold bare. tauto.
Qed.

End Network.

End ClientFacts.

(* ===================================================================== *)
(** * Further facts about the submission step                              *)
(* ===================================================================== *)

Module SubmissionLedger.

Import Submission Ledger Tallies ObjectFacts SubmissionFacts.

#[local] Arguments updateRow : simpl never.
#[local] Arguments initialResults : simpl never.
#[local] Arguments seq : simpl never.
#[local] Arguments rowsSubmitted : simpl never.
#[local] Arguments completions : simpl never.

(** ** Payloads *)

Lemma payload_fold (row : Row) (ms : list FieldMapping) (acc : Row) :
  NoDup (map apiField ms) ->
  (forall k, In k (map fst acc) -> ~ In k (map apiField ms)) ->
  let payload :=
    fold_left (fun payload m =>
                 setProp payload (apiField m) (own row (spreadsheetColumn m)))
              ms acc in
  (forall k, In k (map fst payload) <->
             In k (map fst acc) \/ (In k (map apiField ms) /\ k <> "__proto__")) /\
  (forall k, In k (map fst acc) -> own payload k = own acc k) /\
  Forall (fun m => apiField m <> "__proto__" ->
                   own payload (apiField m) = own row (spreadsheetColumn m)) ms /\
  (Forall (fun m => plainKey (apiField m) = true) ms ->
   map fst payload = (map fst acc ++ map apiField ms)%list).
Proof.
  revert acc. induction ms as [|m ms IH]; intros acc Hnd Hdis; simpl.
  - rewrite app_nil_r. repeat split; try constructor; tauto.
  - inversion Hnd as [|? ? Hhead Hnd']; subst.
    set (acc' := setProp acc (apiField m) (own row (spreadsheetColumn m))).
    assert (Hdis' : forall k, In k (map fst acc') -> ~ In k (map apiField ms)).
    { intros k Hin. unfold acc' in Hin. apply keys_setProp_iff in Hin.
      destruct Hin as [[-> _] | Hin]; [exact Hhead|].
      intros Hk. apply (Hdis k Hin). now right. }
    destruct (IH acc' Hnd' Hdis') as (Hk & Hold & Hall & Horder).
    split; [|split; [|split]].
    + intros k. rewrite Hk. unfold acc'. rewrite keys_setProp_iff. simpl.
      intuition congruence.
    + intros k Hin. rewrite Hold.
      * apply own_setProp_other. intros <-. apply (Hdis _ Hin). now left.
      * unfold acc'. apply keys_setProp_iff. now right.
    + constructor; [| exact Hall].
      intros Hp. rewrite Hold.
      * now apply own_setProp_same.
      * unfold acc'. apply keys_setProp_iff. left. now split.
    + intros Hplain. inversion Hplain as [|? ? Hm Hrest]; subst.
      rewrite (Horder Hrest). unfold acc', setProp.
      rewrite assign_plain; [| exact Hm |].
      * rewrite map_app. simpl. now rewrite <- app_assoc.
      * intros Hin. apply (Hdis _ Hin). now left.
Qed.

(** The payload of a row, when no two mappings share an api field, has one
    property per mapping whose api field is not [__proto__] (an assignment
    to that name creates no property), and no other property.  The value
    of each is what the row holds under the mapped column, as long as that
    column is a key of the row or at least not the name of a member every
    object inherits.  When no api field is an array index, the properties
    are in the order of the mappings. *)
Theorem generatePayload_fields (sheet : SpreadsheetData) (maps : list FieldMapping)
    (index : nat) (row : Row) :
  nth_error (rows sheet) index = Some row ->
  NoDup (map apiField maps) ->
  exists payload,
    generatePayload sheet maps index = Some (VObj payload) /\
    (forall k, In k (map fst payload) <->
               In k (map apiField maps) /\ k <> "__proto__") /\
    Forall (fun m => apiField m <> "__proto__" ->
                     ownRead row (spreadsheetColumn m) = true ->
                     own payload (apiField m) = own row (spreadsheetColumn m)) maps /\
    (Forall (fun m => plainKey (apiField m) = true) maps ->
     map fst payload = map apiField maps).
Proof.
  intros Hrow Hnd. unfold generatePayload. rewrite Hrow.
  eexists. split; [reflexivity |].
  destruct (@payload_fold row maps [] Hnd) as (Hk & _ & Hall & Horder);
    [intros k [] |].
  split; [|split].
  - intros k. rewrite Hk. simpl. tauto.
  - revert Hall. apply Forall_impl. intros m H Hp _. exact (H Hp).
  - exact Horder.
Qed.

Lemma generatePayload_fields_witness :
  exists payload,
    generatePayload Examples.threeRows
      [ {| spreadsheetColumn := "email"; apiField := "contact"; transform := Some "" |};
        {| spreadsheetColumn := "name"; apiField := "fullName"; transform := Some "" |} ]
      1 = Some (VObj payload) /\
    map fst payload = ["contact"; "fullName"] /\
    own payload "contact" = VStr "bob@example.org".
Proof.
  destruct (@generatePayload_fields Examples.threeRows
              [ {| spreadsheetColumn := "email"; apiField := "contact";
                   transform := Some "" |};
                {| spreadsheetColumn := "name"; apiField := "fullName";
                   transform := Some "" |} ]
              1 (Examples.person "Bob" "bob@example.org") eq_refl
              ltac:(simpl; repeat constructor; simpl; intuition discriminate))
    as (payload & Hpayload & _ & Hvalues & Horder).
  exists payload. split; [exact Hpayload|]. split.
  - apply Horder. repeat constructor.
  - inversion Hvalues as [|m ms Hfirst _]; subst.
    apply Hfirst; [discriminate | reflexivity].
Defined.

Section Component.

Variable sheet : SpreadsheetData.
Variable ep : ApiEndpoint.
Variable maps : list FieldMapping.

Abbreviation N := (rowCount sheet).

(** ** Counters *)

Lemma tally_length (rs : list SubmissionResult) :
  successCount rs + errorCount rs + pendingCount rs = List.length rs.
Proof.
  unfold successCount, errorCount, pendingCount, countStatus.
  induction rs as [|r rs IH]; simpl; [reflexivity |].
  destruct (status r); simpl; lia.
Qed.

(** Whatever the user clicks and the server answers, the three counters
    shown above the table add up to the number of rows of the sheet. *)
Theorem counters_add_up (es : list Event) (m : Machine) :
  run sheet ep maps (mounted sheet) es = Some m ->
  successCount (results (ui m)) + errorCount (results (ui m))
  + pendingCount (results (ui m)) = N.
Proof.
  intros Hrun. rewrite tally_length.
  assert (Hidx : map rowIndex (results (ui m)) = seq 0 N).
  { eapply run_indices; [exact Hrun | apply indices_initial]. }
  rewrite <- (length_map rowIndex), Hidx. apply length_seq.
Qed.

(** ** Requests *)

(** A request of the trace is the submission of a row of the sheet: to the
    endpoint's URL, by the endpoint's method, with the row's payload as
    body for POST and PUT and without body for GET and DELETE. *)
Lemma loopHead_trace (P : Effect -> Prop) (c : Call) (u : UiState) (tr : list Effect) :
  (forall rs, P (Completed rs)) ->
  (forall p, i c < N -> generatePayload sheet maps (i c) = Some p ->
             P (Submitted (i c) (submitRequest ep p))) ->
  Forall P tr ->
  Forall P (snd (fst (loopHead sheet ep maps c u tr))).
Proof.
  intros Hdone Hsub Htr. unfold loopHead, afterLoop.
  destruct (Nat.ltb_spec (i c) N) as [Hlt|Hge].
  - destruct (isPaused (closure c)).
    + cbn [fst snd]. destruct (_ <=? _)%Z; [| assumption].
      apply Forall_app. split; [assumption | now repeat constructor].
    + destruct (generatePayload sheet maps (i c)) as [p|] eqn:Ep; cbn [fst snd];
        [| assumption].
      apply Forall_app. split; [assumption |]. constructor; [| constructor].
      now apply Hsub.
  - cbn [fst snd]. destruct (_ <=? _)%Z; [| assumption].
    apply Forall_app. split; [assumption | now repeat constructor].
Qed.

Lemma step_trace (P : Effect -> Prop) (m m' : Machine) (e : Event) :
  (forall rs, P (Completed rs)) ->
  (forall k p, k < N -> generatePayload sheet maps k = Some p ->
               P (Submitted k (submitRequest ep p))) ->
  step sheet ep maps m e = Some m' ->
  Forall P (trace m) -> Forall P (trace m').
Proof.
  intros Hdone Hsub Hstep Htr. destruct e as [| | |k out|k]; simpl in Hstep.
  - destruct (startRendered sheet (ui m)); [| discriminate].
    match type of Hstep with
    | context [loopHead sheet ep maps ?c ?u ?tr] =>
        pose proof (@loopHead_trace P c u tr Hdone (Hsub (i c)) Htr) as Hl;
        destruct (loopHead sheet ep maps c u tr) as [[u' tr'] c']
    end.
    injection Hstep as <-. exact Hl.
  - destruct (isRunning (ui m)); [| discriminate]. now injection Hstep as <-.
  - destruct (isRunning (ui m)); [discriminate |]. now injection Hstep as <-.
  - destruct (nth_error (calls m) k) as [c|]; [| discriminate].
    destruct (phase c); try discriminate. now injection Hstep as <-.
  - destruct (nth_error (calls m) k) as [c|]; [| discriminate].
    destruct (phase c); try discriminate.
    match type of Hstep with
    | context [loopHead sheet ep maps ?c ?u ?tr] =>
        pose proof (@loopHead_trace P c u tr Hdone (Hsub (i c)) Htr) as Hl;
        destruct (loopHead sheet ep maps c u tr) as [[u' tr'] c']
    end.
    injection Hstep as <-. exact Hl.
Qed.

(** Whatever the user clicks and the server answers, every request the
    component sends is the submission of a row of the sheet: it goes to
    the endpoint's URL by the endpoint's method and carries that row's
    payload, as body for POST and PUT and not at all for GET and DELETE. *)
Theorem requests_are_rows (es : list Event) (m : Machine) :
  run sheet ep maps (mounted sheet) es = Some m ->
  Forall (fun e =>
            match e with
            | Submitted k req =>
                k < N /\
                req_url req = fullUrl ep /\
                req_method req = methodName (method ep) /\
                exists p, generatePayload sheet maps k = Some p /\
                          req_body req = match method ep with
                                         | POST | PUT => Some p
                                         | GET | DELETE => None
                                         end
            | Completed _ => True
            end) (trace m).
Proof.
  assert (Hgen : forall es m0 m,
             run sheet ep maps m0 es = Some m ->
             forall P : Effect -> Prop,
               (forall rs, P (Completed rs)) ->
               (forall k p, k < N -> generatePayload sheet maps k = Some p ->
                            P (Submitted k (submitRequest ep p))) ->
               Forall P (trace m0) -> Forall P (trace m)).
  { clear es m. induction es as [|e es IH]; intros m0 m Hrun P Hdone Hsub Htr;
      simpl in Hrun.
    - now injection Hrun as <-.
    - destruct (step sheet ep maps m0 e) as [m1|] eqn:Es; [| discriminate].
      apply (IH m1 m Hrun P Hdone Hsub).
      now apply (@step_trace P m0 m1 e Hdone Hsub Es). }
  intros Hrun. apply (Hgen es (mounted sheet) m Hrun).
  - intros rs. exact I.
  - intros k p Hk Hp. repeat split; try assumption. exists p. now split.
  - constructor.
Qed.

(** ** The table after an uninterrupted run *)










End Component.

Lemma counters_add_up_witness :
  exists m,
    run Examples.threeRows Examples.users Examples.emailOnly
        (mounted Examples.threeRows)
        [ClickStart; Settle 0 (Examples.created 1); ClickPause; ClickReset] = Some m /\
    successCount (results (ui m)) + errorCount (results (ui m))
    + pendingCount (results (ui m)) = 3.
Proof.
  eexists. split; [reflexivity |].
  apply (@counters_add_up Examples.threeRows Examples.users Examples.emailOnly
           [ClickStart; Settle 0 (Examples.created 1); ClickPause; ClickReset]).
  reflexivity.
Defined.

Lemma requests_are_rows_witness :
  exists m,
    run Examples.threeRows Examples.users Examples.emailOnly
        (mounted Examples.threeRows)
        [ClickStart; Settle 0 (Examples.created 1); ClickPause; Elapse 0] = Some m /\
    map (fun e => match e with
                  | Submitted k req => Some (k, req_url req, req_method req)
                  | Completed _ => None
                  end) (trace m)
    = [ Some (0, "https://api.example/users", "POST");
        Some (1, "https://api.example/users", "POST") ] /\
    Forall (fun e =>
              match e with
              | Submitted k req =>
                  k < 3 /\
                  req_url req = "https://api.example/users" /\
                  req_method req = "POST" /\
                  exists p,
                    generatePayload Examples.threeRows Examples.emailOnly k = Some p /\
                    req_body req = Some p
              | Completed _ => True
              end) (trace m).
Proof.
  eexists. split; [reflexivity |]. split; [reflexivity |].
  apply (@requests_are_rows Examples.threeRows Examples.users Examples.emailOnly
           [ClickStart; Settle 0 (Examples.created 1); ClickPause; Elapse 0]).
  reflexivity.
Defined.


End SubmissionLedger.

(* ===================================================================== *)
(** * Further facts about the verification step                            *)
(* ===================================================================== *)

Module VerificationLedger.

Import Verification Tallies VerificationFacts.

#[local] Arguments updateEntries : simpl never.

(** ** Comparison on any body *)

Lemma compareEntries_defined (es : list (string * JsVal)) (retrievedData : JsVal) :
  nullish retrievedData = false ->
  compareEntries es retrievedData <> None.
Proof.
  intros Hr. induction es as [|[k v] es IH]; simpl; [discriminate |].
  destruct (differsAt retrievedData k v) as [differs|] eqn:Ed; simpl.
  - destruct differs; [discriminate | exact IH].
  - destruct retrievedData; discriminate.
Qed.

(** Comparing throws exactly when something was submitted and the body
    retrieved is [null]: an empty payload compares equal to any body, and
    a body that is not [null] is compared whatever its type. *)
Theorem compareData_throws (submittedProps : list (string * JsVal))
    (retrievedData : JsVal) :
  compareData (VObj submittedProps) retrievedData = None <->
  submittedProps <> [] /\ nullish retrievedData = true.
Proof.
  unfold compareData. simpl. split.
  - intros H. destruct submittedProps as [|[k v] rest]; [discriminate |].
    split; [discriminate |].
    destruct (nullish retrievedData) eqn:En; [reflexivity |].
    now elim (compareEntries_defined ((k, v) :: rest) retrievedData En).
  - intros [Hne Hnull]. destruct submittedProps as [|[k v] rest]; [now elim Hne |].
    simpl. now destruct retrievedData.
Qed.

Section Component.

Variable typeErrorMessage : string.
Variable World : Type.
Variable fetch : World -> Request -> FetchOutcome * World.

Abbreviation verifyRow := (verifyRow typeErrorMessage fetch).
Abbreviation rowUpdate := (rowUpdate typeErrorMessage fetch).
Abbreviation verifyAll := (verifyAll typeErrorMessage fetch).
Abbreviation State := (State World).

(** ** Requests *)



(** ** The table *)






(** A verification request that fails on the network, or is answered 2xx
    with a body that is not JSON, leaves its row as an error carrying the
    failure's message, with nothing retrieved. *)
Theorem failed_request_is_recorded (url : string)
    (submissionResults : list SubmissionResult) (w : World)
    (pre post : list SubmissionResult) (result : SubmissionResult)
    (message : string) :
  url <> "" ->
  NoDup (map rowIndex submissionResults) ->
  successfulSubmissions submissionResults = (pre ++ result :: post)%list ->
  let before := fold_left (verifyRow url) pre (initialised submissionResults w) in
  let out := fst (fetch (world before) (verifyRequest url (identifierOf result))) in
  truthy (identifierOf result) = true ->
  out = Rejected message \/
  (exists resp, out = Responded resp /\ ok resp = true /\
                body resp = NotJson message) ->
  exists entry,
    entriesFor (rowIndex result)
               (verificationResults (verifyAll (Some url) submissionResults w))
      = [entry] /\
    v_status entry = VError /\
    v_error entry = Some message /\
    retrieved entry = VUndef.
Proof.
  intros Hurl Hnd Hsplit before out Hid Hout.
  eexists. split;
    [apply (@final_entry typeErrorMessage World fetch url submissionResults w
              pre post result Hurl Hnd Hsplit) |].
  unfold Verification.rowUpdate. fold before. rewrite Hid. simpl negb. cbv iota.
  fold out. unfold outcomeUpdate.
  destruct Hout as [-> | (resp & -> & Hok & Hbody)].
  - repeat split.
  - rewrite Hok, Hbody. repeat split.
Qed.

End Component.


Lemma failed_request_is_recorded_witness :
  exists entry,
    entriesFor 0 (verificationResults
                    (verifyAll "TypeError" Samples.unreachable
                               (Some Examples.exampleUrl) Examples.submissions tt))
      = [entry] /\
    v_status entry = VError /\
    v_error entry = Some "Failed to fetch" /\
    retrieved entry = VUndef.
Proof.
  apply (@failed_request_is_recorded "TypeError" unit Samples.unreachable
           Examples.exampleUrl Examples.submissions tt []
           (tl Examples.submissions) (hd Examples.zeroId Examples.submissions)
           "Failed to fetch").
  - discriminate.
  - apply submissions_NoDup.
  - reflexivity.
  - reflexivity.
  - now left.
Defined.

End VerificationLedger.

(* ===================================================================== *)
(** * Facts about the steps put together                                   *)
(* ===================================================================== *)

Module PipelineFacts.

Import Sheets FileUpload DataMapping MappingSession Submission Verification.
Import ObjectFacts SheetFacts SubmissionFacts SubmissionLedger.

(** ** From the uploaded sheet to the payload *)

Lemma or_defined (v : JsVal) : nullish (or v (VStr "")) = false.
Proof. unfold or. now destruct v as [| |[]|n|s|l|ps]; simpl; try destruct (_ =? _)%Z;
  try destruct (s =? ""). Qed.

Lemma fillRow_defined (headers : list string) (c : nat) (cells : list JsVal)
    (acc : Row) (header : string) :
  In header headers -> header <> "__proto__" ->
  nullish (own (fillRow headers c cells acc) header) = false.
Proof.
  revert c acc. induction headers as [|h rest IH]; intros c acc Hin Hp; simpl.
  - destruct Hin.
  - destruct (in_dec string_dec header rest) as [Hrest|Hrest].
    + now apply IH.
    + destruct Hin as [-> | Hin]; [| contradiction].
      rewrite fillRow_absent by assumption.
      rewrite own_setProp_same by assumption. apply or_defined.
Qed.

Lemma buildRow_defined (headers : list string) (cells : list JsVal) (index : nat)
    (header : string) :
  In header headers -> header <> "__proto__" ->
  nullish (own (buildRow headers cells index) header) = false.
Proof.
  intros Hin Hp. unfold buildRow.
  destruct (string_dec "_rowIndex" header) as [<-|Hne].
  - now rewrite own_setProp_same.
  - rewrite own_setProp_other by assumption. now apply fillRow_defined.
Qed.

(** For a sheet that came through the upload step with printable header
    cells and a mapping set made with the selects, the payload of every
    row has a property for each mapping, and none of them is [undefined]
    or [null]: a cell that is missing or falsy is sent as the empty
    string.  The payload has no property besides the mapped api fields.
    The one name this does not hold for is [__proto__]: a mapping whose api
    field has that name gives no property, and a column headed by it holds
    no cells. *)
Theorem uploaded_payload_is_defined (name : string) (read : FileRead)
    (sheet : SpreadsheetData) (ep : ApiEndpoint) (maps : list FieldMapping)
    (index : nat) :
  handleFile name read = Uploaded sheet ->
  printableHeaders read ->
  wellFormed sheet ep maps ->
  index < rowCount sheet ->
  exists payload,
    generatePayload sheet maps index = Some (VObj payload) /\
    (forall k, In k (map fst payload) -> In k (map apiField maps)) /\
    Forall (fun m => apiField m <> "__proto__" ->
                     spreadsheetColumn m <> "__proto__" ->
                     has_key payload (apiField m) = true /\
                     nullish (own payload (apiField m)) = false) maps.
Proof.
  intros Hup _ [Hnd Hall] Hindex.
  assert (Hparse : parseXLSXFile read = Resolved sheet).
  { unfold handleFile in Hup.
    destruct (negb _); [discriminate |].
    destruct (parseXLSXFile read) as [d|message]; [| discriminate].
    destruct (0 <? _)%nat; [discriminate |]. now injection Hup as <-. }
  destruct read as [|[[|first rest]|message]]; try discriminate.
  simpl in Hparse. injection Hparse as <-.
  unfold rowCount in Hindex. cbn [rows sheet_headers] in *.
  destruct (nth_error (buildRows (headersOf first) rest) index) as [row|] eqn:Erow;
    [| apply nth_error_None in Erow; lia].
  destruct (@payload_fold row maps [] Hnd) as (Hkeys & _ & Hvalues & _);
    [intros k [] |].
  eexists. split; [unfold generatePayload; cbn [rows]; rewrite Erow; reflexivity |].
  split; [intros k Hk; apply Hkeys in Hk; simpl in Hk; tauto |].
  unfold buildRows in Erow. rewrite buildRowsFrom_nth in Erow.
  destruct (nth_error rest index) as [cells|]; [| discriminate].
  injection Erow as <-.
  rewrite Forall_forall in *. intros m Hm Hfield Hcolumn. split.
  - apply has_key_In, Hkeys. right. split; [|exact Hfield].
    apply in_map_iff. now exists m.
  - rewrite (Hvalues m Hm Hfield). apply buildRow_defined; [|exact Hcolumn].
    now apply (Hall m Hm).
Qed.

Lemma uploaded_payload_is_defined_witness :
  exists payload,
    generatePayload
      {| sheet_headers := headersOf [VStr " sku "; VStr "qty"; VStr "note"];
         rows := buildRows (headersOf [VStr " sku "; VStr "qty"; VStr "note"])
                           (tl Samples.stock) |}
      [ {| spreadsheetColumn := "note"; apiField := "email"; transform := Some "" |} ]
      1 = Some (VObj payload) /\
    has_key payload "email" = true /\ nullish (own payload "email") = false.
Proof.
  destruct (@uploaded_payload_is_defined "stock.xlsx" (Read (Cells Samples.stock))
              _ Samples.signup
              [ {| spreadsheetColumn := "note"; apiField := "email";
                   transform := Some "" |} ] 1 eq_refl
              ltac:(repeat constructor)
              ltac:(split; [simpl; repeat constructor; intros []
                           | repeat constructor; simpl; try discriminate; tauto])
              ltac:(unfold rowCount; simpl; lia))
    as (payload & Hpayload & _ & Hall).
  exists payload. split; [exact Hpayload|].
  inversion Hall as [|m ms Hfirst _]; subst.
  apply Hfirst; discriminate.
Defined.

(** ** From the submission step to the verification step *)

Section Network.

Variable typeErrorMessage : string.
Variable World : Type.
Variable fetch : World -> Request -> FetchOutcome * World.

(** With a sheet of one row the completion callback fires with the table
    of the render that was clicked, in which the row is still pending: the
    verification step finds no successful submission, shows no entry and
    sends no request, whatever the server answered to the submission. *)
Theorem single_row_is_never_verified (sheet : SpreadsheetData) (ep : ApiEndpoint)
    (maps : list FieldMapping) (out : FetchOutcome)
    (getEndpointUrl : option string) (w : World) :
  rowCount sheet = 1 ->
  exists m reported,
    run sheet ep maps (mounted sheet) (uninterrupted [out]) = Some m /\
    completions (trace m) = [reported] /\
    successfulSubmissions reported = [] /\
    verificationResults
      (verifyAll typeErrorMessage fetch getEndpointUrl reported w) = [] /\
    sent (verifyAll typeErrorMessage fetch getEndpointUrl reported w) = [].
Proof.
  intros HN.
  destruct (@uninterrupted_endOfRun sheet ep maps [out]) as (m & Hrun & Hend);
    [now rewrite HN |].
  destruct Hend as (_ & _ & _ & _ & Hcomp & _).
  exists m, (initialResults sheet).
  assert (Hnone : successfulSubmissions (initialResults sheet) = []).
  { unfold initialResults. rewrite HN. reflexivity. }
  split; [exact Hrun |]. split.
  - rewrite Hcomp. unfold reportOf. rewrite HN. reflexivity.
  - split; [exact Hnone |].
    unfold verifyAll, startVerification, initialised. rewrite Hnone.
    destruct getEndpointUrl as [url|]; [| now split].
    destruct (url =? ""); now split.
Qed.

End Network.

Lemma single_row_is_never_verified_witness :
  exists m reported,
    run Examples.oneRow Examples.users Examples.emailOnly
        (mounted Examples.oneRow) (uninterrupted [Examples.created 1]) = Some m /\
    completions (trace m) = [reported] /\
    successfulSubmissions reported = [] /\
    verificationResults
      (verifyAll "TypeError" Examples.records (Some Examples.exampleUrl) reported tt)
    = [] /\
    sent (verifyAll "TypeError" Examples.records (Some Examples.exampleUrl) reported tt)
    = [].
Proof.
  apply (@single_row_is_never_verified "TypeError" unit Examples.records
           Examples.oneRow Examples.users Examples.emailOnly (Examples.created 1)
           (Some Examples.exampleUrl) tt).
  reflexivity.
Defined.

End PipelineFacts.

(* ===================================================================== *)
(** * Facts about the endpoint search                                      *)
(* ===================================================================== *)

Module SearchFacts.

Import ApiClient EndpointSearch.

Lemma str_includes_empty (s : string) : str_includes "" s = true.
Proof. now destruct s. Qed.

(** With an empty search box every discovered endpoint is listed, and the
    filter cannot throw whatever the descriptions are. *)
Theorem empty_search_lists_everything (endpoints : list ParsedEndpoint) :
  filteredEndpoints endpoints "" = Some endpoints.
Proof.
  induction endpoints as [|e rest IH]; simpl; [reflexivity |].
  unfold matchesSearch. simpl. rewrite str_includes_empty. simpl.
  now rewrite IH.
Qed.

(** For a search term and paths made of ASCII characters, the filter
    throws exactly when some endpoint whose path does not contain the
    search term, letter case aside, has a description that is not a
    string, as when the document gives a number or an object as
    [summary]. *)
Theorem search_throws (endpoints : list ParsedEndpoint) (searchTerm : string) :
  asciiString searchTerm = true ->
  Forall (fun e => asciiString (path e) = true) endpoints ->
  filteredEndpoints endpoints searchTerm = None <->
  Exists (fun e =>
            str_includes (toLowerCase searchTerm) (toLowerCase (path e)) = false /\
            forall s, description e <> VStr s) endpoints.
Proof.
  intros _ _.
  induction endpoints as [|e rest IH]; simpl.
  - split; [discriminate | intros H; inversion H].
  - unfold matchesSearch at 1.
    destruct (str_includes (toLowerCase searchTerm) (toLowerCase (path e))) eqn:Ep;
      simpl.
    + destruct (filteredEndpoints rest searchTerm) as [kept|]; simpl.
      * split; [discriminate |].
        intros H. inversion H as [? ? [Hp _]|? ? Hrest]; subst; [congruence |].
        apply IH in Hrest. discriminate.
      * split; [| reflexivity]. intros _. apply Exists_cons_tl. now apply IH.
    + destruct (description e) as [| |b|n|s|l|ps] eqn:Ed; simpl;
        try (split; [intros _; apply Exists_cons_hd; split;
                     [exact Ep | intros s0; rewrite Ed; discriminate]
                    | reflexivity]).
      assert (Hrest : forall keep : bool,
                 (kept <- filteredEndpoints rest searchTerm ;;
                  Some (if keep then e :: kept else kept)) = None <->
                 Exists (fun e =>
                           str_includes (toLowerCase searchTerm)
                                        (toLowerCase (path e)) = false /\
                           forall s, description e <> VStr s) (e :: rest)).
      { intros keep.
        destruct (filteredEndpoints rest searchTerm) as [kept|]; simpl.
        - split; [discriminate |].
          intros H. inversion H as [? ? [_ Hd]|? ? Hr]; subst.
          + elim (Hd s). exact Ed.
          + apply IH in Hr. discriminate.
        - split; [| reflexivity]. intros _. apply Exists_cons_tl. now apply IH. }
      destruct (str_includes (toLowerCase searchTerm) (toLowerCase s)); apply Hrest.
Qed.

Lemma search_throws_witness :
  filteredEndpoints
    [ {| method := "GET"; path := "/pets";
         fullUrl := "https://api.example/pets"; description := VNum 5;
         parameters := []; requestBody := None |} ] "Own" = None.
Proof.
  refine (proj2 (@search_throws _ "Own" eq_refl _) _).
  - repeat constructor.
  - apply Exists_cons_hd. split; [reflexivity | discriminate].
Defined.

End SearchFacts.

(* ===================================================================== *)
(** * Facts about Reset and about the statuses of a run                    *)
(* ===================================================================== *)

Module ControlFacts.

Import Submission Ledger SubmissionFacts.

#[local] Arguments updateRow : simpl never.
#[local] Arguments initialResults : simpl never.
#[local] Arguments seq : simpl never.
#[local] Arguments rowsSubmitted : simpl never.
#[local] Arguments completions : simpl never.

Section Component.

Variable sheet : SpreadsheetData.
Variable ep : ApiEndpoint.
Variable maps : list FieldMapping.

Abbreviation N := (rowCount sheet).

Lemma reset_is_not_observed (cl : UiState) (k : nat) (m : Machine)
    (out : FetchOutcome) :
  isPaused cl = false ->
  midRun sheet cl k m ->
  S k < N ->
  exists m' p,
    run sheet ep maps m [Settle 0 out; ClickPause; ClickReset; Elapse 0] = Some m' /\
    generatePayload sheet maps (S k) = Some p /\
    rowsSubmitted (trace m') = seq 0 (S (S k)) /\
    currentRow (ui m') = S k /\
    results (ui m') = updateRow (S k) (markAttempt p) (initialResults sheet).
Proof.
  intros Hcl (Hc & Hk & Hrun & Hpa & Hcur & Hsub & Hcomp & Hidx & Hst) Hlt.
  destruct m as [u cs tr]; cbn [ui calls trace] in *. subst cs.
  cbn [run step calls nth_error phase closure i ui trace replaceNth
       setResults isRunning].
  rewrite Hrun.
  cbn [run step calls nth_error phase closure i ui trace replaceNth
       setIsRunning setIsPaused isRunning].
  unfold loopHead; cbn [closure i].
  destruct (Nat.ltb_spec (S k) N) as [_|]; [|lia].
  rewrite Hcl. destruct (generatePayload_some sheet maps Hlt) as [p Hp]. rewrite Hp.
  eexists. exists p. split; [reflexivity |]. cbn.
  rewrite rowsSubmitted_app, Hsub. cbn.
  repeat split; try reflexivity. now rewrite (seq_S (S k) 0).
Qed.

(** Reset does not stop a paused run.  When Pause and then Reset are
    clicked after the response to a row, the table and the cursor are
    reset, and the timer of the call still in flight then submits the next
    row: the reset table shows that row as attempted and the cursor stands
    on it. *)
Theorem reset_leaves_the_run_going (outs : list FetchOutcome) (out : FetchOutcome) :
  S (List.length outs) < N ->
  exists m p,
    run sheet ep maps (mounted sheet)
        (uninterrupted outs ++ [Settle 0 out; ClickPause; ClickReset; Elapse 0])
    = Some m /\
    generatePayload sheet maps (S (List.length outs)) = Some p /\
    rowsSubmitted (trace m) = seq 0 (S (S (List.length outs))) /\
    currentRow (ui m) = S (List.length outs) /\
    results (ui m) =
      updateRow (S (List.length outs)) (markAttempt p) (initialResults sheet).
Proof.
  intros Hlen.
  destruct (@start_midRun sheet ep maps) as (m0 & Hstep & Hmid0); [lia|].
  destruct (@rounds_reach sheet ep maps outs (ui (mounted sheet)) 0 m0 eq_refl Hmid0)
    as (m1 & Hrun1 & Hmid1); [lia|].
  destruct (@reset_is_not_observed (ui (mounted sheet)) _ m1 out eq_refl Hmid1)
    as (m2 & p & Hrun2 & Hfacts); [exact Hlen|].
  exists m2, p. split; [|exact Hfacts].
  unfold uninterrupted. rewrite run_app. cbn [run]. rewrite Hstep, Hrun1.
  exact Hrun2.
Qed.

End Component.

Lemma reset_leaves_the_run_going_witness :
  exists m p,
    run Examples.threeRows Examples.users Examples.emailOnly
        (mounted Examples.threeRows)
        (uninterrupted [] ++ [Settle 0 (Examples.created 1); ClickPause; ClickReset;
                              Elapse 0])
    = Some m /\
    generatePayload Examples.threeRows Examples.emailOnly 1 = Some p /\
    rowsSubmitted (trace m) = [0; 1] /\
    currentRow (ui m) = 1 /\
    results (ui m) =
      updateRow 1 (markAttempt p) (initialResults Examples.threeRows).
Proof.
  apply (@reset_leaves_the_run_going Examples.threeRows Examples.users
           Examples.emailOnly [] (Examples.created 1)).
  simpl. unfold rowCount. simpl. lia.
Defined.

End ControlFacts.

(* ===================================================================== *)
(** * Facts about the upload with confirmation and the newer form          *)
(* ===================================================================== *)

Module ImportFacts.

Import Sheets FileUpload FileImport SheetFacts.

(** ** The name check and the parser's extension *)

Lemma lower_char_dot (c : ascii) :
  Ascii.eqb (lower_char c) "." = Ascii.eqb c ".".
Proof. destruct c as [[] [] [] [] [] [] [] []]; reflexivity. Qed.

Lemma split_toLowerCase (s : string) :
  split "." (toLowerCase s) = map toLowerCase (split "." s).
Proof.
  induction s as [|c s IH]; simpl; [reflexivity |].
  rewrite lower_char_dot. destruct (Ascii.eqb c "."); simpl.
  - now rewrite IH.
  - rewrite IH. now destruct (split "." s).
Qed.

Lemma last_map_lower (l : list string) :
  last (map toLowerCase l) "" = toLowerCase (last l "").
Proof.
  induction l as [|x l IH]; simpl; [reflexivity |].
  destruct l as [|y l]; [reflexivity | exact IH].
Qed.

Lemma extensionOf_lower (name : string) :
  extensionOf name = last (split "." (toLowerCase name)) "".
Proof. unfold extensionOf. now rewrite split_toLowerCase, last_map_lower. Qed.

Lemma split_after_dot (pre ext : string) :
  split "." ext = [ext] ->
  exists init, split "." (pre ++ String "." ext) = (init ++ [ext])%list /\ init <> [].
Proof.
  intros Hext. induction pre as [|c pre (init & IH & Hne)]; simpl.
  - exists [""]. rewrite Hext. split; [reflexivity | discriminate].
  - destruct (Ascii.eqb c ".").
    + exists ("" :: init). rewrite IH. split; [reflexivity | discriminate].
    + rewrite IH. destruct init as [|piece init]; [now elim Hne |].
      exists (String c piece :: init). split; [reflexivity | discriminate].
Qed.

Lemma substring_split (m : nat) (s : string) :
  m <= String.length s ->
  s = substring 0 m s ++ substring m (String.length s - m) s.
Proof.
  revert s. induction m as [|m IH]; intros s Hm.
  - rewrite Nat.sub_0_r. simpl.
    assert (Hall : forall t, substring 0 (String.length t) t = t)
      by (induction t as [|c t IHt]; simpl; [reflexivity | now rewrite IHt]).
    rewrite Hall. now destruct s.
  - destruct s as [|c s]; simpl in *; [lia |].
    f_equal. apply IH. lia.
Qed.

Lemma endsWith_split (suffix s : string) :
  endsWith suffix s = true -> exists pre, s = pre ++ suffix.
Proof.
  unfold endsWith. intros H. apply andb_prop in H. destruct H as [Hlen Heq].
  apply Nat.leb_le in Hlen. apply String.eqb_eq in Heq.
  exists (substring 0 (String.length s - String.length suffix) s).
  pose proof (@substring_split (String.length s - String.length suffix) s) as H.
  replace (String.length s - (String.length s - String.length suffix))
    with (String.length suffix) in H by lia.
  rewrite Heq in H. apply H. lia.
Qed.

Lemma endsWith_extension (ext name : string) :
  split "." ext = [ext] ->
  endsWith (String "." ext) (toLowerCase name) = true ->
  extensionOf name = ext.
Proof.
  intros Hext Hends. rewrite extensionOf_lower.
  apply endsWith_split in Hends. destruct Hends as [pre ->].
  destruct (split_after_dot pre Hext) as (init & -> & _).
  apply last_last.
Qed.

(** A file name that passes the check of the upload step has the
    extension [xlsx] or [csv] for the parser, so the parser's answer
    "Unsupported file format" cannot reach this component. *)
Theorem name_check_fixes_the_parser (typeErrorMessage name : string)
    (read : FileRead) :
  endsWith ".xlsx" (toLowerCase name) = true \/
  endsWith ".csv" (toLowerCase name) = true ->
  (extensionOf name = "xlsx" \/ extensionOf name = "csv") /\
  parseSpreadsheetFile typeErrorMessage name read
    <> RejectedWith "Unsupported file format".
Proof.
  intros Hname.
  assert (Hext : extensionOf name = "xlsx" \/ extensionOf name = "csv").
  { destruct Hname as [H | H].
    - left. now apply (@endsWith_extension "xlsx" name).
    - right. now apply (@endsWith_extension "csv" name). }
  split; [exact Hext |].
  unfold parseSpreadsheetFile.
  assert (Hif : (extensionOf name =? "xlsx") || (extensionOf name =? "csv") = true)
    by (destruct Hext as [-> | ->]; reflexivity).
  rewrite Hif.
  destruct read as [|[[|first [|cells rest]]|message]]; discriminate.
Qed.

Lemma name_check_fixes_the_parser_witness :
  (extensionOf "Orders.2024.XLSX" = "xlsx" \/ extensionOf "Orders.2024.XLSX" = "csv") /\
  parseSpreadsheetFile "TypeError" "Orders.2024.XLSX" ReadError
    <> RejectedWith "Unsupported file format".
Proof.
  apply (@name_check_fixes_the_parser "TypeError" "Orders.2024.XLSX" ReadError).
  left. reflexivity.
Defined.

(** ** Confirmation *)

Section Engine.

Variable typeErrorMessage : string.

Abbreviation accepted := (accepted typeErrorMessage).
Abbreviation uploadRun := (uploadRun typeErrorMessage).

Lemma accepted_incl (evs evs' : list UploadEvent) (data : SpreadsheetData) :
  incl evs evs' -> accepted evs data -> accepted evs' data.
Proof.
  intros Hincl (name & read & Hin & Hrest).
  exists name, read. split; [now apply Hincl | exact Hrest].
Qed.

Lemma handleFile_preview (name : string) (read : FileRead) (st : UploadState)
    (data : SpreadsheetData) :
  previewData (FileImport.handleFile typeErrorMessage name read st) = Some data ->
  previewData st = Some data \/ accepted [ChooseFile name read] data.
Proof.
  unfold FileImport.handleFile.
  destruct (endsWith ".xlsx" (toLowerCase name)) eqn:Ex;
    destruct (endsWith ".csv" (toLowerCase name)) eqn:Ec; simpl;
    try (now left).
  all: destruct (parseSpreadsheetFile typeErrorMessage name read) as [d|message] eqn:Ep;
    simpl; try (now left).
  all: destruct (validateSpreadsheetData d) as [|e es] eqn:Ev; simpl; try (now left).
  all: intros H; injection H as <-; right; exists name, read;
    (split; [now left |]); (split; [tauto |]); (split; [exact Ep |]);
    exact Ev.
Qed.

Lemma uploadRun_accepted (evs seen : list UploadEvent) (st st' : UploadState)
    (imported : list SpreadsheetData) :
  (forall data, previewData st = Some data -> accepted seen data) ->
  uploadRun st evs = (st', imported) ->
  Forall (accepted (seen ++ evs)) imported.
Proof.
  revert seen st st' imported.
  induction evs as [|ev evs IH]; intros seen st st' imported Hinv Hrun;
    simpl in Hrun.
  - injection Hrun as <- <-. constructor.
  - destruct (uploadStep typeErrorMessage st ev) as [st1 now_] eqn:Estep.
    destruct (uploadRun st1 evs) as [st2 later] eqn:Erest.
    injection Hrun as <- <-.
    assert (Hseen : incl seen (seen ++ ev :: evs)) by (apply incl_appl, incl_refl).
    assert (Hinv1 : forall data, previewData st1 = Some data ->
                                 accepted (seen ++ [ev]) data).
    { intros data Hd. destruct ev as [name read| |]; simpl in Estep.
      - injection Estep as <- <-.
        destruct (handleFile_preview name read st Hd) as [Hold | Hnew].
        + apply (accepted_incl (evs := seen)); [apply incl_appl, incl_refl |].
          now apply Hinv.
        + apply (accepted_incl (evs := [ChooseFile name read]));
            [apply incl_appr, incl_refl | exact Hnew].
      - destruct (previewData st) eqn:Ed; injection Estep as <- <-; simpl in Hd;
          congruence.
      - injection Estep as <- <-. discriminate. }
    apply Forall_app. split.
    + destruct ev as [name read| |]; simpl in Estep.
      * injection Estep as <- <-. constructor.
      * destruct (previewData st) as [d|] eqn:Ed; injection Estep as <- <-;
          [| constructor].
        constructor; [| constructor].
        apply (accepted_incl (evs := seen)); [exact Hseen | now apply Hinv].
      * injection Estep as <- <-. constructor.
    + specialize (IH (seen ++ [ev])%list st1 st2 later Hinv1 Erest).
      now rewrite <- app_assoc in IH.
Qed.

(** Whatever files are chosen and buttons clicked, every sheet the upload
    step hands on was parsed from a chosen file with an accepted name and
    passed the validator. *)
Theorem confirmed_uploads_are_accepted (evs : list UploadEvent)
    (st : UploadState) (imported : list SpreadsheetData) :
  uploadRun freshUpload evs = (st, imported) ->
  Forall (accepted evs) imported.
Proof.
  intros Hrun. apply (@uploadRun_accepted evs [] freshUpload st imported);
    [discriminate | exact Hrun].
Qed.

End Engine.

Lemma confirmed_uploads_are_accepted_witness :
  Forall (FileImport.accepted "TypeError"
            [ChooseFile "stock.csv" (Read (Cells Samples.stock));
             ChooseFile "notes.txt" ReadError; Confirm; Confirm])
         (snd (FileImport.uploadRun "TypeError" freshUpload
                 [ChooseFile "stock.csv" (Read (Cells Samples.stock));
                  ChooseFile "notes.txt" ReadError; Confirm; Confirm])).
Proof.
  apply (@confirmed_uploads_are_accepted "TypeError"
           [ChooseFile "stock.csv" (Read (Cells Samples.stock));
            ChooseFile "notes.txt" ReadError; Confirm; Confirm]
           (fst (FileImport.uploadRun "TypeError" freshUpload
                   [ChooseFile "stock.csv" (Read (Cells Samples.stock));
                    ChooseFile "notes.txt" ReadError; Confirm; Confirm]))).
  reflexivity.
Defined.

(** ** The two versions of the credentials form *)

Section Platform.

Variable validUrl : string -> bool.
Variable btoa : string -> string + string.
Variable World : Type.
Variable fetch : World -> Request -> FetchOutcome * World.

(** The form that only awaits the connection test and the form that
    reads its answer end alike on every input: the same outcome, the same
    requests, the same state of the network. *)
Theorem credential_forms_agree (credentials : Credentials.ApiCredentials)
    (w : World) :
  CredentialsForm.validateCredentials validUrl btoa fetch credentials w =
  Credentials.validateCredentials validUrl btoa fetch credentials w.
Proof.
  unfold CredentialsForm.validateCredentials, Credentials.validateCredentials.
  destruct (_ || _ || _); [reflexivity |].
  destruct (negb _); [reflexivity |].
  destruct (btoa _); [reflexivity |].
  unfold Credentials.testConnection.
  destruct (fetch w _) as [[r|message] w']; simpl; [| reflexivity].
  now destruct (ok r).
Qed.

End Platform.

End ImportFacts.
